(** * Play-LMP orchestrator (calvin/models/play_lmp.py): model and properties

    A shallow embedding of the [PlayLMP] module: the construction-time
    input-size resolution, the visual/perceptual embedding fusion, the
    training and validation step bodies and the three inference entry
    points.  Sub-networks (encoders, plan networks, action decoder) are
    external collaborators: they are the fields of the [PlayLMP] record,
    functions of the trainable parameters and their inputs. *)

From Stdlib Require Import ZArith QArith Qabs List String Ascii Bool.
From stdpp Require Import gmap strings list fin_maps.

Open Scope string_scope.
Open Scope Z_scope.

(** ** Python exceptions and outcomes *)

Inductive exn : Type :=
  | KeyError (key : string)
  | TypeError (msg : string)
  | AttributeError (attr : string)
  | AssertionError
  | ValueError (msg : string)
  | RuntimeError (msg : string).

(** The result of an expression that may raise. *)
Inductive result (A : Type) : Type :=
  | Ok (a : A)
  | Raise (e : exn).
Arguments Ok {A} a.
Arguments Raise {A} e.

Definition rbind {A B} (r : result A) (k : A -> result B) : result B :=
  match r with
  | Ok a => k a
  | Raise e => Raise e
  end.

Definition is_ok {A} (r : result A) : bool :=
  match r with Ok _ => true | Raise _ => false end.

(** The value of a result known to be [Ok], [d] otherwise. *)
Definition from_ok {A} (d : A) (r : result A) : A :=
  match r with Ok a => a | Raise _ => d end.

(** ** Floating-point scalars

    Finite values are embedded as exact rationals kept in lowest terms;
    the two infinities and NaN are separate values.  Rounding, overflow of
    finite operands and the sign of zero are outside the model. *)

Inductive fl : Type :=
  | Fin (q : Q)
  | PInf
  | NInf
  | NaN.

Definition fzero : fl := Fin 0.
Definition fone : fl := Fin 1.
Definition fneg_one : fl := Fin (-1).

Definition fl_of_Z (z : Z) : fl := Fin (inject_Z z).

Definition fadd (a b : fl) : fl :=
  match a, b with
  | NaN, _ | _, NaN => NaN
  | PInf, NInf | NInf, PInf => NaN
  | PInf, _ | _, PInf => PInf
  | NInf, _ | _, NInf => NInf
  | Fin x, Fin y => Fin (Qred (x + y))
  end.

Definition fneg (a : fl) : fl :=
  match a with
  | Fin x => Fin (Qred (- x))
  | PInf => NInf
  | NInf => PInf
  | NaN => NaN
  end.

Definition fsub (a b : fl) : fl := fadd a (fneg b).

Definition fabs (a : fl) : fl :=
  match a with
  | Fin x => Fin (Qred (Qabs x))
  | PInf | NInf => PInf
  | NaN => NaN
  end.

(** Sign of a scalar: [Some Gt], [Some Lt], [Some Eq], or [None] for NaN. *)
Definition fsign (a : fl) : option comparison :=
  match a with
  | Fin x => Some (Qcompare x 0)
  | PInf => Some Gt
  | NInf => Some Lt
  | NaN => None
  end.

Definition fmul (a b : fl) : fl :=
  match a, b with
  | Fin x, Fin y => Fin (Qred (x * y))
  | _, _ =>
      match fsign a, fsign b with
      | Some Gt, Some Gt | Some Lt, Some Lt => PInf
      | Some Gt, Some Lt | Some Lt, Some Gt => NInf
      | _, _ => NaN
      end
  end.

(** [x / n] for a Python integer [n >= 0] (a [len]). *)
Definition fdiv_nat (a : fl) (n : nat) : fl :=
  match n with
  | O =>
      match fsign a with
      | Some Gt => PInf
      | Some Lt => NInf
      | _ => NaN
      end
  | S _ =>
      match a with
      | Fin x => Fin (Qred (x / inject_Z (Z.of_nat n)))
      | other => other
      end
  end.

(** [a > 0] *)
Definition fgt0 (a : fl) : bool :=
  match fsign a with Some Gt => true | _ => false end.

(** [a == b]: NaN is equal to nothing, itself included. *)
Definition feqb (a b : fl) : bool :=
  match a, b with
  | Fin x, Fin y => Qeq_bool x y
  | PInf, PInf | NInf, NInf => true
  | _, _ => false
  end.

Definition fsum (l : list fl) : fl := fold_left fadd l fzero.

(** ** Configuration objects (the fields [setup_input_sizes] touches)

    An [Optional[DictConfig]] argument is an [option]; [None] and only
    [None] is falsy (a configured node is a non-empty mapping). *)

Record vision_config : Type := VisionConfig {
  vc_visual_features : Z;
  vc_num_c : Z
}.

Record depth_config : Type := DepthConfig {
  dc_num_c : Z
}.

Record tactile_config : Type := TactileConfig {
  tc_visual_features : Z
}.

Record proprio_config : Type := ProprioConfig {
  keep_indices : list (list Z)
}.

(** A sub-network configuration that receives the derived sizes. *)
Record net_config : Type := NetConfig {
  n_state_obs : Z;
  visual_features : Z
}.

Definition set_n_state_obs (n : Z) (c : net_config) : net_config :=
  {| n_state_obs := n; visual_features := visual_features c |}.

Definition set_visual_features (v : Z) (c : net_config) : net_config :=
  {| n_state_obs := n_state_obs c; visual_features := v |}.

Definition add_num_c (d : Z) (c : vision_config) : vision_config :=
  {| vc_visual_features := vc_visual_features c; vc_num_c := vc_num_c c + d |}.

(** The ten configuration objects passed to [setup_input_sizes]; they are
    distinct objects, mutated in place. *)
Record configs : Type := Configs {
  vision_static : vision_config;
  depth_static : option depth_config;
  vision_gripper : option vision_config;
  depth_gripper : option depth_config;
  plan_proposal : net_config;
  plan_recognition : net_config;
  visual_goal : net_config;
  decoder : net_config;
  proprio_state : proprio_config;
  tactile : option tactile_config
}.

(** *** numpy helpers of line 85

    [np.diff] turns the nested lists of Python integers into an array, and
    the element type numpy gives that array decides the arithmetic of
    [np.diff] and [np.sum]: 64-bit signed integers when every entry fits
    (the default integer type, as on Linux), 64-bit unsigned integers when
    some entry does not but all are non-negative and fit in 64 bits, and a
    wider type otherwise (float64 or Python objects).  Fixed-width integer
    arithmetic wraps around silently; the arithmetic of the wider type is
    taken exactly, so float64 rounding is not modelled. *)

Definition int64_min : Z := - 2 ^ 63.
Definition int64_max : Z := 2 ^ 63 - 1.
Definition uint64_max : Z := 2 ^ 64 - 1.

Definition fits_int64 (z : Z) : bool := (int64_min <=? z) && (z <=? int64_max).
Definition fits_uint64 (z : Z) : bool := (0 <=? z) && (z <=? uint64_max).

(** Two's-complement wrap-around to 64 signed bits, and to 64 unsigned bits. *)
Definition wrap_int64 (z : Z) : Z := (z + 2 ^ 63) mod 2 ^ 64 - 2 ^ 63.
Definition wrap_uint64 (z : Z) : Z := z mod 2 ^ 64.

Inductive np_dtype : Type := Int64 | UInt64 | Wide.

Definition dtype_of (rows : list (list Z)) : np_dtype :=
  if forallb (forallb fits_int64) rows then Int64
  else if forallb (forallb fits_uint64) rows then UInt64
  else Wide.

(** The result of one arithmetic operation in the element type. *)
Definition np_wrap (d : np_dtype) (z : Z) : Z :=
  match d with
  | Int64 => wrap_int64 z
  | UInt64 => wrap_uint64 z
  | Wide => z
  end.

(** [np.diff] along the last axis of one row, in exact arithmetic. *)
Fixpoint np_diff (row : list Z) : list Z :=
  match row with
  | a :: (b :: _) as tl => (b - a) :: np_diff tl
  | _ => []
  end.

(** [np.diff] along the last axis of one row of element type [d]. *)
Definition np_diff_as (d : np_dtype) (row : list Z) : list Z :=
  map (np_wrap d) (np_diff row).

Definition zsum (l : list Z) : Z := fold_right Z.add 0 l.

(** [np.sum] over all elements, accumulated in the element type. *)
Definition np_sum_as (d : np_dtype) (l : list Z) : Z :=
  fold_left (fun acc x => np_wrap d (acc + x)) l 0.

(** Nested lists form a rectangular array only if all rows have one length. *)
Definition rectangular (rows : list (list Z)) : bool :=
  match rows with
  | [] => true
  | r :: rest => forallb (fun r' => Nat.eqb (length r') (length r)) rest
  end.

(** [int(np.sum(np.diff(rows)))] *)
Definition compute_n_state_obs (rows : list (list Z)) : result Z :=
  if rectangular rows
  then
    let d := dtype_of rows in
    Ok (np_sum_as d (concat (map (np_diff_as d) rows)))
  else Raise (ValueError "inhomogeneous shape").

(** *** setup_input_sizes

    The function mutates its arguments; the model threads the configuration
    store through the statements and returns it together with the outcome,
    so that writes made before an exception are kept. *)

Definition setup_input_sizes (a : configs) : configs * result unit :=
  match compute_n_state_obs (keep_indices (proprio_state a)) with
  | Raise e => (a, Raise e)
  | Ok n =>
      let a1 :=
        {| vision_static := vision_static a;
           depth_static := depth_static a;
           vision_gripper := vision_gripper a;
           depth_gripper := depth_gripper a;
           plan_proposal := set_n_state_obs n (plan_proposal a);
           plan_recognition := set_n_state_obs n (plan_recognition a);
           visual_goal := set_n_state_obs n (visual_goal a);
           decoder := set_n_state_obs n (decoder a);
           proprio_state := proprio_state a;
           tactile := tactile a |} in
      let vf0 := vc_visual_features (vision_static a1) in
      let vf1 :=
        match vision_gripper a1 with
        | Some g => vf0 + vc_visual_features g
        | None => vf0
        end in
      (* if depth_gripper and vision_gripper.num_c < 4 *)
      let gripper_step : result (option vision_config) :=
        match depth_gripper a1 with
        | None => Ok (vision_gripper a1)
        | Some dg =>
            match vision_gripper a1 with
            | None => Raise (AttributeError "num_c")
            | Some g =>
                if vc_num_c g <? 4
                then Ok (Some (add_num_c (dc_num_c dg) g))
                else Ok (Some g)
            end
        end in
      match gripper_step with
      | Raise e => (a1, Raise e)
      | Ok vg =>
          (* if depth_static and vision_static.num_c < 4 *)
          let vs :=
            match depth_static a1 with
            | None => vision_static a1
            | Some ds =>
                if vc_num_c (vision_static a1) <? 4
                then add_num_c (dc_num_c ds) (vision_static a1)
                else vision_static a1
            end in
          let vf2 :=
            match tactile a1 with
            | Some t => vf1 + tc_visual_features t
            | None => vf1
            end in
          ({| vision_static := vs;
              depth_static := depth_static a1;
              vision_gripper := vg;
              depth_gripper := depth_gripper a1;
              plan_proposal := set_visual_features vf2 (plan_proposal a1);
              plan_recognition := set_visual_features vf2 (plan_recognition a1);
              visual_goal := set_visual_features vf2 (visual_goal a1);
              decoder := set_visual_features vf2 (decoder a1);
              proprio_state := proprio_state a1;
              tactile := tactile a1 |}, Ok tt)
      end
  end.

(** A second invocation on the same objects, as the first one left them. *)
Definition setup_twice (a : configs) : configs * result unit :=
  setup_input_sizes (fst (setup_input_sizes a)).

(** ** Tensors

    A tensor is its shape and its elements in row-major order.  A
    well-formed tensor has [length data = numel shape]; the operations
    below check what torch checks and raise otherwise. *)

Record tensor : Type := Tensor {
  shape : list nat;
  data : list fl
}.

Definition numel (sh : list nat) : nat := fold_right Nat.mul 1%nat sh.

Definition well_formed (t : tensor) : bool :=
  Nat.eqb (length (data t)) (numel (shape t)).

Definition list_nat_eqb (a b : list nat) : bool :=
  bool_decide (a = b).

(** Python index normalisation: a negative index counts from the end. *)
Definition norm_index (i : Z) (size : nat) : result nat :=
  let j := if i <? 0 then i + Z.of_nat size else i in
  if (0 <=? j) && (j <? Z.of_nat size)
  then Ok (Z.to_nat j)
  else Raise (RuntimeError "index out of range").

(** [b, s, c, h, w = t.shape] *)
Definition unpack5 (t : tensor) : result (nat * nat * nat * nat * nat) :=
  match shape t with
  | [b; s; c; h; w] => Ok (b, s, c, h, w)
  | _ => Raise (ValueError "unpack")
  end.

(** [t.reshape(dims)]; a [None] entry is the inferred dimension [-1]. *)
Definition reshape (dims : list (option nat)) (t : tensor) : result tensor :=
  let known := numel (omap id dims) in
  let holes := length (filter (fun d => d = None) dims) in
  let n := length (data t) in
  match holes with
  | O =>
      if Nat.eqb known n
      then Ok (Tensor (omap id dims) (data t))
      else Raise (RuntimeError "shape is invalid for input size")
  | S O =>
      if Nat.eqb known 0 then Raise (RuntimeError "cannot infer dimension")
      else if Nat.eqb (n mod known) 0
      then Ok (Tensor (map (fun d => default (n / known)%nat d) dims) (data t))
      else Raise (RuntimeError "shape is invalid for input size")
  | _ => Raise (RuntimeError "only one dimension can be inferred")
  end.

(** [torch.unsqueeze(t, d)] for [0 <= d <= t.dim()]. *)
Definition unsqueeze (d : nat) (t : tensor) : result tensor :=
  if Nat.leb d (length (shape t))
  then Ok (Tensor (take d (shape t) ++ 1%nat :: drop d (shape t)) (data t))
  else Raise (RuntimeError "dimension out of range").

(** Interleave the tensors' blocks: [outer] rounds, in each round the next
    [c] elements of every tensor whose block size is [c]. *)
Fixpoint cat_data (outer : nat) (ts : list (nat * list fl)) : list fl :=
  match outer with
  | O => []
  | S o =>
      concat (map (fun cd => take (fst cd) (snd cd)) ts)
      ++ cat_data o (map (fun cd => (fst cd, drop (fst cd) (snd cd))) ts)
  end.

(** Shapes that may be concatenated along [dim]: equal everywhere else. *)
Definition cat_compatible (dim : nat) (sh0 sh : list nat) : bool :=
  list_nat_eqb (take dim sh0) (take dim sh)
  && list_nat_eqb (drop (S dim) sh0) (drop (S dim) sh)
  && Nat.ltb dim (length sh).

(** [torch.cat(ts, dim)] *)
Definition cat (dim : Z) (ts : list tensor) : result tensor :=
  match ts with
  | [] => Raise (RuntimeError "expected a non-empty list of tensors")
  | t0 :: _ =>
      rbind (norm_index dim (length (shape t0))) (fun d =>
        if forallb (fun t => cat_compatible d (shape t0) (shape t)) ts
        then
          let sizes := map (fun t => nth d (shape t) 0%nat) ts in
          let outer := numel (take d (shape t0)) in
          Ok (Tensor
                (take d (shape t0) ++ fold_right Nat.add 0%nat sizes
                   :: drop (S d) (shape t0))
                (cat_data outer
                   (map (fun t => (numel (drop d (shape t)), data t)) ts)))
        else Raise (RuntimeError "sizes of tensors must match"))
  end.

(** Keep, of every block of [size * inner] elements, the [inner] elements
    at position [idx]. *)
Fixpoint select_data (outer size inner idx : nat) (d : list fl) : list fl :=
  match outer with
  | O => []
  | S o =>
      take inner (drop (idx * inner) d)
      ++ select_data o size inner idx (drop (size * inner) d)
  end.

(** [t.select(dim, idx)], i.e. [t[:, idx]] for [dim = 1] and
    [t[..., idx]] for [dim = -1]. *)
Definition select (dim idx : Z) (t : tensor) : result tensor :=
  rbind (norm_index dim (length (shape t))) (fun d =>
    let size := nth d (shape t) 0%nat in
    rbind (norm_index idx size) (fun i =>
      Ok (Tensor (take d (shape t) ++ drop (S d) (shape t))
            (select_data (numel (take d (shape t))) size
               (numel (drop (S d) (shape t))) i (data t))))).

(** Keep the first [keep] elements of every row of [size] elements. *)
Fixpoint narrow_data (outer size keep : nat) (d : list fl) : list fl :=
  match outer with
  | O => []
  | S o => take keep d ++ narrow_data o size keep (drop size d)
  end.

(** [t[..., :-1]] *)
Definition drop_last_column (t : tensor) : result tensor :=
  match reverse (shape t) with
  | [] => Raise (RuntimeError "too many indices")
  | size :: rest =>
      Ok (Tensor (reverse rest ++ [Nat.pred size])
            (narrow_data (numel rest) size (Nat.pred size) (data t)))
  end.

(** Element-wise binary operation on tensors of one shape (broadcasting of
    different shapes is not modelled and counts as a shape error). *)
Definition zip_tensor {A} (f : fl -> fl -> A) (a b : tensor) : result (list A) :=
  if list_nat_eqb (shape a) (shape b)
  then Ok (zip_with f (data a) (data b))
  else Raise (RuntimeError "shapes do not match").

(** [torch.mean(t)] over all elements; NaN for an empty tensor. *)
Definition mean (d : list fl) : fl := fdiv_nat (fsum d) (length d).

(** Sum over dimension [1] of a tensor seen as [outer x size x inner]. *)
Fixpoint column_sums (size inner : nat) (d : list fl) : list fl :=
  match size with
  | O => replicate inner fzero
  | S k => zip_with fadd (take inner d) (column_sums k inner (drop inner d))
  end.

Fixpoint mean_dim1_data (outer size inner : nat) (d : list fl) : list fl :=
  match outer with
  | O => []
  | S o =>
      map (fun x => fdiv_nat x size) (column_sums size inner d)
      ++ mean_dim1_data o size inner (drop (size * inner) d)
  end.

(** [torch.mean(t, 1)] *)
Definition mean_dim1 (t : tensor) : result tensor :=
  match shape t with
  | outer :: size :: rest =>
      Ok (Tensor (outer :: rest)
            (mean_dim1_data outer size (numel rest) (data t)))
  | _ => Raise (RuntimeError "dimension out of range")
  end.

(** [torch.nn.functional.l1_loss(a, b, reduction="none")] *)
Definition l1_loss (a b : tensor) : result tensor :=
  rbind (zip_tensor (fun x y => fabs (fsub x y)) a b) (fun d =>
    Ok (Tensor (shape a) d)).

(** ** Python containers passed to the embedding

    [visual_embedding] subscripts its arguments with string keys; the
    training loop passes mappings, the inference entry points pass lists. *)

Inductive pyobj : Type :=
  | PyDict (d : gmap string tensor)
  | PyList (l : list tensor).

(** [o[key]] for a string key *)
Definition getitem (o : pyobj) (key : string) : result tensor :=
  match o with
  | PyDict d =>
      match d !! key with
      | Some t => Ok t
      | None => Raise (KeyError key)
      end
  | PyList _ => Raise (TypeError "list indices must be integers or slices, not str")
  end.

(** [key in o]; a list of tensors holds no element equal to a string. *)
Definition contains_key (key : string) (o : pyobj) : bool :=
  match o with
  | PyDict d => bool_decide (is_Some (d !! key))
  | PyList _ => false
  end.

(** [needle in hay] for Python strings *)
Fixpoint str_contains (needle hay : string) : bool :=
  String.prefix needle hay
  || match hay with
     | EmptyString => false
     | String _ rest => str_contains needle rest
     end.

(** Sequence helpers of the list comprehensions. *)
Fixpoint mapM {A B} (f : A -> result B) (l : list A) : result (list B) :=
  match l with
  | [] => Ok []
  | x :: xs =>
      rbind (f x) (fun y => rbind (mapM f xs) (fun ys => Ok (y :: ys)))
  end.

(** One modality batch, as the training loop supplies it. *)
Record dataset_batch : Type := DatasetBatch {
  rgb_obs : pyobj;
  depth_obs : pyobj;
  robot_obs : tensor;
  actions : tensor;
  lang : option tensor;
  idx : tensor
}.

(** Values stored in the validation output mapping. *)
Inductive pyval : Type :=
  | VScalar (x : fl)
  | VTensor (t : tensor).

(** The sub-networks, named for the call trace. *)
Inductive net : Type :=
  | NVisionStatic
  | NVisionGripper
  | NTactile
  | NVisualGoal
  | NLanguageGoal
  | NPlanProposal
  | NPlanRecognition
  | NDecoderLoss
  | NDecoderLossAndAct
  | NDecoderAct.

#[global] Instance net_eq_dec : EqDecision net.
Proof. solve_decision. Defined.

(** ** The orchestrator *)

Section PlayLMP.

(** Trainable parameters, plan distributions and the random generator
    belong to the collaborators. *)
Variables (Params Dist Rng : Type).

(** [dist.sample()], [dist.rsample()] and [D.kl_divergence(p, q)] *)
Variable dist_sample : Dist -> Rng -> tensor * Rng.
Variable dist_rsample : Dist -> Rng -> tensor * Rng.
Variable kl_divergence : Dist -> Dist -> result tensor.

(** A forward pass reads the parameters and may raise on a shape error. *)
Definition encoder : Type := Params -> tensor -> result tensor.

Record ActionDecoder : Type := {
  loss : Params -> tensor -> tensor -> tensor -> tensor -> result fl;
  loss_and_act :
    Params -> tensor -> tensor -> tensor -> tensor -> result (fl * tensor);
  act : Params -> tensor -> tensor -> tensor -> result tensor
}.

(** The attributes fixed at construction. *)
Record PlayLMP : Type := {
  self_plan_proposal : Params -> tensor -> tensor -> result Dist;
  self_plan_recognition : Params -> tensor -> result Dist;
  self_vision_static : encoder;
  self_vision_gripper : option encoder;
  self_visual_goal : encoder;
  self_language_goal : option encoder;
  self_tactile_enc : option encoder;
  self_action_decoder : ActionDecoder
}.

(** What a call can read or change: the parameters, the two mutable
    attributes [kl_beta] and [modality_scope], the autograd mode, the
    random generator, and two logs (sub-network invocations with the
    autograd mode they ran in, and the metrics passed to [self.log]). *)
Record state : Type := State {
  params : Params;
  kl_beta : fl;
  modality_scope : string;
  grad_enabled : bool;
  rng : Rng;
  calls : list (net * bool);
  logged : list (string * fl)
}.

(** Computations: state in, state out, value or exception. *)
Definition M (A : Type) : Type := state -> state * result A.

Definition ret {A} (a : A) : M A := fun st => (st, Ok a).

Definition raise {A} (e : exn) : M A := fun st => (st, Raise e).

Definition bind {A B} (m : M A) (k : A -> M B) : M B :=
  fun st =>
    match m st with
    | (st', Ok a) => k a st'
    | (st', Raise e) => (st', Raise e)
    end.

Definition lift {A} (r : result A) : M A := fun st => (st, r).

Notation "'let*' x ':=' m 'in' k" := (bind m (fun x => k))
  (at level 10, x pattern, m at level 100, k at level 200).

(** Invoke sub-network [n]. *)
Definition call {A} (n : net) (f : Params -> result A) : M A :=
  fun st =>
    ({| params := params st; kl_beta := kl_beta st;
        modality_scope := modality_scope st;
        grad_enabled := grad_enabled st; rng := rng st;
        calls := calls st ++ [(n, grad_enabled st)];
        logged := logged st |},
     f (params st)).

(** Invoke an optional sub-network; calling [None] is a [TypeError]. *)
Definition call_opt {A} (n : net) (f : option (Params -> result A)) : M A :=
  match f with
  | Some g => call n g
  | None => raise (TypeError "'NoneType' object is not callable")
  end.

Definition draw (sampler : Dist -> Rng -> tensor * Rng) (d : Dist) : M tensor :=
  fun st =>
    let (x, r) := sampler d (rng st) in
    ({| params := params st; kl_beta := kl_beta st;
        modality_scope := modality_scope st;
        grad_enabled := grad_enabled st; rng := r;
        calls := calls st; logged := logged st |},
     Ok x).

(** [self.log(name, value, ...)] *)
Definition log (name : string) (v : fl) : M unit :=
  fun st =>
    ({| params := params st; kl_beta := kl_beta st;
        modality_scope := modality_scope st;
        grad_enabled := grad_enabled st; rng := rng st;
        calls := calls st; logged := logged st ++ [(name, v)] |},
     Ok tt).

Definition get_kl_beta : M fl := fun st => (st, Ok (kl_beta st)).

Definition get_modality_scope : M string :=
  fun st => (st, Ok (modality_scope st)).

Definition set_modality_scope (s : string) : M unit :=
  fun st =>
    ({| params := params st; kl_beta := kl_beta st;
        modality_scope := s;
        grad_enabled := grad_enabled st; rng := rng st;
        calls := calls st; logged := logged st |},
     Ok tt).

Definition set_grad_enabled (b : bool) (st : state) : state :=
  {| params := params st; kl_beta := kl_beta st;
     modality_scope := modality_scope st;
     grad_enabled := b; rng := rng st;
     calls := calls st; logged := logged st |}.

(** [with torch.no_grad(): body] -- the previous mode is restored on
    exit, also when [body] raises. *)
Definition no_grad {A} (body : M A) : M A :=
  fun st =>
    let (st', r) := body (set_grad_enabled false st) in
    (set_grad_enabled (grad_enabled st) st', r).

(** [set_kl_beta] *)
Definition set_kl_beta (b : fl) : M unit :=
  fun st =>
    ({| params := params st; kl_beta := b;
        modality_scope := modality_scope st;
        grad_enabled := grad_enabled st; rng := rng st;
        calls := calls st; logged := logged st |},
     Ok tt).

Variable self : PlayLMP.

(** *** visual_embedding *)

(** [o[key] if key in probe else None] *)
Definition getitem_if (o : pyobj) (key : string) (probe : pyobj)
  : result (option tensor) :=
  if contains_key key probe
  then rbind (getitem o key) (fun t => Ok (Some t))
  else Ok None.

(** Flatten batch and sequence of one camera stream and, when a depth
    tensor is given, append it as one more channel. *)
Definition flatten_stream (imgs : tensor) (depth : option tensor)
  : result (nat * nat * tensor) :=
  rbind (unpack5 imgs) (fun '(b, s, c, h, w) =>
  rbind (reshape [None; Some c; Some h; Some w] imgs) (fun flat =>
  match depth with
  | Some d =>
      rbind (unsqueeze 2 d) (fun d1 =>
      rbind (reshape [None; Some 1%nat; Some h; Some w] d1) (fun d2 =>
      rbind (cat 1 [flat; d2]) (fun fused => Ok (b, s, fused))))
  | None => Ok (b, s, flat)
  end)).

Definition visual_embedding (imgs depth_imgs : pyobj) : M tensor :=
  let* imgs_static := lift (getitem imgs "rgb_static") in
  let* imgs_gripper := lift (getitem_if imgs "rgb_gripper" imgs) in
  let* imgs_tactile := lift (getitem_if imgs "rgb_tactile" imgs) in
  let* depth_static := lift (getitem_if imgs "depth_static" depth_imgs) in
  let* depth_gripper := lift (getitem_if imgs "depth_gripper" depth_imgs) in
  let* (b, s, fused) := lift (flatten_stream imgs_static depth_static) in
  let* encoded := call NVisionStatic (fun p => self_vision_static self p fused) in
  let* encoded_imgs := lift (reshape [Some b; Some s; None] encoded) in
  let* encoded_imgs :=
    match imgs_gripper with
    | Some g =>
        let* (b, s, fused) := lift (flatten_stream g depth_gripper) in
        let* enc :=
          call_opt NVisionGripper
            (option_map (fun f p => f p fused) (self_vision_gripper self)) in
        let* enc := lift (reshape [Some b; Some s; None] enc) in
        lift (cat (-1) [encoded_imgs; enc])
    | None => ret encoded_imgs
    end in
  match imgs_tactile with
  | Some t =>
      let* (b, s, c, h, w) := lift (unpack5 t) in
      let* flat := lift (reshape [None; Some c; Some h; Some w] t) in
      let* enc :=
        call_opt NTactile
          (option_map (fun f p => f p flat) (self_tactile_enc self)) in
      let* enc := lift (reshape [Some b; Some s; None] enc) in
      lift (cat (-1) [encoded_imgs; enc])
  | None => ret encoded_imgs
  end.

(** *** perceptual_embedding *)
Definition perceptual_embedding (visual_emb obs : tensor) : M tensor :=
  lift (cat (-1) [visual_emb; obs]).

(** *** compute_kl_loss *)
Definition compute_kl_loss (pr_dist pp_dist : Dist) : M fl :=
  let* kl := lift (kl_divergence pr_dist pp_dist) in
  let kl_loss := mean (data kl) in
  let* beta := get_kl_beta in
  let kl_loss_scaled := fmul kl_loss beta in
  let* scope := get_modality_scope in
  let* _ := log ("train/kl_loss_" +:+ scope) kl_loss in
  let* _ := log ("train/kl_loss_scaled_" +:+ scope) kl_loss_scaled in
  let* _ := log "train/kl_beta" beta in
  ret kl_loss_scaled.

(** *** lmp_train *)
Definition lmp_train (perceptual_emb latent_goal train_acts : tensor)
  : M (fl * fl * fl * Dist * Dist) :=
  let* first := lift (select 1 0 perceptual_emb) in
  let* pp_dist :=
    call NPlanProposal (fun p => self_plan_proposal self p first latent_goal) in
  let* pr_dist :=
    call NPlanRecognition (fun p => self_plan_recognition self p perceptual_emb) in
  let* sampled_plan := draw dist_rsample pr_dist in
  let* action_loss :=
    call NDecoderLoss (fun p =>
      loss (self_action_decoder self) p sampled_plan perceptual_emb
        latent_goal train_acts) in
  let* kl_loss := compute_kl_loss pr_dist pp_dist in
  let total_loss := fadd action_loss kl_loss in
  ret (kl_loss, action_loss, total_loss, pp_dist, pr_dist).

(** *** lmp_val *)

(** [g[mask] = v] *)
Definition masked_assign (g : list fl) (mask : list bool) (v : fl) : list fl :=
  zip_with (fun x (b : bool) => if b then v else x) g mask.

(** Lines 197-201 (and 217-220): the predicted gripper column, made
    discrete in place. *)
Definition discretize_gripper (sample_act : tensor) : result tensor :=
  rbind (select (-1) (-1) sample_act) (fun gripper_discrete =>
    let m := map fgt0 (data gripper_discrete) in
    let d1 := masked_assign (data gripper_discrete) m fone in
    let d2 := masked_assign d1 (map negb m) fneg_one in
    Ok (Tensor (shape gripper_discrete) d2)).

Definition float_of_bool (b : bool) : fl := if b then fone else fzero.

(** [torch.mean((gt_gripper_act == gripper_discrete).float())] *)
Definition gripper_sr (gt_gripper_act gripper_discrete : tensor) : result fl :=
  rbind (zip_tensor feqb gt_gripper_act gripper_discrete) (fun eqs =>
    Ok (mean (map float_of_bool eqs))).

(** Mean absolute error over the non-gripper action dimensions. *)
Definition mae (sample_act acts : tensor) : result tensor :=
  rbind (drop_last_column sample_act) (fun a =>
  rbind (drop_last_column acts) (fun b =>
  rbind (l1_loss a b) mean_dim1)).

Record val_out : Type := ValOut {
  sampled_plan_pp : tensor;
  action_loss_pp : fl;
  sampled_plan_pr : tensor;
  action_loss_pr : fl;
  val_kl_loss : fl;
  mae_pp : tensor;
  mae_pr : tensor;
  gripper_sr_pp : fl;
  gripper_sr_pr : fl
}.

(** The predicted actions are tensors of their own: the in-place
    discretization of their gripper column does not write into [acts]. *)
Definition lmp_val (perceptual_emb latent_goal acts : tensor) : M val_out :=
  let* first := lift (select 1 0 perceptual_emb) in
  let* pp_dist :=
    call NPlanProposal (fun p => self_plan_proposal self p first latent_goal) in
  let* plan_pp := draw dist_sample pp_dist in
  let* (loss_pp, sample_act_pp) :=
    call NDecoderLossAndAct (fun p =>
      loss_and_act (self_action_decoder self) p plan_pp perceptual_emb
        latent_goal acts) in
  let* m_pp := lift (mae sample_act_pp acts) in
  let* gripper_discrete_pp := lift (discretize_gripper sample_act_pp) in
  let* gt_gripper_act := lift (select (-1) (-1) acts) in
  let* sr_pp := lift (gripper_sr gt_gripper_act gripper_discrete_pp) in
  let* pr_dist :=
    call NPlanRecognition (fun p => self_plan_recognition self p perceptual_emb) in
  let* plan_pr := draw dist_sample pr_dist in
  let* (loss_pr, sample_act_pr) :=
    call NDecoderLossAndAct (fun p =>
      loss_and_act (self_action_decoder self) p plan_pr perceptual_emb
        latent_goal acts) in
  let* m_pr := lift (mae sample_act_pr acts) in
  let* kl := compute_kl_loss pr_dist pp_dist in
  let* gripper_discrete_pr := lift (discretize_gripper sample_act_pr) in
  let* sr_pr := lift (gripper_sr gt_gripper_act gripper_discrete_pr) in
  ret {| sampled_plan_pp := plan_pp; action_loss_pp := loss_pp;
         sampled_plan_pr := plan_pr; action_loss_pr := loss_pr;
         val_kl_loss := kl; mae_pp := m_pp; mae_pr := m_pr;
         gripper_sr_pp := sr_pp; gripper_sr_pr := sr_pr |}.

(** *** The goal encoder of one modality (lines 268-272 and 333-337)

    [self.visual_goal(perceptual_emb[:, -1]) if "vis" in self.modality_scope
     else self.language_goal(dataset_batch["lang"])] *)
Definition latent_goal_of (perceptual_emb : tensor) (b : dataset_batch)
  : M tensor :=
  let* scope := get_modality_scope in
  if str_contains "vis" scope
  then
    let* last := lift (select 1 (-1) perceptual_emb) in
    call NVisualGoal (fun p => self_visual_goal self p last)
  else
    match lang b with
    | None => raise (KeyError "lang")
    | Some l =>
        call_opt NLanguageGoal
          (option_map (fun f p => f p l) (self_language_goal self))
    end.

(** *** training_step *)

(** Lines 265-267 (and 330-332): bind the loop variables and embed the
    modality's observations. *)
Definition embed_modality (item : string * dataset_batch) : M tensor :=
  let dataset := snd item in
  let* _ := set_modality_scope (fst item) in
  let* visual_emb := visual_embedding (rgb_obs dataset) (depth_obs dataset) in
  perceptual_embedding visual_emb (robot_obs dataset).

(** Lines 273-280: the losses of one modality, added to the
    accumulators [(kl, action, total)]. *)
Definition training_tail (acc : fl * fl * fl) (dataset : dataset_batch)
    (perceptual_emb latent_goal : tensor) : M (fl * fl * fl) :=
  let '(kl_loss, action_loss, total_loss) := acc in
  let* (kl, act_loss, mod_loss, _, _) :=
    lmp_train perceptual_emb latent_goal (actions dataset) in
  let* scope := get_modality_scope in
  let* _ := log ("train/action_loss_" +:+ scope) act_loss in
  let* _ := log ("train/total_loss_" +:+ scope) mod_loss in
  ret (fadd kl_loss kl, fadd action_loss act_loss, fadd total_loss mod_loss).

(** The loop body. *)
Definition training_iteration (acc : fl * fl * fl)
    (item : string * dataset_batch) : M (fl * fl * fl) :=
  let* perceptual_emb := embed_modality item in
  let* latent_goal := latent_goal_of perceptual_emb (snd item) in
  training_tail acc (snd item) perceptual_emb latent_goal.

Fixpoint training_loop (acc : fl * fl * fl)
    (items : list (string * dataset_batch)) : M (fl * fl * fl) :=
  match items with
  | [] => ret acc
  | item :: rest =>
      let* acc' := training_iteration acc item in
      training_loop acc' rest
  end.

(** [batch] is an insertion-ordered mapping; its items in order. *)
Definition training_step (batch : list (string * dataset_batch)) : M fl :=
  let* (kl_loss, action_loss, total_loss) :=
    training_loop (fzero, fzero, fzero) batch in
  let total_loss := fdiv_nat total_loss (length batch) in
  let kl_loss := fdiv_nat kl_loss (length batch) in
  let action_loss := fdiv_nat action_loss (length batch) in
  let* _ := log "train/kl_loss" kl_loss in
  let* _ := log "train/action_loss" action_loss in
  let* _ := log "train/total_loss" total_loss in
  ret total_loss.

(** *** validation_step *)

(** Lines 338-358: evaluate one modality and store its outputs. *)
Definition validation_tail (output : gmap string pyval)
    (dataset : dataset_batch) (perceptual_emb latent_goal : tensor)
  : M (gmap string pyval) :=
  let* r := lmp_val perceptual_emb latent_goal (actions dataset) in
  let* scope := get_modality_scope in
  let output := <["val_action_loss_pp_" +:+ scope := VScalar (action_loss_pp r)]> output in
  let output := <["sampled_plan_pp_" +:+ scope := VTensor (sampled_plan_pp r)]> output in
  let output := <["val_action_loss_pr_" +:+ scope := VScalar (action_loss_pr r)]> output in
  let output := <["sampled_plan_pr_" +:+ scope := VTensor (sampled_plan_pr r)]> output in
  let output := <["kl_loss_" +:+ scope := VScalar (val_kl_loss r)]> output in
  let output := <["mae_pp_" +:+ scope := VTensor (mae_pp r)]> output in
  let output := <["mae_pr_" +:+ scope := VTensor (mae_pr r)]> output in
  let output := <["gripper_sr_pp" +:+ scope := VScalar (gripper_sr_pp r)]> output in
  let output := <["gripper_sr_pr" +:+ scope := VScalar (gripper_sr_pr r)]> output in
  let output := <["idx_" +:+ scope := VTensor (idx dataset)]> output in
  ret output.

Definition validation_iteration (output : gmap string pyval)
    (item : string * dataset_batch) : M (gmap string pyval) :=
  let* perceptual_emb := embed_modality item in
  let* latent_goal := latent_goal_of perceptual_emb (snd item) in
  validation_tail output (snd item) perceptual_emb latent_goal.

Fixpoint validation_loop (output : gmap string pyval)
    (items : list (string * dataset_batch)) : M (gmap string pyval) :=
  match items with
  | [] => ret output
  | item :: rest =>
      let* output' := validation_iteration output item in
      validation_loop output' rest
  end.

Definition validation_step (batch : list (string * dataset_batch))
  : M (gmap string pyval) :=
  validation_loop ∅ batch.

(** *** Inference entry points *)

(** [[x.unsqueeze(0) for x in xs]] *)
Definition unsqueeze_all (xs : list tensor) : M (list tensor) :=
  lift (mapM (unsqueeze 0) xs).

(** The image and depth arguments are iterated over; whatever sequence is
    passed, the comprehensions build Python lists. *)
Definition predict_with_plan (curr_imgs curr_depths : list tensor)
    (curr_state latent_goal sampled_plan : tensor) : M tensor :=
  let* imgs := unsqueeze_all curr_imgs in
  let* depth_imgs := unsqueeze_all curr_depths in
  let* curr_state := lift (unsqueeze 0 curr_state) in
  no_grad (
    let* visual_emb := visual_embedding (PyList imgs) (PyList depth_imgs) in
    let* perceptual_emb := perceptual_embedding visual_emb curr_state in
    call NDecoderAct (fun p =>
      act (self_action_decoder self) p sampled_plan perceptual_emb latent_goal)).

(** [assert c] *)
Definition assert (c : bool) : M unit :=
  if c then ret tt else raise AssertionError.

(** [torch.cat([a, b]).unsqueeze(0)] *)
Definition pair_up (ab : tensor * tensor) : result tensor :=
  rbind (cat 0 [fst ab; snd ab]) (unsqueeze 0).

Definition get_pp_plan_vision
    (curr_imgs curr_depths goal_imgs goal_depths : list tensor)
    (curr_state goal_state : tensor) : M (tensor * tensor) :=
  let* _ := assert (Nat.eqb (length curr_imgs) (length goal_imgs)) in
  let* _ := assert (Nat.eqb (length curr_depths) (length goal_depths)) in
  let* imgs := lift (mapM pair_up (zip curr_imgs goal_imgs)) in
  let* depth_imgs := lift (mapM pair_up (zip curr_depths goal_depths)) in
  let* state := lift (pair_up (curr_state, goal_state)) in
  let* (sampled_plan, latent_goal) :=
    no_grad (
      let* visual_emb := visual_embedding (PyList imgs) (PyList depth_imgs) in
      let* perceptual_emb := perceptual_embedding visual_emb state in
      let* last := lift (select 1 (-1) perceptual_emb) in
      let* latent_goal :=
        call NVisualGoal (fun p => self_visual_goal self p last) in
      let* first := lift (select 1 0 perceptual_emb) in
      let* pp_dist :=
        call NPlanProposal (fun p =>
          self_plan_proposal self p first latent_goal) in
      let* sampled_plan := draw dist_sample pp_dist in
      ret (sampled_plan, latent_goal)) in
  ret (sampled_plan, latent_goal).

Definition get_pp_plan_lang (curr_imgs curr_depths : list tensor)
    (curr_state goal_lang : tensor) : M (tensor * tensor) :=
  let* imgs := unsqueeze_all curr_imgs in
  let* depth_imgs := unsqueeze_all curr_depths in
  let* curr_state := lift (unsqueeze 0 curr_state) in
  let* (sampled_plan, latent_goal) :=
    no_grad (
      let* visual_emb := visual_embedding (PyList imgs) (PyList depth_imgs) in
      let* perceptual_emb := perceptual_embedding visual_emb curr_state in
      let* latent_goal :=
        call_opt NLanguageGoal
          (option_map (fun f p => f p goal_lang) (self_language_goal self)) in
      let* first := lift (select 1 0 perceptual_emb) in
      let* pp_dist :=
        call NPlanProposal (fun p =>
          self_plan_proposal self p first latent_goal) in
      let* sampled_plan := draw dist_sample pp_dist in
      ret (sampled_plan, latent_goal)) in
  ret (sampled_plan, latent_goal).

(** *** Construction

    [hydra.utils.instantiate] builds each collaborator from its resolved
    configuration. *)
Variable LangConfig : Type.
Variable instantiate_plan_proposal :
  net_config -> Params -> tensor -> tensor -> result Dist.
Variable instantiate_plan_recognition :
  net_config -> Params -> tensor -> result Dist.
Variable instantiate_vision : vision_config -> encoder.
Variable instantiate_visual_goal : net_config -> encoder.
Variable instantiate_language_goal : LangConfig -> encoder.
Variable instantiate_tactile : tactile_config -> encoder.
Variable instantiate_decoder : net_config -> ActionDecoder.

(** [__init__]: resolve the input sizes, then build the sub-networks.
    Returns the configuration objects as the call leaves them.  The
    attributes set afterwards ([kl_beta], [modality_scope = "vis"], the
    optimizer configuration) are the initial [state] of a run. *)
Definition init (a : configs) (language_goal : option LangConfig)
  : configs * result PlayLMP :=
  match setup_input_sizes a with
  | (a', Raise e) => (a', Raise e)
  | (a', Ok _) =>
      (a', Ok {|
        self_plan_proposal := instantiate_plan_proposal (plan_proposal a');
        self_plan_recognition :=
          instantiate_plan_recognition (plan_recognition a');
        self_vision_static := instantiate_vision (vision_static a');
        self_vision_gripper :=
          option_map instantiate_vision (vision_gripper a');
        self_visual_goal := instantiate_visual_goal (visual_goal a');
        self_language_goal :=
          option_map instantiate_language_goal language_goal;
        self_tactile_enc := option_map instantiate_tactile (tactile a');
        self_action_decoder := instantiate_decoder (decoder a') |})
  end.

End PlayLMP.

Arguments params {Params Rng} s.
Arguments kl_beta {Params Rng} s.
Arguments modality_scope {Params Rng} s.
Arguments grad_enabled {Params Rng} s.
Arguments rng {Params Rng} s.
Arguments calls {Params Rng} s.
Arguments logged {Params Rng} s.
Arguments State {Params Rng}.
Arguments loss {Params} a.
Arguments loss_and_act {Params} a.
Arguments act {Params} a.
Arguments self_plan_proposal {Params Dist} p.
Arguments self_plan_recognition {Params Dist} p.
Arguments self_vision_static {Params Dist} p.
Arguments self_vision_gripper {Params Dist} p.
Arguments self_visual_goal {Params Dist} p.
Arguments self_language_goal {Params Dist} p.
Arguments self_tactile_enc {Params Dist} p.
Arguments self_action_decoder {Params Dist} p.
Arguments ret {Params Rng A} a st.
Arguments raise {Params Rng A} e st.
Arguments bind {Params Rng A B} m k st.
Arguments lift {Params Rng A} r st.
Arguments call {Params Rng A} n f st.
Arguments call_opt {Params Rng A} n f st.
Arguments draw {Params Dist Rng} sampler d st.
Arguments log {Params Rng} name v st.
Arguments get_kl_beta {Params Rng} st.
Arguments get_modality_scope {Params Rng} st.
Arguments set_modality_scope {Params Rng} s st.
Arguments set_grad_enabled {Params Rng} b st.
Arguments set_kl_beta {Params Rng} b st.
Arguments no_grad {Params Rng A} body st.
Arguments assert {Params Rng} c st.
Arguments unsqueeze_all {Params Rng} xs st.
Arguments visual_embedding {Params Dist Rng} self imgs depth_imgs st.
Arguments perceptual_embedding {Params Rng} visual_emb obs st.
Arguments compute_kl_loss {Params Dist Rng} kl_divergence pr_dist pp_dist st.
Arguments lmp_train {Params Dist Rng} dist_rsample kl_divergence self
  perceptual_emb latent_goal train_acts st.
Arguments lmp_val {Params Dist Rng} dist_sample kl_divergence self
  perceptual_emb latent_goal acts st.
Arguments latent_goal_of {Params Dist Rng} self perceptual_emb b st.
Arguments embed_modality {Params Dist Rng} self item st.
Arguments training_tail {Params Dist Rng} dist_rsample kl_divergence self
  acc dataset perceptual_emb latent_goal st.
Arguments training_iteration {Params Dist Rng} dist_rsample kl_divergence self
  acc item st.
Arguments training_loop {Params Dist Rng} dist_rsample kl_divergence self
  acc items st.
Arguments training_step {Params Dist Rng} dist_rsample kl_divergence self
  batch st.
Arguments validation_tail {Params Dist Rng} dist_sample kl_divergence self
  output dataset perceptual_emb latent_goal st.
Arguments validation_iteration {Params Dist Rng} dist_sample kl_divergence self
  output item st.
Arguments validation_loop {Params Dist Rng} dist_sample kl_divergence self
  output items st.
Arguments validation_step {Params Dist Rng} dist_sample kl_divergence self
  batch st.
Arguments predict_with_plan {Params Dist Rng} self curr_imgs curr_depths
  curr_state latent_goal sampled_plan st.
Arguments get_pp_plan_vision {Params Dist Rng} dist_sample self curr_imgs
  curr_depths goal_imgs goal_depths curr_state goal_state st.
Arguments get_pp_plan_lang {Params Dist Rng} dist_sample self curr_imgs
  curr_depths curr_state goal_lang st.
Arguments init {Params Dist LangConfig} instantiate_plan_proposal
  instantiate_plan_recognition instantiate_vision instantiate_visual_goal
  instantiate_language_goal instantiate_tactile instantiate_decoder a
  language_goal.

Notation "'let*' x ':=' m 'in' k" := (bind m (fun x => k))
  (at level 10, x pattern, m at level 100, k at level 200).

(** ** Reference formulations

    Definitions that follow the wording of the specification, against
    which the functions above are compared. *)

(** Threshold at zero: values above zero become [+1], all others [-1]. *)
Definition binarize (x : fl) : fl := if fgt0 x then fone else fneg_one.

Definition count_true (l : list bool) : nat := length (filter (fun b => b = true) l).

(** [c] out of [n]. *)
Definition fraction (c n : nat) : fl := fdiv_nat (fl_of_Z (Z.of_nat c)) n.

(** Fraction of positions where the ground truth, as given, equals the
    binarized prediction. *)
Definition match_fraction (gt pred : list fl) : fl :=
  fraction (count_true (zip_with (fun g p => feqb g (binarize p)) gt pred))
           (length (zip gt pred)).

(** Fraction of positions where ground truth and prediction agree after
    both are binarized. *)
Definition match_fraction_binarized (gt pred : list fl) : fl :=
  fraction
    (count_true (zip_with (fun g p => feqb (binarize g) (binarize p)) gt pred))
    (length (zip gt pred)).

(** A value equal to [+1] or to [-1]. *)
Definition plus_minus_one (g : fl) : Prop :=
  feqb g fone = true \/ feqb g fneg_one = true.

(** A value a signed 64-bit integer can hold. *)
Definition in_int64 (z : Z) : Prop := int64_min <= z <= int64_max.

(** Sum over half-open ranges of [end - start]. *)
Definition range_total (ranges : list (Z * Z)) : Z :=
  zsum (map (fun r => snd r - fst r) ranges).

Definition range_rows (ranges : list (Z * Z)) : list (list Z) :=
  map (fun r => [fst r; snd r]) ranges.

(** [hay] has [needle] as a contiguous substring. *)
Definition substring_of (needle hay : string) : Prop :=
  exists pre post : string, hay = pre +:+ needle +:+ post.

Section Reference.

Context {Params Dist Rng : Type}.
Variable dist_rsample : Dist -> Rng -> tensor * Rng.
Variable kl_divergence : Dist -> Dist -> result tensor.
Variable self : PlayLMP Params Dist.

(** The two loss terms of one modality (sections 4.4 and 4.6): the
    action-reconstruction loss of a plan sampled from the recognition
    distribution, and the batch-averaged KL divergence from the
    recognition to the proposal distribution. *)
Definition modality_terms (item : string * dataset_batch)
  : M Params Rng (fl * fl) :=
  let* perceptual_emb := embed_modality self item in
  let* latent_goal := latent_goal_of self perceptual_emb (snd item) in
  let* first := lift (select 1 0 perceptual_emb) in
  let* pp_dist :=
    call NPlanProposal (fun p => self_plan_proposal self p first latent_goal) in
  let* pr_dist :=
    call NPlanRecognition (fun p => self_plan_recognition self p perceptual_emb) in
  let* plan := draw dist_rsample pr_dist in
  let* action_loss :=
    call NDecoderLoss (fun p =>
      loss (self_action_decoder self) p plan perceptual_emb latent_goal
        (actions (snd item))) in
  let* kl := lift (kl_divergence pr_dist pp_dist) in
  ret (action_loss, mean (data kl)).

Fixpoint all_modality_terms (items : list (string * dataset_batch))
  : M Params Rng (list (fl * fl)) :=
  match items with
  | [] => ret []
  | item :: rest =>
      let* t := modality_terms item in
      let* ts := all_modality_terms rest in
      ret (t :: ts)
  end.

(** The loss of one modality: action loss plus [kl_beta] times mean KL. *)
Definition modality_loss (beta : fl) (t : fl * fl) : fl :=
  fadd (fst t) (fmul beta (snd t)).

(** Sum over modalities of (action loss + kl_beta * KL), divided by the
    number of modalities. *)
Definition weighted_total (beta : fl) (terms : list (fl * fl)) : fl :=
  fdiv_nat (fsum (map (modality_loss beta) terms)) (length terms).

Definition reference_total_loss (batch : list (string * dataset_batch))
  : M Params Rng fl :=
  let* beta := get_kl_beta in
  let* terms := all_modality_terms batch in
  ret (weighted_total beta terms).

End Reference.

(** ** A small concrete instance

    Collaborators simple enough to evaluate by hand: the parameters are one
    integer weight, a plan distribution is its mean, sampling returns the
    mean and advances a counter. *)

Module Demo.

Definition Params : Type := Z.
Definition Dist : Type := tensor.
Definition Rng : Type := nat.

Definition dist_sample (d : Dist) (r : Rng) : tensor * Rng := (d, S r).

Definition sq_diff (x y : fl) : fl := fmul (fsub x y) (fsub x y).

Definition kl_divergence (p q : Dist) : result tensor :=
  rbind (zip_tensor sq_diff p q) (fun d => Ok (Tensor (shape p) d)).

Fixpoint row_sums (n size : nat) (d : list fl) : list fl :=
  match n with
  | O => []
  | S k => fsum (take size d) :: row_sums k size (drop size d)
  end.

(** An encoder with one output feature: the weighted sum of each image. *)
Definition sum_encoder : encoder Params :=
  fun w t =>
    match shape t with
    | n :: rest =>
        Ok (Tensor [n; 1%nat]
              (map (fmul (fl_of_Z w)) (row_sums n (numel rest) (data t))))
    | [] => Raise (RuntimeError "expected a batch")
    end.

Definition identity_encoder : encoder Params := fun _ t => Ok t.

Definition scale (c : fl) (t : tensor) : tensor :=
  Tensor (shape t) (map (fmul c) (data t)).

(** A decoder whose loss is the mean of the plan and whose predicted
    actions are twice the ground truth (a new tensor). *)
Definition twice_decoder : ActionDecoder Params := {|
  loss := fun _ plan _ _ _ => Ok (mean (data plan));
  loss_and_act := fun _ plan _ _ acts =>
    Ok (mean (data plan), scale (Fin 2) acts);
  act := fun _ plan _ _ => Ok plan
|}.

Definition model : PlayLMP Params Dist := {|
  self_plan_proposal := fun _ first _ => Ok first;
  self_plan_recognition := fun _ emb => select 1 (-1) emb;
  self_vision_static := sum_encoder;
  self_vision_gripper := None;
  self_visual_goal := identity_encoder;
  self_language_goal := Some identity_encoder;
  self_tactile_enc := None;
  self_action_decoder := twice_decoder
|}.

Definition st0 : state Params Rng := {|
  params := 2;
  kl_beta := Fin (1 # 2);
  modality_scope := "vis";
  grad_enabled := true;
  rng := 0%nat;
  calls := [];
  logged := []
|}.

Definition ints (l : list Z) : list fl := map fl_of_Z l.

(** Two timesteps of a one-pixel, one-channel static camera. *)
Definition rgb : tensor := Tensor [1; 2; 1; 1; 1]%nat (ints [1; 3]).
Definition depth : tensor := Tensor [1; 2; 1; 1]%nat (ints [5; 7]).
Definition robot : tensor := Tensor [1; 2; 1]%nat (ints [4; 6]).

(** Two timesteps of a two-dimensional action; the gripper column holds
    [1/2] and [-1]. *)
Definition acts : tensor :=
  Tensor [1; 2; 2]%nat [Fin (3 # 10); Fin (1 # 2); Fin (7 # 10); Fin (-1)].

Definition acts_pm1 : tensor :=
  Tensor [1; 2; 2]%nat [Fin (3 # 10); Fin 1; Fin (7 # 10); Fin (-1)].

Definition instruction : tensor := Tensor [1; 2]%nat (ints [1; 1]).

Definition rgb_only : pyobj := PyDict {[ "rgb_static" := rgb ]}.
Definition depth_only : pyobj := PyDict {[ "depth_static" := depth ]}.
Definition no_depth : pyobj := PyDict ∅.

(** An image mapping that also has a "depth_static" entry of its own, and
    a depth mapping with another depth tensor. *)
Definition decoy : tensor := Tensor [1; 2; 1; 1]%nat (ints [10; 20]).
Definition rgb_and_decoy : pyobj :=
  PyDict (<["depth_static" := decoy]> {[ "rgb_static" := rgb ]}).
Definition other_depth : pyobj :=
  PyDict {[ "depth_static" := Tensor [1; 2; 1; 1]%nat (ints [0; 0]) ]}.

Definition vis_batch : dataset_batch := {|
  rgb_obs := rgb_only; depth_obs := no_depth; robot_obs := robot;
  actions := acts; lang := None; idx := Tensor [1%nat] (ints [0])
|}.

Definition lang_batch : dataset_batch := {|
  rgb_obs := rgb_only; depth_obs := no_depth;
  robot_obs := Tensor [1; 2; 1]%nat (ints [4; 8]);
  actions := acts; lang := Some instruction; idx := Tensor [1%nat] (ints [1])
|}.

(** A perceptual embedding of two timesteps and a latent goal. *)
Definition pemb : tensor := Tensor [1; 2; 2]%nat (ints [2; 4; 6; 6]).
Definition goal : tensor := Tensor [1; 2]%nat (ints [6; 6]).

Definition empty_val_out : val_out :=
  let e := Tensor [] [] in ValOut e NaN e NaN NaN e e NaN NaN.

Definition two_modalities : list (string * dataset_batch) :=
  [("vis", vis_batch); ("lang", lang_batch)].

(** One observation for the inference entry points. *)
Definition frame : tensor := Tensor [1; 1; 1; 1]%nat (ints [3]).
Definition frame_state : tensor := Tensor [1; 1]%nat (ints [6]).

Definition frame_depth : tensor := Tensor [1; 1; 1]%nat (ints [9]).

(** The visual-goal encoder applied directly to the perceptual embedding
    of the single observation [(frame, frame_state)], through the mapping
    interface of [visual_embedding]. *)
Definition single_observation_goal : M Params Rng tensor :=
  let* img := lift (unsqueeze 0 frame) in
  let* obs := lift (unsqueeze 0 frame_state) in
  let* visual_emb :=
    visual_embedding model (PyDict {[ "rgb_static" := img ]}) (PyDict ∅) in
  let* perceptual_emb := perceptual_embedding visual_emb obs in
  let* last := lift (select 1 (-1) perceptual_emb) in
  call NVisualGoal (fun p => self_visual_goal model p last).

Definition base_configs : configs := {|
  vision_static := VisionConfig 64 3;
  depth_static := Some (DepthConfig 1);
  vision_gripper := Some (VisionConfig 32 3);
  depth_gripper := Some (DepthConfig 1);
  plan_proposal := NetConfig 0 0;
  plan_recognition := NetConfig 0 0;
  visual_goal := NetConfig 0 0;
  decoder := NetConfig 0 0;
  proprio_state := ProprioConfig [[0; 3]; [3; 6]; [7; 8]];
  tactile := None
|}.

(** A gripper depth encoder without a gripper camera. *)
Definition depth_without_camera : configs := {|
  vision_static := VisionConfig 64 3;
  depth_static := None;
  vision_gripper := None;
  depth_gripper := Some (DepthConfig 1);
  plan_proposal := NetConfig 0 0;
  plan_recognition := NetConfig 0 0;
  visual_goal := NetConfig 0 0;
  decoder := NetConfig 0 0;
  proprio_state := ProprioConfig [[0; 3]; [3; 6]; [7; 8]];
  tactile := None
|}.

End Demo.

(** ** Effects of a computation *)

Section Effects.

Context {Params Dist Rng : Type}.
Variable self : PlayLMP Params Dist.

(** The visual-goal branch: the encoder applied to the last timestep. *)
Definition visual_goal_of_last (perceptual_emb : tensor) : M Params Rng tensor :=
  let* last := lift (select 1 (-1) perceptual_emb) in
  call NVisualGoal (fun p => self_visual_goal self p last).

(** The language-goal branch: the encoder applied to the batch's
    language field. *)
Definition language_goal_of_field (b : dataset_batch) : M Params Rng tensor :=
  match lang b with
  | None => raise (KeyError "lang")
  | Some l =>
      call_opt NLanguageGoal
        (option_map (fun f p => f p l) (self_language_goal self))
  end.

(** The sub-network invocations [tr] are all in [allowed] and ran in
    autograd mode [mode]. *)
Definition trace_within (allowed : net -> Prop) (mode : bool)
    (tr : list (net * bool)) : Prop :=
  Forall (fun c => allowed (fst c) /\ snd c = mode) tr.

(** The sub-networks of the visual embedding. *)
Definition is_visual_encoder (n : net) : Prop :=
  n = NVisionStatic \/ n = NVisionGripper \/ n = NTactile.

(** [m] leaves the parameters and the mutable attributes alone and
    invokes only sub-networks in [allowed], in the autograd mode it was
    started in. *)
Definition quiet (allowed : net -> Prop) {A} (m : M Params Rng A) : Prop :=
  forall st,
    let st' := fst (m st) in
    params st' = params st
    /\ kl_beta st' = kl_beta st
    /\ modality_scope st' = modality_scope st
    /\ grad_enabled st' = grad_enabled st
    /\ exists tr,
         calls st' = (calls st ++ tr)%list
         /\ trace_within allowed (grad_enabled st) tr.

(** What an inference entry point may do: the parameters are unchanged,
    and every sub-network it invokes is other than the plan-recognition
    network and runs with gradient tracking disabled. *)
Definition inference_only {A} (m : M Params Rng A) : Prop :=
  forall st,
    let st' := fst (m st) in
    params st' = params st
    /\ exists tr,
         calls st' = (calls st ++ tr)%list
         /\ trace_within (fun n => n <> NPlanRecognition) false tr.

(** Two states that agree on everything but the logged metrics, with
    KL weight [beta]. *)
Definition same_but_logs (beta : fl) (s1 s2 : state Params Rng) : Prop :=
  params s1 = params s2
  /\ kl_beta s1 = beta
  /\ kl_beta s2 = beta
  /\ modality_scope s1 = modality_scope s2
  /\ grad_enabled s1 = grad_enabled s2
  /\ rng s1 = rng s2
  /\ calls s1 = calls s2.

(** [m1] and [m2], started in such states, end in such states, raise the
    same exception or return values related by [R]. *)
Definition simulates (beta : fl) {A B} (R : A -> B -> Prop)
    (m1 : M Params Rng A) (m2 : M Params Rng B) : Prop :=
  forall s1 s2,
    same_but_logs beta s1 s2 ->
    match m1 s1, m2 s2 with
    | (s1', Ok a), (s2', Ok b) => same_but_logs beta s1' s2' /\ R a b
    | (s1', Raise e1), (s2', Raise e2) => same_but_logs beta s1' s2' /\ e1 = e2
    | _, _ => False
    end.

End Effects.

(** ** Further reference formulations *)

(** Declared feature width of the static encoder, plus the gripper
    encoder's and the tactile encoder's when they are configured. *)
Definition feature_total (a : configs) : Z :=
  vc_visual_features (vision_static a)
  + match vision_gripper a with
    | Some g => vc_visual_features g
    | None => 0
    end
  + match tactile a with
    | Some t => tc_visual_features t
    | None => 0
    end.

(** [st] after the sub-networks [ns] were invoked, in order, in the
    autograd mode of [st]. *)
Definition after_calls {Params Rng : Type} (st : state Params Rng)
    (ns : list net) : state Params Rng :=
  {| params := params st; kl_beta := kl_beta st;
     modality_scope := modality_scope st;
     grad_enabled := grad_enabled st; rng := rng st;
     calls := calls st ++ map (fun n => (n, grad_enabled st)) ns;
     logged := logged st |}.

(** The encoders a visual embedding of [imgs] runs: the static one, then
    the gripper and tactile ones for the streams that are present. *)
Definition invoked_encoders (imgs : pyobj) : list net :=
  NVisionStatic
  :: (if contains_key "rgb_gripper" imgs then [NVisionGripper] else [])
  ++ (if contains_key "rgb_tactile" imgs then [NTactile] else []).

(** [m] is a forward pass: it writes neither the trainable parameters
    nor [kl_beta], leaves the autograd mode as it found it, and runs every
    sub-network it invokes in that mode. *)
Definition forward_only {Params Rng A : Type} (m : M Params Rng A) : Prop :=
  forall st,
    let st' := fst (m st) in
    params st' = params st
    /\ kl_beta st' = kl_beta st
    /\ grad_enabled st' = grad_enabled st
    /\ exists tr,
         calls st' = (calls st ++ tr)%list
         /\ Forall (fun c => snd c = grad_enabled st) tr.

(** No restriction on the sub-networks invoked. *)
Definition any_net : net -> Prop := fun _ => True.

(** The keys validation_step writes for the modality [name]. *)
Definition validation_keys (name : string) : list string :=
  [ "val_action_loss_pp_" +:+ name; "sampled_plan_pp_" +:+ name;
    "val_action_loss_pr_" +:+ name; "sampled_plan_pr_" +:+ name;
    "kl_loss_" +:+ name; "mae_pp_" +:+ name; "mae_pr_" +:+ name;
    "gripper_sr_pp" +:+ name; "gripper_sr_pr" +:+ name; "idx_" +:+ name ].

(** The name of the last modality of a batch mapping, [d] if it is empty. *)
Definition last_modality (d : string) (batch : list (string * dataset_batch))
  : string :=
  default d (last (map fst batch)).

(** ** validation_epoch_end *)

(** A stored value as a tensor; a scalar is a tensor without dimensions. *)
Definition as_tensor (v : pyval) : tensor :=
  match v with
  | VScalar x => Tensor [] [x]
  | VTensor t => t
  end.

(** [x[key]] for one validation-step output *)
Definition output_item (key : string) (x : gmap string pyval) : result tensor :=
  match x !! key with
  | Some v => Ok (as_tensor v)
  | None => Raise (KeyError key)
  end.

(** [[x[key] for x in validation_step_outputs]] *)
Definition collect (key : string) (outputs : list (gmap string pyval))
  : result (list tensor) :=
  mapM (output_item key) outputs.

(** [torch.stack(ts)] *)
Definition stack (ts : list tensor) : result tensor :=
  match ts with
  | [] => Raise (RuntimeError "stack expects a non-empty TensorList")
  | t0 :: _ =>
      if forallb (fun t => list_nat_eqb (shape t) (shape t0)) ts
      then Ok (Tensor (length ts :: shape t0) (concat (map data ts)))
      else Raise (RuntimeError "stack expects each tensor to be equal size")
  end.

(** [torch.stack([x[key] for x in outputs]).mean()] *)
Definition stacked_mean (key : string) (outputs : list (gmap string pyval))
  : result fl :=
  rbind (collect key outputs) (fun ts =>
  rbind (stack ts) (fun t => Ok (mean (data t)))).

(** [torch.cat([x[key] for x in outputs])] *)
Definition concatenated (key : string) (outputs : list (gmap string pyval))
  : result tensor :=
  rbind (collect key outputs) (cat 0).

(** Keep the elements [lo <= i < hi] of every row of [size] elements. *)
Fixpoint slice_data (outer size lo hi : nat) (d : list fl) : list fl :=
  match outer with
  | O => []
  | S o =>
      take (hi - lo) (drop lo (take size d))
      ++ slice_data o size lo hi (drop size d)
  end.

(** [t[..., lo:hi]]; the bounds are clamped to the size of the last
    dimension. *)
Definition slice_last (lo hi : nat) (t : tensor) : result tensor :=
  match reverse (shape t) with
  | [] => Raise (RuntimeError "too many indices")
  | size :: rest =>
      Ok (Tensor (reverse rest ++ [(Nat.min hi size - Nat.min lo size)%nat])%list
            (slice_data (numel rest) size lo hi (data t)))
  end.

(** The eleven metrics, of one modality or accumulated. *)
Record epoch_metrics : Type := EpochMetrics {
  e_act_loss_pr : fl;
  e_act_loss_pp : fl;
  e_kl_loss : fl;
  e_total_mae_pr : fl;
  e_total_mae_pp : fl;
  e_pos_mae_pp : fl;
  e_pos_mae_pr : fl;
  e_orn_mae_pp : fl;
  e_orn_mae_pr : fl;
  e_grip_sr_pr : fl;
  e_grip_sr_pp : fl
}.

Definition metrics_zero : epoch_metrics :=
  EpochMetrics fzero fzero fzero fzero fzero fzero fzero fzero fzero fzero fzero.

Definition metrics_add (a m : epoch_metrics) : epoch_metrics := {|
  e_act_loss_pr := fadd (e_act_loss_pr a) (e_act_loss_pr m);
  e_act_loss_pp := fadd (e_act_loss_pp a) (e_act_loss_pp m);
  e_kl_loss := fadd (e_kl_loss a) (e_kl_loss m);
  e_total_mae_pr := fadd (e_total_mae_pr a) (e_total_mae_pr m);
  e_total_mae_pp := fadd (e_total_mae_pp a) (e_total_mae_pp m);
  e_pos_mae_pp := fadd (e_pos_mae_pp a) (e_pos_mae_pp m);
  e_pos_mae_pr := fadd (e_pos_mae_pr a) (e_pos_mae_pr m);
  e_orn_mae_pp := fadd (e_orn_mae_pp a) (e_orn_mae_pp m);
  e_orn_mae_pr := fadd (e_orn_mae_pr a) (e_orn_mae_pr m);
  e_grip_sr_pr := fadd (e_grip_sr_pr a) (e_grip_sr_pr m);
  e_grip_sr_pp := fadd (e_grip_sr_pp a) (e_grip_sr_pp m)
|}.

(** Lines 375-387: the epoch-level metrics of one modality. *)
Definition modality_metrics (outputs : list (gmap string pyval))
    (modality : string) : result epoch_metrics :=
  rbind (stacked_mean ("val_action_loss_pp_" +:+ modality) outputs) (fun act_loss_pp =>
  rbind (stacked_mean ("val_action_loss_pr_" +:+ modality) outputs) (fun act_loss_pr =>
  rbind (stacked_mean ("kl_loss_" +:+ modality) outputs) (fun kl_loss =>
  rbind (concatenated ("mae_pp_" +:+ modality) outputs) (fun m_pp =>
  rbind (concatenated ("mae_pr_" +:+ modality) outputs) (fun m_pr =>
  let pr_mae_mean := mean (data m_pr) in
  let pp_mae_mean := mean (data m_pp) in
  rbind (slice_last 0 3 m_pp) (fun pos_pp =>
  rbind (slice_last 0 3 m_pr) (fun pos_pr =>
  rbind (slice_last 3 6 m_pp) (fun orn_pp =>
  rbind (slice_last 3 6 m_pr) (fun orn_pr =>
  rbind (stacked_mean ("gripper_sr_pp" +:+ modality) outputs) (fun grip_sr_pp =>
  rbind (stacked_mean ("gripper_sr_pr" +:+ modality) outputs) (fun grip_sr_pr =>
  Ok {| e_act_loss_pr := act_loss_pr;
        e_act_loss_pp := act_loss_pp;
        e_kl_loss := kl_loss;
        e_total_mae_pr := pr_mae_mean;
        e_total_mae_pp := pp_mae_mean;
        e_pos_mae_pp := mean (data pos_pp);
        e_pos_mae_pr := mean (data pos_pr);
        e_orn_mae_pp := mean (data orn_pp);
        e_orn_mae_pr := mean (data orn_pr);
        e_grip_sr_pr := grip_sr_pr;
        e_grip_sr_pp := grip_sr_pp |}))))))))))).

Section ValidationEpochEnd.

Context {Params Rng : Type}.

(** Lines 400-410: the per-modality metrics sent to the logger. *)
Definition log_modality (modality : string) (m : epoch_metrics) : M Params Rng unit :=
  let* _ := log ("val_act/" +:+ modality +:+ "_act_loss_pp") (e_act_loss_pp m) in
  let* _ := log ("val_act/" +:+ modality +:+ "_act_loss_pr") (e_act_loss_pr m) in
  let* _ := log ("val_total_mae/" +:+ modality +:+ "_total_mae_pr") (e_total_mae_pr m) in
  let* _ := log ("val_total_mae/" +:+ modality +:+ "_total_mae_pp") (e_total_mae_pp m) in
  let* _ := log ("val_pos_mae/" +:+ modality +:+ "_pos_mae_pr") (e_pos_mae_pr m) in
  let* _ := log ("val_pos_mae/" +:+ modality +:+ "_pos_mae_pp") (e_pos_mae_pp m) in
  let* _ := log ("val_orn_mae/" +:+ modality +:+ "_orn_mae_pr") (e_orn_mae_pr m) in
  let* _ := log ("val_orn_mae/" +:+ modality +:+ "_orn_mae_pp") (e_orn_mae_pp m) in
  let* _ := log ("val_grip/" +:+ modality +:+ "_grip_sr_pr") (e_grip_sr_pr m) in
  let* _ := log ("val_grip/" +:+ modality +:+ "_grip_sr_pp") (e_grip_sr_pp m) in
  log ("val_kl/" +:+ modality +:+ "_kl_loss") (e_kl_loss m).

(** Lines 411-429: the accumulated metrics divided by the number of
    modalities. *)
Definition log_aggregate (n : nat) (a : epoch_metrics) : M Params Rng unit :=
  let* _ := log "val_act/action_loss_pp" (fdiv_nat (e_act_loss_pp a) n) in
  let* _ := log "val_act/action_loss_pr" (fdiv_nat (e_act_loss_pr a) n) in
  let* _ := log "val_kl/kl_loss" (fdiv_nat (e_kl_loss a) n) in
  let* _ := log "val_total_mae/total_mae_pr" (fdiv_nat (e_total_mae_pr a) n) in
  let* _ := log "val_total_mae/total_mae_pp" (fdiv_nat (e_total_mae_pp a) n) in
  let* _ := log "val_pos_mae/pos_mae_pr" (fdiv_nat (e_pos_mae_pr a) n) in
  let* _ := log "val_pos_mae/pos_mae_pp" (fdiv_nat (e_pos_mae_pp a) n) in
  let* _ := log "val_orn_mae/orn_mae_pr" (fdiv_nat (e_orn_mae_pr a) n) in
  let* _ := log "val_orn_mae/orn_mae_pp" (fdiv_nat (e_orn_mae_pp a) n) in
  let* _ := log "val_grip/grip_sr_pr" (fdiv_nat (e_grip_sr_pr a) n) in
  log "val_grip/grip_sr_pp" (fdiv_nat (e_grip_sr_pp a) n).

Fixpoint epoch_loop (outputs : list (gmap string pyval))
    (acc : epoch_metrics) (mods : list string) : M Params Rng epoch_metrics :=
  match mods with
  | [] => ret acc
  | modality :: rest =>
      let* m := lift (modality_metrics outputs modality) in
      let* _ := log_modality modality m in
      epoch_loop outputs (metrics_add acc m) rest
  end.

(** [modalities] is [self.trainer.datamodule.modalities]. *)
Definition validation_epoch_end (modalities : list string)
    (validation_step_outputs : list (gmap string pyval)) : M Params Rng unit :=
  let* totals := epoch_loop validation_step_outputs metrics_zero modalities in
  log_aggregate (length modalities) totals.

End ValidationEpochEnd.

(** The keys of [validation_keys] that validation_epoch_end reads. *)
Definition aggregated_keys (name : string) : list string :=
  [ "val_action_loss_pp_" +:+ name; "val_action_loss_pr_" +:+ name;
    "kl_loss_" +:+ name; "mae_pp_" +:+ name; "mae_pr_" +:+ name;
    "gripper_sr_pp" +:+ name; "gripper_sr_pr" +:+ name ].

(** A result that is a value or an error raised by a tensor operation
    (shape or index errors, all modelled as [RuntimeError]). *)
Definition ok_or_shape_error {A} (r : result A) : Prop :=
  match r with
  | Ok _ => True
  | Raise (RuntimeError _) => True
  | Raise _ => False
  end.

(** Unweighted mean over [modalities] of the mean over all validation
    steps of what is stored under [prefix] followed by the modality's name. *)
Definition mean_over_modalities (prefix : string) (modalities : list string)
    (stored : string -> fl) : fl :=
  fdiv_nat (fsum (map (fun m => stored (prefix +:+ m)) modalities))
           (length modalities).

(** Mean over all elements stored under [key] in the step outputs. *)
Definition stored_mean (key : string) (outputs : list (gmap string pyval)) : fl :=
  mean (concat (map (fun x => from_option (fun v => data (as_tensor v)) [] (x !! key))
                  outputs)).

(** ** Further concrete instances *)

Module Cases.

(** A one-channel static camera with a one-channel depth encoder. *)
Definition grayscale_configs : configs := {|
  vision_static := VisionConfig 64 1;
  depth_static := Some (DepthConfig 1);
  vision_gripper := None;
  depth_gripper := None;
  plan_proposal := NetConfig 0 0;
  plan_recognition := NetConfig 0 0;
  visual_goal := NetConfig 0 0;
  decoder := NetConfig 0 0;
  proprio_state := ProprioConfig [[0; 3]; [3; 6]; [7; 8]];
  tactile := Some (TactileConfig 16)
|}.

(** A model with gripper and tactile encoders, and observations of all
    three cameras. *)
Definition full_model : PlayLMP Demo.Params Demo.Dist := {|
  self_plan_proposal := self_plan_proposal Demo.model;
  self_plan_recognition := self_plan_recognition Demo.model;
  self_vision_static := Demo.sum_encoder;
  self_vision_gripper := Some Demo.sum_encoder;
  self_visual_goal := Demo.identity_encoder;
  self_language_goal := None;
  self_tactile_enc := Some Demo.sum_encoder;
  self_action_decoder := Demo.twice_decoder
|}.

Definition all_streams : pyobj :=
  PyDict (<["rgb_tactile" := Demo.rgb]>
            (<["rgb_gripper" := Demo.rgb]> {[ "rgb_static" := Demo.rgb ]})).

Definition all_streams_run : state Demo.Params Demo.Rng * result tensor :=
  visual_embedding full_model all_streams Demo.no_depth Demo.st0.

Definition val_step_run
  : state Demo.Params Demo.Rng * result (gmap string pyval) :=
  validation_step Demo.dist_sample Demo.kl_divergence Demo.model
    Demo.two_modalities Demo.st0.

Definition val_step_out : gmap string pyval := from_ok ∅ (snd val_step_run).

(** The epoch end of two identical validation steps. *)
Definition epoch_run : state Demo.Params Demo.Rng * result unit :=
  validation_epoch_end ["vis"; "lang"] [val_step_out; val_step_out] Demo.st0.

(** A decoder whose predicted actions depend on the plan it is given:
    the ground truth shifted by six minus the mean of the plan. *)
Definition shift (c : fl) (t : tensor) : tensor :=
  Tensor (shape t) (map (fadd c) (data t)).

Definition shifting_decoder : ActionDecoder Demo.Params := {|
  loss := fun _ plan _ _ _ => Ok (mean (data plan));
  loss_and_act := fun _ plan _ _ acts =>
    Ok (mean (data plan), shift (fsub (Fin 6) (mean (data plan))) acts);
  act := fun _ plan _ _ => Ok plan
|}.

(** [Demo.model] with that decoder: on [Demo.pemb] the proposal plan has
    mean 3 and the recognition plan has mean 6, so the proposal branch
    predicts the ground truth plus 3 and the recognition branch predicts
    the ground truth itself. *)
Definition branching_model : PlayLMP Demo.Params Demo.Dist := {|
  self_plan_proposal := self_plan_proposal Demo.model;
  self_plan_recognition := self_plan_recognition Demo.model;
  self_vision_static := Demo.sum_encoder;
  self_vision_gripper := None;
  self_visual_goal := Demo.identity_encoder;
  self_language_goal := Some Demo.identity_encoder;
  self_tactile_enc := None;
  self_action_decoder := shifting_decoder
|}.

(** One validation evaluation, with ground truth [Demo.acts]. *)
Definition branching_run : state Demo.Params Demo.Rng * result val_out :=
  lmp_val Demo.dist_sample Demo.kl_divergence branching_model
    Demo.pemb Demo.goal Demo.acts Demo.st0.

Definition branching_result : val_out :=
  from_ok Demo.empty_val_out (snd branching_run).

(** The same evaluation with ground truth [Demo.acts_pm1], whose gripper
    column holds only [+1] and [-1]. *)
Definition branching_run_pm1 : state Demo.Params Demo.Rng * result val_out :=
  lmp_val Demo.dist_sample Demo.kl_divergence branching_model
    Demo.pemb Demo.goal Demo.acts_pm1 Demo.st0.

Definition branching_result_pm1 : val_out :=
  from_ok Demo.empty_val_out (snd branching_run_pm1).

(** One keep_indices range from [-2^62] to [2^62]. *)
Definition wide_range_configs : configs := {|
  vision_static := VisionConfig 64 3;
  depth_static := None;
  vision_gripper := None;
  depth_gripper := None;
  plan_proposal := NetConfig 0 0;
  plan_recognition := NetConfig 0 0;
  visual_goal := NetConfig 0 0;
  decoder := NetConfig 0 0;
  proprio_state := ProprioConfig [[- 2 ^ 62; 2 ^ 62]];
  tactile := None
|}.

End Cases.

(** * Properties *)

(** ** Input-size resolution *)

Lemma rectangular_range_rows (ranges : list (Z * Z)) :
  rectangular (range_rows ranges) = true.
Proof.
  destruct ranges as [|r rest]; [reflexivity|].
  cbn [range_rows map rectangular].
  apply forallb_forall. intros row Hin.
  apply in_map_iff in Hin as [r' [<- _]]. reflexivity.
Qed.

Lemma wrap_int64_id (z : Z) : in_int64 z -> wrap_int64 z = z.
Proof.
  unfold in_int64, int64_min, int64_max, wrap_int64. intros H.
  rewrite Z.mod_small; lia.
Qed.

Lemma wrap_int64_add_l (a b : Z) :
  wrap_int64 (wrap_int64 a + b) = wrap_int64 (a + b).
Proof.
  unfold wrap_int64. f_equal.
  replace ((a + 2 ^ 63) mod 2 ^ 64 - 2 ^ 63 + b + 2 ^ 63)
    with ((a + 2 ^ 63) mod 2 ^ 64 + b) by lia.
  rewrite Zplus_mod_idemp_l. f_equal. lia.
Qed.

Lemma wrap_int64_add_r (a b : Z) :
  wrap_int64 (a + wrap_int64 b) = wrap_int64 (a + b).
Proof.
  rewrite (Z.add_comm a (wrap_int64 b)), wrap_int64_add_l.
  f_equal. lia.
Qed.

(** Accumulating wrapped terms with wrap-around gives the wrapped exact sum. *)
Lemma np_sum_int64 (l : list Z) (acc : Z) :
  fold_left (fun acc x => np_wrap Int64 (acc + x)) (map wrap_int64 l)
    (wrap_int64 acc)
  = wrap_int64 (acc + zsum l).
Proof.
  revert acc. induction l as [|x l IH]; intros acc.
  - cbn. f_equal. lia.
  - cbn [map fold_left np_wrap zsum fold_right].
    rewrite wrap_int64_add_l, wrap_int64_add_r, IH.
    f_equal. unfold zsum. lia.
Qed.

Lemma range_rows_diffs (d : np_dtype) (ranges : list (Z * Z)) :
  concat (map (np_diff_as d) (range_rows ranges))
  = map (np_wrap d) (map (fun r => snd r - fst r) ranges).
Proof.
  unfold range_rows.
  induction ranges as [|[s e] rest IH]; [reflexivity|].
  cbn [map concat np_diff_as np_diff fst snd app]. rewrite <- IH. reflexivity.
Qed.

Lemma range_rows_int64 (ranges : list (Z * Z)) :
  Forall (fun r => in_int64 (fst r) /\ in_int64 (snd r)) ranges ->
  dtype_of (range_rows ranges) = Int64.
Proof.
  intros Hall. unfold dtype_of.
  assert (H : forallb (forallb fits_int64) (range_rows ranges) = true).
  { unfold range_rows.
    induction Hall as [|[s e] rest [Hs He] _ IH]; [reflexivity|].
    cbn [map forallb fst snd] in *. rewrite IH.
    unfold in_int64 in Hs, He. unfold fits_int64.
    rewrite !(proj2 (Z.leb_le _ _)) by lia. reflexivity. }
  rewrite H. reflexivity.
Qed.

(** With all bounds in the int64 range, line 85 computes the sum of
    [end - start] wrapped around to 64 signed bits. *)
Lemma compute_n_state_obs_ranges (ranges : list (Z * Z)) :
  Forall (fun r => in_int64 (fst r) /\ in_int64 (snd r)) ranges ->
  compute_n_state_obs (range_rows ranges)
  = Ok (wrap_int64 (range_total ranges)).
Proof.
  intros Hall. unfold compute_n_state_obs.
  rewrite rectangular_range_rows, (range_rows_int64 _ Hall). cbn zeta.
  rewrite range_rows_diffs. unfold np_sum_as. cbn [np_wrap].
  change 0 with (wrap_int64 0) at 1.
  rewrite np_sum_int64. reflexivity.
Qed.

(** C6 (amended): for keep_indices given as a list of [start, end] ranges
    whose bounds and whose sum of (end - start) fit in signed 64-bit
    integers, setup_input_sizes writes the sum over ranges of
    (end - start) as n_state_obs into the plan-proposal, plan-recognition,
    visual-goal and decoder configurations. *)
Theorem setup_writes_n_state_obs (a : configs) (ranges : list (Z * Z)) :
  keep_indices (proprio_state a) = range_rows ranges ->
  Forall (fun r => in_int64 (fst r) /\ in_int64 (snd r)) ranges ->
  in_int64 (range_total ranges) ->
  let a' := fst (setup_input_sizes a) in
  n_state_obs (plan_proposal a') = range_total ranges
  /\ n_state_obs (plan_recognition a') = range_total ranges
  /\ n_state_obs (visual_goal a') = range_total ranges
  /\ n_state_obs (decoder a') = range_total ranges.
Proof.
  intros Hk Hall Htotal. unfold setup_input_sizes.
  rewrite Hk, (compute_n_state_obs_ranges _ Hall), (wrap_int64_id _ Htotal).
  cbn zeta.
  destruct (depth_gripper a) as [dg|], (vision_gripper a) as [g|]; cbn;
    repeat (match goal with |- context [if ?c then _ else _] => destruct c end; cbn);
    auto.
Qed.

(** The ranges [[0,3],[3,6],[7,8]] yield 7. *)
Lemma setup_writes_n_state_obs_example :
  keep_indices (proprio_state Demo.base_configs)
    = range_rows [(0, 3); (3, 6); (7, 8)]
  /\ Forall (fun r => in_int64 (fst r) /\ in_int64 (snd r))
       [(0, 3); (3, 6); (7, 8)]
  /\ in_int64 (range_total [(0, 3); (3, 6); (7, 8)])
  /\ n_state_obs (plan_proposal (fst (setup_input_sizes Demo.base_configs))) = 7
  /\ n_state_obs (decoder (fst (setup_input_sizes Demo.base_configs))) = 7.
Proof.
  assert (Hall : Forall (fun r => in_int64 (fst r) /\ in_int64 (snd r))
                   [(0, 3); (3, 6); (7, 8)]).
  { repeat constructor; vm_compute; discriminate. }
  assert (Htotal : in_int64 (range_total [(0, 3); (3, 6); (7, 8)])).
  { split; vm_compute; discriminate. }
  split; [reflexivity|]. split; [exact Hall|]. split; [exact Htotal|].
  pose proof (setup_writes_n_state_obs Demo.base_configs
                [(0, 3); (3, 6); (7, 8)] eq_refl Hall Htotal)
    as (H1 & _ & _ & H4).
  split; [exact H1 | exact H4].
Defined.

(** C6 as stated fails: for the single range from -2^62 to 2^62 the sum of
    (end - start) is 2^63, but the difference is taken in 64-bit signed
    integers and wraps around, so setup_input_sizes completes and writes
    -2^63. *)
Lemma setup_n_state_obs_wraps_around :
  keep_indices (proprio_state Cases.wide_range_configs)
    = range_rows [(- 2 ^ 62, 2 ^ 62)]
  /\ range_total [(- 2 ^ 62, 2 ^ 62)] = 2 ^ 63
  /\ snd (setup_input_sizes Cases.wide_range_configs) = Ok tt
  /\ n_state_obs (plan_proposal (fst (setup_input_sizes Cases.wide_range_configs)))
     = - 2 ^ 63
  /\ n_state_obs (decoder (fst (setup_input_sizes Cases.wide_range_configs)))
     = - 2 ^ 63
  /\ n_state_obs (plan_proposal (fst (setup_input_sizes Cases.wide_range_configs)))
     <> range_total [(- 2 ^ 62, 2 ^ 62)].
Proof.
  repeat split; try (vm_compute; reflexivity). vm_compute. discriminate.
Qed.

(** The resolution step does not touch [keep_indices]. *)
Lemma setup_keeps_proprio_state (a : configs) :
  proprio_state (fst (setup_input_sizes a)) = proprio_state a.
Proof.
  unfold setup_input_sizes.
  destruct (compute_n_state_obs _); [|reflexivity]. cbn zeta.
  destruct (depth_gripper a), (vision_gripper a); cbn;
    repeat (match goal with |- context [if ?c then _ else _] => destruct c end; cbn);
    reflexivity.
Qed.

Ltac split_channel_tests :=
  repeat (match goal with
          | |- context [Z.ltb ?x ?y] => destruct (Z.ltb_spec x y)
          end; cbn in *);
  try reflexivity; try lia.

(** C8: a second invocation of setup_input_sizes on the same configuration
    objects adds no further channels: for the static and for the gripper
    vision encoder, if its channel count starts at the RGB-only default 3
    and its paired depth encoder has at least one channel, the channel
    count after two invocations equals the count after one. *)
Theorem setup_no_double_increment (a : configs) :
  (vc_num_c (vision_static a) = 3 ->
   (exists d, depth_static a = Some d /\ 1 <= dc_num_c d) ->
   vc_num_c (vision_static (fst (setup_twice a)))
   = vc_num_c (vision_static (fst (setup_input_sizes a))))
  /\
  (forall g, vision_gripper a = Some g -> vc_num_c g = 3 ->
   (exists d, depth_gripper a = Some d /\ 1 <= dc_num_c d) ->
   option_map vc_num_c (vision_gripper (fst (setup_twice a)))
   = option_map vc_num_c (vision_gripper (fst (setup_input_sizes a)))).
Proof.
  unfold setup_twice.
  pose proof (setup_keeps_proprio_state a) as Hk.
  split.
  - intros H3 (d & Hd & Hpos).
    unfold setup_input_sizes at 1. rewrite Hk.
    unfold setup_input_sizes.
    destruct (compute_n_state_obs _); [|reflexivity]. cbn zeta.
    rewrite Hd.
    destruct (depth_gripper a) as [dg|], (vision_gripper a) as [g|];
      cbn; rewrite ?Hd, ?H3; cbn; split_channel_tests.
  - intros g Hg H3 (d & Hd & Hpos).
    unfold setup_input_sizes at 1. rewrite Hk.
    unfold setup_input_sizes.
    destruct (compute_n_state_obs _); [|reflexivity]. cbn zeta.
    rewrite Hd, Hg.
    destruct (depth_static a) as [ds|];
      cbn; rewrite ?H3; cbn; split_channel_tests.
Qed.

Lemma setup_no_double_increment_example :
  vc_num_c (vision_static (fst (setup_twice Demo.base_configs))) = 4
  /\ option_map vc_num_c (vision_gripper (fst (setup_twice Demo.base_configs)))
     = Some 4.
Proof.
  destruct (setup_no_double_increment Demo.base_configs) as [Hs Hg].
  split.
  - rewrite Hs; [reflexivity | reflexivity |].
    exists (DepthConfig 1). split; [reflexivity | cbn; lia].
  - rewrite (Hg (VisionConfig 32 3)); [reflexivity | reflexivity | reflexivity |].
    exists (DepthConfig 1). split; [reflexivity | cbn; lia].
Defined.

(** C10: with a gripper depth-encoder configuration but no gripper
    vision-encoder configuration, setup_input_sizes raises instead of
    skipping the gripper branch -- the AttributeError of reading [num_c]
    on the absent configuration whenever [keep_indices] is well formed --
    and the constructor, which calls it first, does not complete. *)
Theorem setup_raises_without_gripper_camera
    {Params Dist LangConfig : Type}
    (ipp : net_config -> Params -> tensor -> tensor -> result Dist)
    (ipr : net_config -> Params -> tensor -> result Dist)
    (ivision : vision_config -> encoder Params)
    (igoal : net_config -> encoder Params)
    (ilang : LangConfig -> encoder Params)
    (itactile : tactile_config -> encoder Params)
    (idecoder : net_config -> ActionDecoder Params)
    (a : configs) (d : depth_config) (language_goal : option LangConfig) :
  depth_gripper a = Some d ->
  vision_gripper a = None ->
  is_ok (snd (setup_input_sizes a)) = false
  /\ (is_ok (compute_n_state_obs (keep_indices (proprio_state a))) = true ->
      snd (setup_input_sizes a) = Raise (AttributeError "num_c"))
  /\ is_ok (snd (init ipp ipr ivision igoal ilang itactile idecoder
                  a language_goal)) = false.
Proof.
  intros Hd Hg.
  assert (Hsetup :
    is_ok (snd (setup_input_sizes a)) = false
    /\ (is_ok (compute_n_state_obs (keep_indices (proprio_state a))) = true ->
        snd (setup_input_sizes a) = Raise (AttributeError "num_c"))).
  { unfold setup_input_sizes.
    destruct (compute_n_state_obs _) as [n|e]; cbn.
    - rewrite Hd, Hg. cbn. split; [reflexivity | intros _; reflexivity].
    - split; [reflexivity | discriminate]. }
  destruct Hsetup as [Hraise Hattr].
  repeat split; [exact Hraise | exact Hattr |].
  unfold init. destruct (setup_input_sizes a) as [a' [u|e]]; [|reflexivity].
  cbn in Hraise. discriminate Hraise.
Qed.

Lemma setup_raises_without_gripper_camera_example :
  snd (setup_input_sizes Demo.depth_without_camera)
  = Raise (AttributeError "num_c")
  /\ is_ok (snd (init (LangConfig := unit)
                   (fun _ => self_plan_proposal Demo.model)
                   (fun _ => self_plan_recognition Demo.model)
                   (fun _ => Demo.sum_encoder)
                   (fun _ => Demo.identity_encoder)
                   (fun _ => Demo.identity_encoder)
                   (fun _ => Demo.sum_encoder)
                   (fun _ => Demo.twice_decoder)
                   Demo.depth_without_camera None)) = false.
Proof.
  pose proof (setup_raises_without_gripper_camera (LangConfig := unit)
                (fun _ => self_plan_proposal Demo.model)
                (fun _ => self_plan_recognition Demo.model)
                (fun _ => Demo.sum_encoder)
                (fun _ => Demo.identity_encoder)
                (fun _ => Demo.identity_encoder)
                (fun _ => Demo.sum_encoder)
                (fun _ => Demo.twice_decoder)
                Demo.depth_without_camera (DepthConfig 1) None
                eq_refl eq_refl) as (_ & Hattr & Hinit).
  split; [apply Hattr; reflexivity | exact Hinit].
Defined.

(** ** Reasoning about computations *)

Section Inversion.

Context {Params Dist Rng : Type}.
Implicit Types st : state Params Rng.

Lemma bind_ok_inv {A B} (m : M Params Rng A) (k : A -> M Params Rng B)
    st st' (b : B) :
  bind m k st = (st', Ok b) ->
  exists a st1, m st = (st1, Ok a) /\ k a st1 = (st', Ok b).
Proof.
  unfold bind. destruct (m st) as [st1 [a|e]]; [eauto | discriminate].
Qed.

Lemma lift_ok_inv {A} (r : result A) st st' (a : A) :
  lift r st = (st', Ok a) -> r = Ok a /\ st' = st.
Proof. unfold lift. intros [= -> ->]. auto. Qed.

Lemma ret_ok_inv {A} (x : A) st st' (a : A) :
  ret x st = (st', Ok a) -> x = a /\ st' = st.
Proof. unfold ret. intros [= -> ->]. auto. Qed.

Lemma call_ok_inv {A} n (f : Params -> result A) st st' (a : A) :
  call n f st = (st', Ok a) -> f (params st) = Ok a.
Proof. unfold call. intros [= _ ->]. reflexivity. Qed.

(** A successful call reads the parameters and leaves them and the random
    generator as they were. *)
Lemma call_ok_frame {A} n (f : Params -> result A) st st' (a : A) :
  call n f st = (st', Ok a) ->
  f (params st) = Ok a /\ params st' = params st /\ rng st' = rng st.
Proof. unfold call. intros [= <- ->]. auto. Qed.

(** A draw advances the random generator and nothing else that a forward
    pass reads. *)
Lemma draw_ok_inv (sampler : Dist -> Rng -> tensor * Rng) (d : Dist)
    st st' (x : tensor) :
  draw sampler d st = (st', Ok x) ->
  sampler d (rng st) = (x, rng st') /\ params st' = params st.
Proof.
  unfold draw. destruct (sampler d (rng st)) as [y r].
  intros [= <- <-]. auto.
Qed.

End Inversion.

Tactic Notation "invert_bind" hyp(H) "as"
    simple_intropattern(a) simple_intropattern(st) ident(Hs) :=
  apply bind_ok_inv in H as (a & st & Hs & H).

(** ** Gripper success rate *)

Lemma Qred_inject_Z (z : Z) : Qred (inject_Z z) = inject_Z z.
Proof.
  unfold Qred, inject_Z.
  pose proof (Z.ggcd_gcd z 1) as Hg.
  pose proof (Z.ggcd_correct_divisors z 1) as Hd.
  destruct (Z.ggcd z 1) as [g [aa bb]]. cbn in Hg.
  rewrite Z.gcd_1_r in Hg. subst g. destruct Hd as [Ha Hb].
  assert (Haa : aa = z) by lia. assert (Hbb : bb = 1) by lia.
  rewrite Haa, Hbb. reflexivity.
Qed.

Lemma fadd_inject_Z (a b : Z) :
  fadd (fl_of_Z a) (fl_of_Z b) = fl_of_Z (a + b).
Proof.
  unfold fl_of_Z, fadd. f_equal.
  rewrite <- (Qred_inject_Z (a + b)).
  apply Qred_complete. rewrite inject_Z_plus. reflexivity.
Qed.

Lemma float_of_bool_Z (b : bool) :
  float_of_bool b = fl_of_Z (if b then 1 else 0).
Proof. destruct b; reflexivity. Qed.

Lemma count_true_cons (b : bool) (l : list bool) :
  Z.of_nat (count_true (b :: l))
  = (if b then 1 else 0) + Z.of_nat (count_true l).
Proof.
  unfold count_true. rewrite filter_cons.
  destruct b; case_decide; try congruence; cbn [length]; lia.
Qed.

Lemma fold_fadd_bools (l : list bool) (k : Z) :
  fold_left fadd (map float_of_bool l) (fl_of_Z k)
  = fl_of_Z (k + Z.of_nat (count_true l)).
Proof.
  revert k. induction l as [|b l IH]; intros k.
  - cbn. f_equal. unfold count_true. cbn. lia.
  - cbn [map fold_left]. rewrite float_of_bool_Z, fadd_inject_Z, IH.
    rewrite count_true_cons. f_equal. lia.
Qed.

(** The mean of a 0/1 tensor is the fraction of ones. *)
Lemma mean_bools (l : list bool) :
  mean (map float_of_bool l) = fraction (count_true l) (length l).
Proof.
  unfold mean, fraction, fsum. rewrite length_map.
  change fzero with (fl_of_Z 0). rewrite fold_fadd_bools. reflexivity.
Qed.

(** The two masked assignments together binarize every element. *)
Lemma masked_assignments_binarize (d : list fl) :
  masked_assign (masked_assign d (map fgt0 d) fone)
    (map negb (map fgt0 d)) fneg_one
  = map binarize d.
Proof.
  unfold masked_assign. induction d as [|x d IH]; [reflexivity|].
  cbn. rewrite IH. f_equal. unfold binarize. destruct (fgt0 x); reflexivity.
Qed.

Lemma discretize_gripper_binarizes (sample_act pred : tensor) :
  select (-1) (-1) sample_act = Ok pred ->
  discretize_gripper sample_act
  = Ok (Tensor (shape pred) (map binarize (data pred))).
Proof.
  intros H. unfold discretize_gripper. rewrite H. cbn.
  rewrite masked_assignments_binarize. reflexivity.
Qed.

Lemma zip_with_map_r {A B C D} (f : A -> C -> D) (g : B -> C)
    (l : list A) (k : list B) :
  zip_with f l (map g k) = zip_with (fun a b => f a (g b)) l k.
Proof.
  revert k. induction l as [|a l IH]; intros [|b k]; cbn; [done..|].
  by rewrite IH.
Qed.

Lemma gripper_sr_fraction (gt disc pred : tensor) (rate : fl) :
  data disc = map binarize (data pred) ->
  gripper_sr gt disc = Ok rate ->
  rate = match_fraction (data gt) (data pred).
Proof.
  intros Hd. unfold gripper_sr, zip_tensor.
  destruct (list_nat_eqb _ _); [|discriminate].
  cbn. intros [= <-].
  rewrite mean_bools, Hd, zip_with_map_r. unfold match_fraction.
  rewrite length_zip_with, length_zip. reflexivity.
Qed.

Lemma binarize_plus_minus_one (g : fl) :
  plus_minus_one g -> feqb (binarize g) g = true.
Proof.
  unfold plus_minus_one, binarize, fgt0, fsign, feqb, fone, fneg_one.
  destruct g as [q| | |]; try (intros [H|H]; discriminate H).
  intros [H|H]; apply Qeq_bool_iff in H.
  - assert (Hc : (q ?= 0)%Q = Gt) by (rewrite H; reflexivity).
    rewrite Hc. apply Qeq_bool_iff. symmetry. exact H.
  - assert (Hc : (q ?= 0)%Q = Lt) by (rewrite H; reflexivity).
    rewrite Hc. apply Qeq_bool_iff. symmetry. exact H.
Qed.

Lemma feqb_trans_l (a b c : fl) :
  feqb a b = true -> feqb a c = feqb b c.
Proof.
  destruct a as [x| | |], b as [y| | |]; cbn; try discriminate; try reflexivity.
  intros H. apply Qeq_bool_iff in H.
  destruct c as [z| | |]; try reflexivity.
  destruct (Qeq_bool x z) eqn:E1, (Qeq_bool y z) eqn:E2; try reflexivity.
  - apply Qeq_bool_iff in E1. apply Qeq_bool_neq in E2.
    exfalso. apply E2. rewrite <- H. exact E1.
  - apply Qeq_bool_iff in E2. apply Qeq_bool_neq in E1.
    exfalso. apply E1. rewrite H. exact E2.
Qed.

(** On ground truth that is already +1 or -1, comparing it as given and
    comparing it binarized count the same positions. *)
Lemma match_fraction_plus_minus_one (gt pred : list fl) :
  Forall plus_minus_one gt ->
  match_fraction gt pred = match_fraction_binarized gt pred.
Proof.
  intros Hall. unfold match_fraction, match_fraction_binarized.
  f_equal. f_equal. revert pred.
  induction Hall as [|g gt Hg _ IH]; intros [|p pred]; cbn; [done..|].
  rewrite IH. f_equal. symmetry.
  apply feqb_trans_l, binarize_plus_minus_one, Hg.
Qed.

(** C1 (amended): in lmp_val the gripper success rate of each branch is
    the fraction of elements whose ground-truth gripper action, compared
    as given, equals the predicted gripper action binarized to {+1, -1}
    with a threshold at zero (values > 0 map to +1, all others to -1);
    when every ground-truth value is already +1 or -1 this is the fraction
    of matches after binarizing both.  The prediction of the proposal
    branch is the decoder's output for the plan sampled from the proposal
    distribution of the first timestep and the latent goal; the prediction
    of the recognition branch is the decoder's output for the plan sampled,
    next, from the recognition distribution of the whole embedding. *)
Theorem lmp_val_gripper_success_rate {Params Dist Rng : Type}
    (dist_sample : Dist -> Rng -> tensor * Rng)
    (kl_divergence : Dist -> Dist -> result tensor)
    (self : PlayLMP Params Dist)
    (perceptual_emb latent_goal acts : tensor)
    (st st' : state Params Rng) (r : val_out) :
  lmp_val dist_sample kl_divergence self perceptual_emb latent_goal acts st
    = (st', Ok r) ->
  exists (first : tensor) (pp_dist pr_dist : Dist) (rng_pp rng_pr : Rng)
         (gt sample_pp sample_pr pred_pp pred_pr : tensor),
    select 1 0 perceptual_emb = Ok first
    /\ self_plan_proposal self (params st) first latent_goal = Ok pp_dist
    /\ dist_sample pp_dist (rng st) = (sampled_plan_pp r, rng_pp)
    /\ loss_and_act (self_action_decoder self) (params st)
         (sampled_plan_pp r) perceptual_emb latent_goal acts
       = Ok (action_loss_pp r, sample_pp)
    /\ self_plan_recognition self (params st) perceptual_emb = Ok pr_dist
    /\ dist_sample pr_dist rng_pp = (sampled_plan_pr r, rng_pr)
    /\ loss_and_act (self_action_decoder self) (params st)
         (sampled_plan_pr r) perceptual_emb latent_goal acts
       = Ok (action_loss_pr r, sample_pr)
    /\ select (-1) (-1) acts = Ok gt
    /\ select (-1) (-1) sample_pp = Ok pred_pp
    /\ select (-1) (-1) sample_pr = Ok pred_pr
    /\ gripper_sr_pp r = match_fraction (data gt) (data pred_pp)
    /\ gripper_sr_pr r = match_fraction (data gt) (data pred_pr)
    /\ (Forall plus_minus_one (data gt) ->
        gripper_sr_pp r = match_fraction_binarized (data gt) (data pred_pp)
        /\ gripper_sr_pr r = match_fraction_binarized (data gt) (data pred_pr)).
Proof.
  intros H. unfold lmp_val in H.
  invert_bind H as first s1 Hfirst. apply lift_ok_inv in Hfirst as [Hfirst ->].
  invert_bind H as pp_dist s2 Hpp.
  apply call_ok_frame in Hpp as (Hpp & Hp2 & Hr2).
  invert_bind H as plan_pp s3 Hplan_pp.
  apply draw_ok_inv in Hplan_pp as (Hplan_pp & Hp3).
  invert_bind H as [loss_pp sample_pp] s4 Hdec_pp.
  apply call_ok_frame in Hdec_pp as (Hdec_pp & Hp4 & Hr4).
  invert_bind H as m_pp s5 Hmae_pp. apply lift_ok_inv in Hmae_pp as [_ ->].
  invert_bind H as disc_pp s6 Hdpp. apply lift_ok_inv in Hdpp as [Hdpp ->].
  invert_bind H as gt s7 Hgt. apply lift_ok_inv in Hgt as [Hgt ->].
  invert_bind H as sr_pp s8 Hsrpp. apply lift_ok_inv in Hsrpp as [Hsrpp ->].
  invert_bind H as pr_dist s9 Hpr.
  apply call_ok_frame in Hpr as (Hpr & Hp9 & Hr9).
  invert_bind H as plan_pr s10 Hplan_pr.
  apply draw_ok_inv in Hplan_pr as (Hplan_pr & Hp10).
  invert_bind H as [loss_pr sample_pr] s11 Hdec_pr.
  apply call_ok_frame in Hdec_pr as (Hdec_pr & _ & _).
  invert_bind H as m_pr s12 Hmae_pr.
  invert_bind H as kl s13 Hkl.
  invert_bind H as disc_pr s14 Hdpr. apply lift_ok_inv in Hdpr as [Hdpr _].
  invert_bind H as sr_pr s15 Hsrpr. apply lift_ok_inv in Hsrpr as [Hsrpr _].
  apply ret_ok_inv in H as [<- _].
  cbn [gripper_sr_pp gripper_sr_pr sampled_plan_pp sampled_plan_pr
       action_loss_pp action_loss_pr].
  rewrite Hr2 in Hplan_pp.
  rewrite Hp3, Hp2 in Hdec_pp.
  rewrite Hp4, Hp3, Hp2 in Hpr.
  rewrite Hr9, Hr4 in Hplan_pr.
  rewrite Hp10, Hp9, Hp4, Hp3, Hp2 in Hdec_pr.
  assert (Hsel : forall sample disc, discretize_gripper sample = Ok disc ->
            exists pred, select (-1) (-1) sample = Ok pred
                         /\ data disc = map binarize (data pred)).
  { intros sample disc Hd. unfold discretize_gripper in Hd.
    destruct (select (-1) (-1) sample) as [pred|e] eqn:Hs; [|discriminate].
    exists pred. split; [reflexivity|].
    pose proof (discretize_gripper_binarizes sample pred Hs) as Hb.
    unfold discretize_gripper in Hb. rewrite Hs in Hb.
    cbn in Hd, Hb. rewrite Hd in Hb. injection Hb as ->. reflexivity. }
  destruct (Hsel _ _ Hdpp) as (pred_pp & Hppp & Hbpp).
  destruct (Hsel _ _ Hdpr) as (pred_pr & Hppr & Hbpr).
  pose proof (gripper_sr_fraction _ _ _ _ Hbpp Hsrpp) as Epp.
  pose proof (gripper_sr_fraction _ _ _ _ Hbpr Hsrpr) as Epr.
  exists first, pp_dist, pr_dist, (rng s3), (rng s10),
         gt, sample_pp, sample_pr, pred_pp, pred_pr.
  repeat split; try assumption.
  - rewrite <- match_fraction_plus_minus_one; assumption.
  - rewrite <- match_fraction_plus_minus_one; assumption.
Qed.

(** On [Demo.pemb] with ground-truth gripper actions [1, -1] the proposal
    branch predicts [4, 2] and scores one half; the recognition branch
    predicts [1, -1] and scores one. *)
Lemma lmp_val_gripper_success_rate_example :
  exists gt sample_pp sample_pr pred_pp pred_pr : tensor,
    select (-1) (-1) Demo.acts_pm1 = Ok gt
    /\ Forall plus_minus_one (data gt)
    /\ loss_and_act Cases.shifting_decoder (params Demo.st0)
         (sampled_plan_pp Cases.branching_result_pm1)
         Demo.pemb Demo.goal Demo.acts_pm1
       = Ok (action_loss_pp Cases.branching_result_pm1, sample_pp)
    /\ loss_and_act Cases.shifting_decoder (params Demo.st0)
         (sampled_plan_pr Cases.branching_result_pm1)
         Demo.pemb Demo.goal Demo.acts_pm1
       = Ok (action_loss_pr Cases.branching_result_pm1, sample_pr)
    /\ select (-1) (-1) sample_pp = Ok pred_pp
    /\ select (-1) (-1) sample_pr = Ok pred_pr
    /\ data gt = [Fin 1; Fin (-1)]
    /\ data pred_pp = [Fin 4; Fin 2]
    /\ data pred_pr = [Fin 1; Fin (-1)]
    /\ gripper_sr_pp Cases.branching_result_pm1
       = match_fraction_binarized (data gt) (data pred_pp)
    /\ gripper_sr_pr Cases.branching_result_pm1
       = match_fraction_binarized (data gt) (data pred_pr)
    /\ gripper_sr_pp Cases.branching_result_pm1 = Fin (1 # 2)
    /\ gripper_sr_pr Cases.branching_result_pm1 = Fin 1.
Proof.
  destruct (lmp_val_gripper_success_rate Demo.dist_sample Demo.kl_divergence
              Cases.branching_model Demo.pemb Demo.goal Demo.acts_pm1 Demo.st0
              (fst Cases.branching_run_pm1) Cases.branching_result_pm1)
    as (first & ppd & prd & r1 & r2 & gt & spp & spr & ppp & ppr
        & _ & _ & _ & Hdpp & _ & _ & Hdpr & Hgt & Hppp & Hppr & _ & _ & Hpm).
  { vm_compute. reflexivity. }
  assert (Hall : Forall plus_minus_one (data gt)).
  { vm_compute in Hgt. injection Hgt as <-.
    constructor; [left; reflexivity|].
    constructor; [right; reflexivity|]. constructor. }
  destruct (Hpm Hall) as [Bpp Bpr].
  exists gt, spp, spr, ppp, ppr.
  split; [exact Hgt|]. split; [exact Hall|].
  split; [exact Hdpp|]. split; [exact Hdpr|].
  split; [exact Hppp|]. split; [exact Hppr|].
  vm_compute in Hgt. injection Hgt as <-.
  vm_compute in Hdpp. injection Hdpp as <-.
  vm_compute in Hdpr. injection Hdpr as <-.
  vm_compute in Hppp. injection Hppp as <-.
  vm_compute in Hppr. injection Hppr as <-.
  split; [reflexivity|]. split; [vm_compute; reflexivity|].
  split; [vm_compute; reflexivity|].
  split; [exact Bpp|]. split; [exact Bpr|].
  split; vm_compute; reflexivity.
Defined.

(** C1 as stated fails: with ground-truth gripper actions [1/2, -1] the
    proposal branch predicts [7/2, 2] and the recognition branch
    [1/2, -1].  Binarizing both sides gives one match out of two for the
    proposal branch and two out of two for the recognition branch, but
    lmp_val compares the ground truth as given and reports zero and one
    half. *)
Lemma lmp_val_gripper_sr_keeps_ground_truth :
  exists (r : val_out) (gt sample_pp sample_pr pred_pp pred_pr : tensor),
    snd Cases.branching_run = Ok r
    /\ select (-1) (-1) Demo.acts = Ok gt
    /\ loss_and_act Cases.shifting_decoder (params Demo.st0)
         (sampled_plan_pp r) Demo.pemb Demo.goal Demo.acts
       = Ok (action_loss_pp r, sample_pp)
    /\ loss_and_act Cases.shifting_decoder (params Demo.st0)
         (sampled_plan_pr r) Demo.pemb Demo.goal Demo.acts
       = Ok (action_loss_pr r, sample_pr)
    /\ select (-1) (-1) sample_pp = Ok pred_pp
    /\ select (-1) (-1) sample_pr = Ok pred_pr
    /\ data gt = [Fin (1 # 2); Fin (-1)]
    /\ data pred_pp = [Fin (7 # 2); Fin 2]
    /\ data pred_pr = [Fin (1 # 2); Fin (-1)]
    /\ match_fraction_binarized (data gt) (data pred_pp) = Fin (1 # 2)
    /\ match_fraction_binarized (data gt) (data pred_pr) = Fin 1
    /\ gripper_sr_pp r = Fin 0
    /\ gripper_sr_pr r = Fin (1 # 2)
    /\ gripper_sr_pp r <> match_fraction_binarized (data gt) (data pred_pp)
    /\ gripper_sr_pr r <> match_fraction_binarized (data gt) (data pred_pr).
Proof.
  exists Cases.branching_result.
  exists (Tensor [1; 2]%nat [Fin (1 # 2); Fin (-1)]).
  exists (Tensor [1; 2; 2]%nat [Fin (33 # 10); Fin (7 # 2); Fin (37 # 10); Fin 2]).
  exists (Tensor [1; 2; 2]%nat [Fin (3 # 10); Fin (1 # 2); Fin (7 # 10); Fin (-1)]).
  exists (Tensor [1; 2]%nat [Fin (7 # 2); Fin 2]).
  exists (Tensor [1; 2]%nat [Fin (1 # 2); Fin (-1)]).
  repeat split; try (vm_compute; reflexivity); vm_compute; discriminate.
Qed.

(** ** Frame rules *)

Section Frames.

Context {Params Dist Rng : Type}.
Implicit Types st : state Params Rng.
Implicit Types allowed : net -> Prop.

Lemma trace_within_nil allowed mode : trace_within allowed mode [].
Proof. constructor. Qed.

Lemma quiet_unchanged allowed {A} (m : M Params Rng A) :
  (forall st, fst (m st) = st) -> quiet allowed m.
Proof.
  intros H st. cbn zeta. rewrite H. repeat split.
  exists []. split; [symmetry; apply app_nil_r | apply trace_within_nil].
Qed.

Lemma quiet_ret allowed {A} (a : A) : quiet allowed (ret (Params:=Params) (Rng:=Rng) a).
Proof. apply quiet_unchanged. reflexivity. Qed.

Lemma quiet_raise allowed {A} e : quiet allowed (raise (Params:=Params) (Rng:=Rng) (A:=A) e).
Proof. apply quiet_unchanged. reflexivity. Qed.

Lemma quiet_lift allowed {A} (r : result A) :
  quiet allowed (lift (Params:=Params) (Rng:=Rng) r).
Proof. apply quiet_unchanged. reflexivity. Qed.

Lemma quiet_get_kl_beta allowed :
  quiet allowed (get_kl_beta (Params:=Params) (Rng:=Rng)).
Proof. apply quiet_unchanged. reflexivity. Qed.

Lemma quiet_get_modality_scope allowed :
  quiet allowed (get_modality_scope (Params:=Params) (Rng:=Rng)).
Proof. apply quiet_unchanged. reflexivity. Qed.

Lemma quiet_log allowed name v :
  quiet allowed (log (Params:=Params) (Rng:=Rng) name v).
Proof.
  intros st. cbn. repeat split.
  exists []. split; [symmetry; apply app_nil_r | apply trace_within_nil].
Qed.

Lemma quiet_draw allowed (sampler : Dist -> Rng -> tensor * Rng) d :
  quiet allowed (draw (Params:=Params) sampler d).
Proof.
  intros st. unfold draw. destruct (sampler d (rng st)) as [x r]. cbn.
  repeat split.
  exists []. split; [symmetry; apply app_nil_r | apply trace_within_nil].
Qed.

Lemma quiet_call allowed {A} n (f : Params -> result A) :
  allowed n -> quiet allowed (call (Rng:=Rng) n f).
Proof.
  intros Hn st. cbn. repeat split.
  exists [(n, grad_enabled st)]. split; [reflexivity|].
  constructor; [split; [exact Hn | reflexivity] | constructor].
Qed.

Lemma quiet_call_opt allowed {A} n (f : option (Params -> result A)) :
  allowed n -> quiet allowed (call_opt (Rng:=Rng) n f).
Proof.
  intros Hn. destruct f; [apply quiet_call, Hn | apply quiet_raise].
Qed.

Lemma quiet_bind allowed {A B} (m : M Params Rng A) (k : A -> M Params Rng B) :
  quiet allowed m -> (forall a, quiet allowed (k a)) -> quiet allowed (bind m k).
Proof.
  intros Hm Hk st. specialize (Hm st). cbn zeta in Hm. unfold bind.
  destruct (m st) as [st1 [a|e]]; cbn [fst] in *; [|exact Hm].
  destruct Hm as (Hp & Hb & Hs & Hg & tr1 & Hc & Ht1).
  specialize (Hk a st1). cbn zeta in Hk.
  destruct Hk as (Hp' & Hb' & Hs' & Hg' & tr2 & Hc' & Ht2).
  repeat split; try congruence.
  exists (tr1 ++ tr2)%list. split.
  - rewrite Hc', Hc. symmetry. apply app_assoc.
  - apply Forall_app. split; [exact Ht1|]. rewrite <- Hg. exact Ht2.
Qed.

Lemma quiet_mono (P Q : net -> Prop) {A} (m : M Params Rng A) :
  (forall n, P n -> Q n) -> quiet P m -> quiet Q m.
Proof.
  intros HPQ Hm st. destruct (Hm st) as (Hp & Hb & Hs & Hg & tr & Hc & Ht).
  repeat split; try assumption.
  exists tr. split; [exact Hc|].
  eapply Forall_impl; [exact Ht|]. intros c [Hc1 Hc2]. split; auto.
Qed.

End Frames.

Ltac quiet_step :=
  first
    [ apply quiet_ret | apply quiet_raise | apply quiet_lift
    | apply quiet_get_kl_beta | apply quiet_get_modality_scope
    | apply quiet_log | apply quiet_draw
    | apply quiet_call | apply quiet_call_opt
    | apply quiet_bind; [|intros ?]
    | match goal with
      | |- quiet _ (match ?x with _ => _ end) => destruct x
      | |- quiet _ (if ?x then _ else _) => destruct x
      end ].

Lemma visual_embedding_quiet {Params Dist Rng : Type}
    (self : PlayLMP Params Dist) (imgs depth_imgs : pyobj) :
  quiet is_visual_encoder (visual_embedding (Rng:=Rng) self imgs depth_imgs).
Proof.
  unfold visual_embedding. repeat quiet_step; unfold is_visual_encoder; auto.
Qed.

Lemma perceptual_embedding_quiet {Params Rng : Type} allowed
    (visual_emb obs : tensor) :
  quiet allowed (perceptual_embedding (Params:=Params) (Rng:=Rng) visual_emb obs).
Proof. apply quiet_lift. Qed.

(** ** Inference entry points *)

Section Inference.

Context {Params Dist Rng : Type}.
Variable dist_sample : Dist -> Rng -> tensor * Rng.
Variable self : PlayLMP Params Dist.

Lemma inference_only_unchanged {A} (m : M Params Rng A) :
  (forall st, fst (m st) = st) -> inference_only m.
Proof.
  intros H st. cbn zeta. rewrite H. split; [reflexivity|].
  exists []. split; [symmetry; apply app_nil_r | apply trace_within_nil].
Qed.

Lemma inference_only_bind {A B} (m : M Params Rng A) (k : A -> M Params Rng B) :
  inference_only m -> (forall a, inference_only (k a)) ->
  inference_only (bind m k).
Proof.
  intros Hm Hk st. specialize (Hm st). cbn zeta in Hm. unfold bind.
  destruct (m st) as [st1 [a|e]]; cbn [fst] in *; [|exact Hm].
  destruct Hm as (Hp & tr1 & Hc & Ht1).
  destruct (Hk a st1) as (Hp' & tr2 & Hc' & Ht2).
  split; [congruence|].
  exists (tr1 ++ tr2)%list. split.
  - rewrite Hc', Hc. symmetry. apply app_assoc.
  - apply Forall_app. split; assumption.
Qed.

(** Inside [torch.no_grad()] a quiet body that stays away from the
    recognition network is inference-only, whatever the mode outside. *)
Lemma no_grad_inference_only {A} (body : M Params Rng A) :
  quiet (fun n => n <> NPlanRecognition) body -> inference_only (no_grad body).
Proof.
  intros Hq st. unfold no_grad.
  specialize (Hq (set_grad_enabled false st)). cbn zeta in Hq.
  destruct (body (set_grad_enabled false st)) as [st1 r]. cbn in *.
  destruct Hq as (Hp & _ & _ & _ & tr & Hc & Ht).
  split; [exact Hp|]. exists tr. split; assumption.
Qed.

Lemma visual_embedding_inference (imgs depth_imgs : pyobj) :
  quiet (fun n => n <> NPlanRecognition)
    (visual_embedding (Rng:=Rng) self imgs depth_imgs).
Proof.
  eapply quiet_mono; [|apply visual_embedding_quiet].
  intros n [-> | [-> | ->]]; discriminate.
Qed.

End Inference.

Ltac inference_step :=
  first
    [ apply inference_only_bind; [|intros ?]
    | apply no_grad_inference_only
    | apply inference_only_unchanged; intros ?; reflexivity
    | match goal with
      | |- inference_only (match ?x with _ => _ end) => destruct x
      end ].

Ltac quiet_inference :=
  repeat first
    [ apply visual_embedding_inference
    | apply quiet_call; discriminate
    | apply quiet_call_opt; discriminate
    | quiet_step ].

(** C5: each of predict_with_plan, get_pp_plan_vision and get_pp_plan_lang
    leaves the trainable parameters as they were, runs every sub-network
    it invokes with gradient tracking disabled, and never invokes the
    plan-recognition network. *)
Theorem inference_entry_points_frame {Params Dist Rng : Type}
    (dist_sample : Dist -> Rng -> tensor * Rng)
    (self : PlayLMP Params Dist)
    (curr_imgs curr_depths goal_imgs goal_depths : list tensor)
    (curr_state goal_state latent_goal sampled_plan goal_lang : tensor) :
  inference_only
    (predict_with_plan (Rng:=Rng) self curr_imgs curr_depths curr_state
       latent_goal sampled_plan)
  /\ inference_only
       (get_pp_plan_vision dist_sample self curr_imgs curr_depths goal_imgs
          goal_depths curr_state goal_state)
  /\ inference_only
       (get_pp_plan_lang dist_sample self curr_imgs curr_depths curr_state
          goal_lang).
Proof.
  split; [|split].
  - unfold predict_with_plan. repeat inference_step. quiet_inference.
  - unfold get_pp_plan_vision, assert. repeat inference_step. quiet_inference.
  - unfold get_pp_plan_lang. repeat inference_step. quiet_inference.
Qed.

(** ** Goal-encoder selection *)

Lemma prefix_app (needle hay : string) :
  String.prefix needle hay = true <-> exists post, hay = needle +:+ post.
Proof.
  revert hay. induction needle as [|c needle IH]; intros hay.
  - split; [intros _; exists hay; reflexivity | intros _; destruct hay; reflexivity].
  - destruct hay as [|c' hay]; cbn.
    + split; [discriminate | intros [post H]; discriminate H].
    + destruct (Ascii.ascii_dec c c') as [->|Hne].
      * rewrite IH. split; intros [post H]; exists post.
        -- rewrite H. reflexivity.
        -- injection H as H. exact H.
      * split; [discriminate|]. intros [post H]. cbn in H.
        injection H as H1 H2. congruence.
Qed.

Lemma str_contains_unfold (needle hay : string) :
  str_contains needle hay
  = String.prefix needle hay
    || match hay with
       | EmptyString => false
       | String _ rest => str_contains needle rest
       end.
Proof. destruct hay; reflexivity. Qed.

(** [str_contains] decides the substring relation. *)
Lemma str_contains_spec (needle hay : string) :
  str_contains needle hay = true <-> substring_of needle hay.
Proof.
  unfold substring_of. split.
  - induction hay as [|c hay IH]; rewrite str_contains_unfold; intros H.
    + apply orb_true_iff in H as [H|H]; [|discriminate].
      apply prefix_app in H as [post H]. exists "", post. exact H.
    + apply orb_true_iff in H as [H|H].
      * apply prefix_app in H as [post H]. exists "", post. exact H.
      * destruct (IH H) as (pre & post & ->).
        exists (String c pre), post. reflexivity.
  - intros (pre & post & ->). induction pre as [|c pre IH].
    + rewrite str_contains_unfold. apply orb_true_iff. left.
      apply prefix_app. exists post. reflexivity.
    + rewrite str_contains_unfold. apply orb_true_iff. right. exact IH.
Qed.

Section GoalSelection.

Context {Params Dist Rng : Type}.
Variable self : PlayLMP Params Dist.

(** After the observations are embedded, the modality scope is the name
    of the modality being processed. *)
Lemma embed_modality_scope (name : string) (b : dataset_batch)
    (st : state Params Rng) :
  modality_scope (fst (embed_modality self (name, b) st)) = name.
Proof.
  unfold embed_modality. cbn [fst snd].
  unfold bind at 1. cbn [set_modality_scope].
  match goal with
  | |- modality_scope (fst (?m ?s)) = _ =>
      assert (Hq : quiet is_visual_encoder m)
  end.
  { apply quiet_bind; [apply visual_embedding_quiet|].
    intros ?. apply perceptual_embedding_quiet. }
  match goal with
  | |- modality_scope (fst (?m ?s)) = _ =>
      destruct (Hq s) as (_ & _ & Hs & _)
  end.
  rewrite Hs. reflexivity.
Qed.

Lemma latent_goal_of_by_scope (perceptual_emb : tensor) (b : dataset_batch)
    (st : state Params Rng) :
  latent_goal_of self perceptual_emb b st
  = (if str_contains "vis" (modality_scope st)
     then visual_goal_of_last self perceptual_emb
     else language_goal_of_field self b) st.
Proof.
  unfold latent_goal_of, bind at 1, get_modality_scope.
  destruct (str_contains "vis" (modality_scope st)); reflexivity.
Qed.

(** Replacing the goal computation after the embedding by the branch
    that the modality name selects. *)
Lemma goal_after_embedding {A} (name : string) (b : dataset_batch)
    (k : tensor -> tensor -> M Params Rng A) (st : state Params Rng) :
  bind (embed_modality self (name, b))
    (fun pemb => bind (latent_goal_of self pemb b) (k pemb)) st
  = bind (embed_modality self (name, b))
      (fun pemb =>
         bind (if str_contains "vis" name
               then visual_goal_of_last self pemb
               else language_goal_of_field self b) (k pemb)) st.
Proof.
  unfold bind at 1 3.
  pose proof (embed_modality_scope name b st) as Hs.
  destruct (embed_modality self (name, b) st) as [st1 [pemb|e]];
    [|reflexivity].
  cbn [fst] in Hs. unfold bind at 1 2.
  rewrite latent_goal_of_by_scope, Hs. reflexivity.
Qed.

End GoalSelection.

(** C4: in every iteration of the per-modality loops of training_step and
    validation_step the latent goal is the visual-goal encoder applied to
    the last timestep of the perceptual embedding when the modality name
    contains the substring "vis", and the language-goal encoder applied to
    the batch's language field when it does not. *)
Theorem goal_encoder_follows_modality_name {Params Dist Rng : Type}
    (dist_sample dist_rsample : Dist -> Rng -> tensor * Rng)
    (kl_divergence : Dist -> Dist -> result tensor)
    (self : PlayLMP Params Dist)
    (acc : fl * fl * fl) (output : gmap string pyval)
    (name : string) (b : dataset_batch) (st : state Params Rng) :
  (substring_of "vis" name ->
   training_iteration dist_rsample kl_divergence self acc (name, b) st
   = (let* pemb := embed_modality self (name, b) in
      let* goal := visual_goal_of_last self pemb in
      training_tail dist_rsample kl_divergence self acc b pemb goal) st
   /\ validation_iteration dist_sample kl_divergence self output (name, b) st
      = (let* pemb := embed_modality self (name, b) in
         let* goal := visual_goal_of_last self pemb in
         validation_tail dist_sample kl_divergence self output b pemb goal) st)
  /\
  (~ substring_of "vis" name ->
   training_iteration dist_rsample kl_divergence self acc (name, b) st
   = (let* pemb := embed_modality self (name, b) in
      let* goal := language_goal_of_field self b in
      training_tail dist_rsample kl_divergence self acc b pemb goal) st
   /\ validation_iteration dist_sample kl_divergence self output (name, b) st
      = (let* pemb := embed_modality self (name, b) in
         let* goal := language_goal_of_field self b in
         validation_tail dist_sample kl_divergence self output b pemb goal) st).
Proof.
  unfold training_iteration, validation_iteration. cbn [snd].
  split; intros Hname.
  - apply str_contains_spec in Hname.
    rewrite !goal_after_embedding, Hname. split; reflexivity.
  - assert (Hf : str_contains "vis" name = false).
    { destruct (str_contains "vis" name) eqn:E; [|reflexivity].
      exfalso. apply Hname, str_contains_spec, E. }
    rewrite !goal_after_embedding, Hf. split; reflexivity.
Qed.

Lemma goal_encoder_follows_modality_name_example :
  (training_iteration Demo.dist_sample Demo.kl_divergence Demo.model
     (fzero, fzero, fzero) ("vis", Demo.vis_batch) Demo.st0
   = (let* pemb := embed_modality Demo.model ("vis", Demo.vis_batch) in
      let* goal := visual_goal_of_last Demo.model pemb in
      training_tail Demo.dist_sample Demo.kl_divergence Demo.model
        (fzero, fzero, fzero) Demo.vis_batch pemb goal) Demo.st0)
  /\
  (validation_iteration Demo.dist_sample Demo.kl_divergence Demo.model
     ∅ ("lang", Demo.lang_batch) Demo.st0
   = (let* pemb := embed_modality Demo.model ("lang", Demo.lang_batch) in
      let* goal := language_goal_of_field Demo.model Demo.lang_batch in
      validation_tail Demo.dist_sample Demo.kl_divergence Demo.model
        ∅ Demo.lang_batch pemb goal) Demo.st0).
Proof.
  split.
  - apply (proj1 (goal_encoder_follows_modality_name Demo.dist_sample
                    Demo.dist_sample Demo.kl_divergence Demo.model
                    (fzero, fzero, fzero) ∅ "vis" Demo.vis_batch Demo.st0)).
    exists "", "". reflexivity.
  - apply (proj2 (goal_encoder_follows_modality_name Demo.dist_sample
                    Demo.dist_sample Demo.kl_divergence Demo.model
                    (fzero, fzero, fzero) ∅ "lang" Demo.lang_batch Demo.st0)).
    intros H. apply str_contains_spec in H. discriminate H.
Defined.

(** ** Training loss *)

Lemma fmul_comm (a b : fl) : fmul a b = fmul b a.
Proof.
  destruct a as [x| | |], b as [y| | |]; cbn; try reflexivity;
    try (f_equal; apply Qred_complete, Qmult_comm);
    repeat match goal with
      | |- context [(?q ?= 0)%Q] => destruct (q ?= 0)%Q
      end; reflexivity.
Qed.

Section Simulation.

Context {Params Dist Rng : Type}.
Variable beta : fl.
Implicit Types s : state Params Rng.

Lemma sim_ret {A B} (R : A -> B -> Prop) (a : A) (b : B) :
  R a b -> simulates (Params:=Params) (Rng:=Rng) beta R (ret a) (ret b).
Proof. intros H s1 s2 Hs. cbn. auto. Qed.

Lemma sim_raise {A B} (R : A -> B -> Prop) (e : exn) :
  simulates (Params:=Params) (Rng:=Rng) beta R (raise e) (raise e).
Proof. intros s1 s2 Hs. cbn. auto. Qed.

Lemma sim_lift {A} (r : result A) :
  simulates (Params:=Params) (Rng:=Rng) beta eq (lift r) (lift r).
Proof. intros s1 s2 Hs. cbn. destruct r; auto. Qed.

Lemma sim_bind {A1 A2 B1 B2} (R : A1 -> A2 -> Prop) (S : B1 -> B2 -> Prop)
    (m1 : M Params Rng A1) (m2 : M Params Rng A2)
    (k1 : A1 -> M Params Rng B1) (k2 : A2 -> M Params Rng B2) :
  simulates beta R m1 m2 ->
  (forall a1 a2, R a1 a2 -> simulates beta S (k1 a1) (k2 a2)) ->
  simulates beta S (bind m1 k1) (bind m2 k2).
Proof.
  intros Hm Hk s1 s2 Hs. specialize (Hm s1 s2 Hs). unfold bind.
  destruct (m1 s1) as [s1' [a1|e1]], (m2 s2) as [s2' [a2|e2]];
    try contradiction.
  - destruct Hm as [Hs' HR]. exact (Hk a1 a2 HR s1' s2' Hs').
  - exact Hm.
Qed.

Lemma sim_call {A} n (f : Params -> result A) :
  simulates (Rng:=Rng) beta eq (call n f) (call n f).
Proof.
  intros s1 s2 (Hp & Hb1 & Hb2 & Hm & Hg & Hr & Hc). cbn.
  rewrite Hp. destruct (f (params s2)); (split; [|reflexivity]);
    repeat split; cbn; congruence.
Qed.

Lemma sim_call_opt {A} n (f : option (Params -> result A)) :
  simulates (Rng:=Rng) beta eq (call_opt n f) (call_opt n f).
Proof. destruct f; [apply sim_call | apply sim_raise]. Qed.

Lemma sim_draw (sampler : Dist -> Rng -> tensor * Rng) (d : Dist) :
  simulates (Params:=Params) beta eq (draw sampler d) (draw sampler d).
Proof.
  intros s1 s2 (Hp & Hb1 & Hb2 & Hm & Hg & Hr & Hc). unfold draw.
  rewrite Hr. destruct (sampler d (rng s2)) as [x r].
  split; [|reflexivity]. repeat split; cbn; congruence.
Qed.

Lemma sim_get_modality_scope :
  simulates (Params:=Params) (Rng:=Rng) beta eq
    get_modality_scope get_modality_scope.
Proof.
  intros s1 s2 Hs. cbn. split; [exact Hs|].
  destruct Hs as (_ & _ & _ & Hm & _). exact Hm.
Qed.

Lemma sim_set_modality_scope (name : string) :
  simulates (Params:=Params) (Rng:=Rng) beta eq
    (set_modality_scope name) (set_modality_scope name).
Proof.
  intros s1 s2 (Hp & Hb1 & Hb2 & Hm & Hg & Hr & Hc). cbn.
  split; [|reflexivity]. repeat split; cbn; congruence.
Qed.

(** Reading [kl_beta] on the left yields [beta]. *)
Lemma sim_get_kl_beta_l {A B} (R : A -> B -> Prop)
    (k : fl -> M Params Rng A) (m2 : M Params Rng B) :
  simulates beta R (k beta) m2 -> simulates beta R (bind get_kl_beta k) m2.
Proof.
  intros H s1 s2 Hs. unfold bind, get_kl_beta.
  destruct Hs as (Hp & Hb1 & Hrest) eqn:E. rewrite Hb1.
  apply H. exact Hs.
Qed.

Lemma sim_get_kl_beta_r {A B} (R : A -> B -> Prop)
    (m1 : M Params Rng A) (k : fl -> M Params Rng B) :
  simulates beta R m1 (k beta) -> simulates beta R m1 (bind get_kl_beta k).
Proof.
  intros H s1 s2 Hs. unfold bind, get_kl_beta.
  destruct Hs as (Hp & Hb1 & Hb2 & Hrest) eqn:E. rewrite Hb2.
  apply H. exact Hs.
Qed.

(** A metric logged on the left only. *)
Lemma sim_log_l {A B} (R : A -> B -> Prop) (name : string) (v : fl)
    (k : unit -> M Params Rng A) (m2 : M Params Rng B) :
  simulates beta R (k tt) m2 -> simulates beta R (bind (log name v) k) m2.
Proof.
  intros H s1 s2 Hs. unfold bind, log. apply H.
  destruct Hs as (Hp & Hb1 & Hb2 & Hm & Hg & Hr & Hc).
  repeat split; cbn; congruence.
Qed.

Lemma sim_get_modality_scope_l {A B} (R : A -> B -> Prop)
    (k : string -> M Params Rng A) (m2 : M Params Rng B) :
  (forall scope, simulates beta R (k scope) m2) ->
  simulates beta R (bind get_modality_scope k) m2.
Proof. intros H s1 s2 Hs. unfold bind, get_modality_scope. apply H, Hs. Qed.

(** A continuation on the left only, ending where the right already is. *)
Lemma sim_bind_l {A1 A2 B1} (R : A1 -> A2 -> Prop) (S : B1 -> A2 -> Prop)
    (m1 : M Params Rng A1) (m2 : M Params Rng A2)
    (k1 : A1 -> M Params Rng B1) :
  simulates beta R m1 m2 ->
  (forall a1 a2, R a1 a2 -> simulates beta S (k1 a1) (ret a2)) ->
  simulates beta S (bind m1 k1) m2.
Proof.
  intros Hm Hk s1 s2 Hs. specialize (Hm s1 s2 Hs). unfold bind.
  destruct (m1 s1) as [s1' [a1|e1]], (m2 s2) as [s2' [a2|e2]];
    try contradiction.
  - destruct Hm as [Hs' HR]. exact (Hk a1 a2 HR s1' s2' Hs').
  - exact Hm.
Qed.

(** A continuation on the right only. *)
Lemma sim_bind_r {A1 A2 B2} (R : A1 -> A2 -> Prop) (S : A1 -> B2 -> Prop)
    (m1 : M Params Rng A1) (m2 : M Params Rng A2)
    (k2 : A2 -> M Params Rng B2) :
  simulates beta R m1 m2 ->
  (forall a1 a2, R a1 a2 -> simulates beta S (ret a1) (k2 a2)) ->
  simulates beta S m1 (bind m2 k2).
Proof.
  intros Hm Hk s1 s2 Hs. specialize (Hm s1 s2 Hs). unfold bind.
  destruct (m1 s1) as [s1' [a1|e1]], (m2 s2) as [s2' [a2|e2]];
    try contradiction.
  - destruct Hm as [Hs' HR]. exact (Hk a1 a2 HR s1' s2' Hs').
  - exact Hm.
Qed.

End Simulation.

Ltac sim_same_step :=
  first
    [ apply sim_lift | apply sim_raise | apply sim_call | apply sim_call_opt
    | apply sim_draw | apply sim_get_modality_scope
    | apply sim_set_modality_scope
    | apply sim_ret; reflexivity
    | eapply sim_bind with (R := eq); [|intros ? ? <-]
    | match goal with
      | |- simulates _ _ (match ?x with _ => _ end) (match ?x with _ => _ end) =>
          destruct x
      | |- simulates _ _ (if ?x then _ else _) (if ?x then _ else _) =>
          destruct x
      end ].

Section TrainingLoss.

Context {Params Dist Rng : Type}.
Variable dist_rsample : Dist -> Rng -> tensor * Rng.
Variable kl_divergence : Dist -> Dist -> result tensor.
Variable self : PlayLMP Params Dist.
Variable beta : fl.

Lemma visual_embedding_sim (imgs depth_imgs : pyobj) :
  simulates (Rng:=Rng) beta eq
    (visual_embedding self imgs depth_imgs)
    (visual_embedding self imgs depth_imgs).
Proof. unfold visual_embedding. repeat sim_same_step. Qed.

Lemma embed_modality_sim (item : string * dataset_batch) :
  simulates (Rng:=Rng) beta eq
    (embed_modality self item) (embed_modality self item).
Proof.
  unfold embed_modality, perceptual_embedding.
  repeat first [apply visual_embedding_sim | sim_same_step].
Qed.

Lemma latent_goal_of_sim (pemb : tensor) (b : dataset_batch) :
  simulates (Rng:=Rng) beta eq
    (latent_goal_of self pemb b) (latent_goal_of self pemb b).
Proof. unfold latent_goal_of. repeat sim_same_step. Qed.

Lemma compute_kl_loss_sim (pr_dist pp_dist : Dist) :
  simulates (Params:=Params) (Rng:=Rng) beta
    (fun scaled kl => scaled = fmul (mean (data kl)) beta)
    (compute_kl_loss kl_divergence pr_dist pp_dist)
    (lift (kl_divergence pr_dist pp_dist)).
Proof.
  unfold compute_kl_loss.
  eapply sim_bind_l with (R := eq); [apply sim_lift | intros kl ? <-].
  apply sim_get_kl_beta_l, sim_get_modality_scope_l. intros scope.
  repeat apply sim_log_l. apply sim_ret. reflexivity.
Qed.

Lemma training_iteration_sim (acc : fl * fl * fl)
    (item : string * dataset_batch) :
  simulates beta
    (fun acc' t => snd acc' = fadd (snd acc) (modality_loss beta t))
    (training_iteration dist_rsample kl_divergence self acc item)
    (modality_terms dist_rsample kl_divergence self item).
Proof.
  unfold training_iteration, modality_terms.
  eapply sim_bind with (R := eq); [apply embed_modality_sim | intros pemb ? <-].
  eapply sim_bind with (R := eq); [apply latent_goal_of_sim | intros goal ? <-].
  unfold training_tail. destruct acc as [[kl0 act0] tot0].
  eapply sim_bind_l with
    (R := fun out t =>
            let '(kl, act_loss, mod_loss, _, _) := out in
            mod_loss = modality_loss beta t).
  - unfold lmp_train.
    eapply sim_bind with (R := eq); [apply sim_lift | intros first ? <-].
    eapply sim_bind with (R := eq); [apply sim_call | intros pp ? <-].
    eapply sim_bind with (R := eq); [apply sim_call | intros pr ? <-].
    eapply sim_bind with (R := eq); [apply sim_draw | intros plan ? <-].
    eapply sim_bind with (R := eq); [apply sim_call | intros a ? <-].
    eapply sim_bind; [apply compute_kl_loss_sim | intros scaled kl ->].
    apply sim_ret. unfold modality_loss. cbn [fst snd].
    rewrite (fmul_comm beta). reflexivity.
  - intros [[[[kl act_loss] mod_loss] pp] pr] t ->.
    apply sim_get_modality_scope_l. intros scope.
    repeat apply sim_log_l. apply sim_ret. reflexivity.
Qed.

Lemma training_loop_sim (items : list (string * dataset_batch))
    (acc : fl * fl * fl) :
  simulates beta
    (fun acc' terms =>
       snd acc' = fold_left fadd (map (modality_loss beta) terms) (snd acc)
       /\ length terms = length items)
    (training_loop dist_rsample kl_divergence self acc items)
    (all_modality_terms dist_rsample kl_divergence self items).
Proof.
  revert acc. induction items as [|item rest IH]; intros acc.
  - cbn. apply sim_ret. split; reflexivity.
  - cbn [training_loop all_modality_terms].
    eapply sim_bind; [apply training_iteration_sim | intros acc1 t Ht].
    eapply sim_bind_r; [apply IH | intros acc2 ts [Hacc Hlen]].
    apply sim_ret. cbn [map fold_left length]. rewrite <- Ht, Hlen. auto.
Qed.

Lemma training_step_sim (batch : list (string * dataset_batch)) :
  simulates beta eq
    (training_step dist_rsample kl_divergence self batch)
    (reference_total_loss dist_rsample kl_divergence self batch).
Proof.
  unfold training_step, reference_total_loss.
  apply sim_get_kl_beta_r.
  eapply sim_bind; [apply training_loop_sim | intros [[kl act] tot] terms H].
  cbn [snd] in H. destruct H as [-> Hlen].
  repeat apply sim_log_l. apply sim_ret.
  unfold weighted_total, fsum. rewrite Hlen. reflexivity.
Qed.

End TrainingLoss.

(** C3: for a non-empty modality batch mapping, training_step returns (or
    raises) what the reference computation does: the sum over modalities of
    action loss plus kl_beta times the batch-averaged KL divergence from
    the recognition to the proposal distribution, divided by the number of
    modalities, every modality weighing the same. *)
Theorem training_step_total_loss {Params Dist Rng : Type}
    (dist_rsample : Dist -> Rng -> tensor * Rng)
    (kl_divergence : Dist -> Dist -> result tensor)
    (self : PlayLMP Params Dist)
    (batch : list (string * dataset_batch)) (st : state Params Rng) :
  batch <> [] ->
  snd (training_step dist_rsample kl_divergence self batch st)
  = snd (reference_total_loss dist_rsample kl_divergence self batch st).
Proof.
  intros _.
  pose proof (training_step_sim dist_rsample kl_divergence self
                (kl_beta st) batch st st) as H.
  assert (Hs : same_but_logs (kl_beta st) st st) by (repeat split).
  specialize (H Hs).
  destruct (training_step dist_rsample kl_divergence self batch st)
    as [s1 [a|e1]],
    (reference_total_loss dist_rsample kl_divergence self batch st)
    as [s2 [b|e2]]; cbn; try contradiction; destruct H as [_ ->]; reflexivity.
Qed.

Lemma training_step_total_loss_example :
  snd (training_step Demo.dist_sample Demo.kl_divergence Demo.model
         Demo.two_modalities Demo.st0)
  = Ok (weighted_total (Fin (1 # 2)) [(Fin 6, Fin 10); (Fin 7, Fin 16)])
  /\ weighted_total (Fin (1 # 2)) [(Fin 6, Fin 10); (Fin 7, Fin 16)] = Fin 13.
Proof.
  split; [|vm_compute; reflexivity].
  transitivity
    (snd (reference_total_loss Demo.dist_sample Demo.kl_divergence Demo.model
            Demo.two_modalities Demo.st0)).
  - apply training_step_total_loss. discriminate.
  - vm_compute. reflexivity.
Defined.

(** ** Depth fusion *)

(** The embedding looks at the depth mapping's keys only: the tensors it
    holds never reach the encoders. *)
Lemma visual_embedding_ignores_depth_values {Params Dist Rng : Type}
    (self : PlayLMP Params Dist) (imgs d1 d2 : pyobj) (st : state Params Rng) :
  (forall key, contains_key key d1 = contains_key key d2) ->
  visual_embedding self imgs d1 st = visual_embedding self imgs d2 st.
Proof.
  intros H. unfold visual_embedding, getitem_if. rewrite !H. reflexivity.
Qed.

(** C2 (evaluation): with a depth mapping that holds "depth_static" and an
    image mapping that does not, visual_embedding raises KeyError instead
    of fusing the depth tensor; and when the image mapping has such an
    entry, that entry is fused whatever tensor the depth mapping holds. *)
Theorem visual_embedding_reads_depth_from_imgs :
  snd (visual_embedding Demo.model Demo.rgb_only Demo.depth_only Demo.st0)
  = Raise (KeyError "depth_static")
  /\ snd (visual_embedding Demo.model Demo.rgb_and_decoy Demo.depth_only Demo.st0)
     = snd (visual_embedding Demo.model Demo.rgb_and_decoy Demo.other_depth Demo.st0)
  /\ snd (visual_embedding Demo.model Demo.rgb_and_decoy Demo.depth_only Demo.st0)
     = Ok (Tensor [1; 2; 1]%nat [Fin 22; Fin 46]).
Proof.
  split; [vm_compute; reflexivity|].
  split; [|vm_compute; reflexivity].
  rewrite (visual_embedding_ignores_depth_values Demo.model
             Demo.rgb_and_decoy Demo.depth_only Demo.other_depth);
    [reflexivity|].
  intros key. unfold contains_key, Demo.depth_only, Demo.other_depth.
  apply bool_decide_ext. rewrite !lookup_singleton_is_Some. reflexivity.
Qed.

(** ** Inference entry points on image lists *)

Section ListArguments.

Context {Params Dist Rng : Type}.
Variable dist_sample : Dist -> Rng -> tensor * Rng.
Variable self : PlayLMP Params Dist.

(** Subscripting a list with a string key raises at the first statement
    of the embedding, before any encoder runs. *)
Lemma visual_embedding_on_list (imgs : list tensor) (depth_imgs : pyobj)
    (st : state Params Rng) :
  visual_embedding self (PyList imgs) depth_imgs st
  = (st, Raise (TypeError "list indices must be integers or slices, not str")).
Proof. reflexivity. Qed.

Lemma bind_not_ok {A B} (m : M Params Rng A) (k : A -> M Params Rng B)
    (st : state Params Rng) :
  (forall a st', is_ok (snd (k a st')) = false) ->
  is_ok (snd (bind m k st)) = false.
Proof.
  intros H. unfold bind. destruct (m st) as [st1 [a|e]]; [apply H | reflexivity].
Qed.

Lemma bind_not_ok_l {A B} (m : M Params Rng A) (k : A -> M Params Rng B)
    (st : state Params Rng) :
  is_ok (snd (m st)) = false -> is_ok (snd (bind m k st)) = false.
Proof.
  unfold bind. destruct (m st) as [st1 [a|e]]; [discriminate | reflexivity].
Qed.

Lemma no_grad_embedding_not_ok {A} (imgs : list tensor) (depth_imgs : pyobj)
    (k : tensor -> M Params Rng A) (st : state Params Rng) :
  is_ok (snd (no_grad (bind (visual_embedding self (PyList imgs) depth_imgs) k)
                st)) = false.
Proof. reflexivity. Qed.

(** None of the three entry points returns a value, whatever its input. *)
Lemma inference_entry_points_never_return
    (curr_imgs curr_depths goal_imgs goal_depths : list tensor)
    (curr_state goal_state latent_goal sampled_plan goal_lang : tensor)
    (st : state Params Rng) :
  is_ok (snd (predict_with_plan self curr_imgs curr_depths curr_state
                latent_goal sampled_plan st)) = false
  /\ is_ok (snd (get_pp_plan_vision dist_sample self curr_imgs curr_depths
                   goal_imgs goal_depths curr_state goal_state st)) = false
  /\ is_ok (snd (get_pp_plan_lang dist_sample self curr_imgs curr_depths
                   curr_state goal_lang st)) = false.
Proof.
  split; [|split].
  - unfold predict_with_plan.
    repeat (apply bind_not_ok; intros ? ?). apply no_grad_embedding_not_ok.
  - unfold get_pp_plan_vision.
    do 5 (apply bind_not_ok; intros ? ?).
    apply bind_not_ok_l, no_grad_embedding_not_ok.
  - unfold get_pp_plan_lang.
    do 3 (apply bind_not_ok; intros ? ?).
    apply bind_not_ok_l, no_grad_embedding_not_ok.
Qed.

End ListArguments.

(** C7 (evaluation): get_pp_plan_vision raises AssertionError when the
    current and goal image lists, or the current and goal depth lists,
    differ in length; with lists of equal length it raises TypeError in
    visual_embedding, before any sub-network runs, and returns neither a
    plan nor a latent goal. *)
Theorem get_pp_plan_vision_on_lists :
  snd (get_pp_plan_vision Demo.dist_sample Demo.model
         [Demo.frame] [] [] [] Demo.frame_state Demo.frame_state Demo.st0)
  = Raise AssertionError
  /\ snd (get_pp_plan_vision Demo.dist_sample Demo.model
            [Demo.frame] [Demo.frame_depth] [Demo.frame] []
            Demo.frame_state Demo.frame_state Demo.st0)
     = Raise AssertionError
  /\ get_pp_plan_vision Demo.dist_sample Demo.model
       [Demo.frame] [Demo.frame_depth] [Demo.frame] [Demo.frame_depth]
       Demo.frame_state Demo.frame_state Demo.st0
     = (Demo.st0,
        Raise (TypeError "list indices must be integers or slices, not str")).
Proof. repeat split; vm_compute; reflexivity. Qed.

(** C9 (evaluation): with current and goal observation identical,
    get_pp_plan_vision raises TypeError and returns no latent goal, while
    the visual-goal encoder applied directly to the perceptual embedding
    of that observation yields one. *)
Theorem get_pp_plan_vision_same_observation :
  get_pp_plan_vision Demo.dist_sample Demo.model
    [Demo.frame] [] [Demo.frame] [] Demo.frame_state Demo.frame_state Demo.st0
  = (Demo.st0,
     Raise (TypeError "list indices must be integers or slices, not str"))
  /\ snd (Demo.single_observation_goal Demo.st0)
     = Ok (Tensor [1; 2]%nat [Fin 6; Fin 6]).
Proof. split; vm_compute; reflexivity. Qed.

(** ** More on the input-size resolution *)

Ltac split_setup :=
  repeat (match goal with
          | |- context [match ?x with Some _ => _ | None => _ end] =>
              destruct x eqn:?
          | |- context [Z.ltb ?x ?y] => destruct (Z.ltb_spec x y)
          end; cbn in *).

(** X1: when setup_input_sizes completes, the visual_features written to
    the plan-proposal, plan-recognition, visual-goal and decoder
    configurations is the static encoder's width plus the gripper
    encoder's and the tactile encoder's widths when those are configured. *)
Theorem setup_writes_visual_features (a : configs) :
  snd (setup_input_sizes a) = Ok tt ->
  let a' := fst (setup_input_sizes a) in
  visual_features (plan_proposal a') = feature_total a
  /\ visual_features (plan_recognition a') = feature_total a
  /\ visual_features (visual_goal a') = feature_total a
  /\ visual_features (decoder a') = feature_total a.
Proof.
  unfold setup_input_sizes, feature_total.
  destruct (compute_n_state_obs _) as [n|e]; [|discriminate]. cbn zeta.
  destruct (depth_gripper a) as [dg|], (vision_gripper a) as [g|];
    cbn; try discriminate; intros _; split_setup; repeat split; lia.
Qed.

Lemma setup_writes_visual_features_example :
  visual_features (decoder (fst (setup_input_sizes Demo.base_configs))) = 96
  /\ visual_features
       (plan_proposal (fst (setup_input_sizes Cases.grayscale_configs))) = 80.
Proof.
  split.
  - apply (setup_writes_visual_features Demo.base_configs). reflexivity.
  - apply (setup_writes_visual_features Cases.grayscale_configs). reflexivity.
Defined.

(** X2: setup_input_sizes changes nothing but the two derived sizes of the
    four sub-network configurations and the channel counts of the two
    vision encoders: keep_indices, the depth and tactile configurations and
    the encoders' declared feature widths are as before, also when it
    raises. *)
Theorem setup_frame (a : configs) :
  let a' := fst (setup_input_sizes a) in
  proprio_state a' = proprio_state a
  /\ depth_static a' = depth_static a
  /\ depth_gripper a' = depth_gripper a
  /\ tactile a' = tactile a
  /\ vc_visual_features (vision_static a') = vc_visual_features (vision_static a)
  /\ option_map vc_visual_features (vision_gripper a')
     = option_map vc_visual_features (vision_gripper a).
Proof.
  unfold setup_input_sizes.
  destruct (compute_n_state_obs _) as [n|e]; [|repeat split]. cbn zeta.
  destruct (depth_gripper a) as [dg|] eqn:Hdg, (vision_gripper a) as [g|] eqn:Hg,
    (depth_static a) as [ds|] eqn:Hds; cbn;
    rewrite ?Hdg, ?Hg, ?Hds; cbn;
    repeat (match goal with
            | |- context [Z.ltb ?x ?y] => destruct (Z.ltb_spec x y)
            end; cbn);
    rewrite ?Hg; repeat split.
Qed.

(** X3: the guard only compares the channel count with 4.  For a static
    encoder whose count stays below 4 after one depth increment, a second
    invocation adds the depth channels again. *)
Theorem setup_increments_again_below_four (a : configs) (d : depth_config) :
  depth_static a = Some d ->
  vc_num_c (vision_static a) < 4 ->
  vc_num_c (vision_static a) + dc_num_c d < 4 ->
  snd (setup_input_sizes a) = Ok tt ->
  vc_num_c (vision_static (fst (setup_input_sizes a)))
  = vc_num_c (vision_static a) + dc_num_c d
  /\ vc_num_c (vision_static (fst (setup_twice a)))
     = vc_num_c (vision_static a) + 2 * dc_num_c d.
Proof.
  intros Hd H1 H2. unfold setup_twice.
  pose proof (setup_frame a) as (Hk & _).
  unfold setup_input_sizes at 3. rewrite Hk.
  unfold setup_input_sizes.
  destruct (compute_n_state_obs _) as [n|e]; [|discriminate]. cbn zeta.
  rewrite Hd.
  destruct (depth_gripper a) as [dg|], (vision_gripper a) as [g|];
    cbn; try discriminate; intros _; rewrite ?Hd; cbn;
    repeat (match goal with
            | |- context [Z.ltb ?x ?y] => destruct (Z.ltb_spec x y)
            end; cbn in *); rewrite ?Hd; cbn;
    repeat (match goal with
            | |- context [Z.ltb ?x ?y] => destruct (Z.ltb_spec x y)
            end; cbn in *); split; lia.
Qed.

Lemma setup_increments_again_below_four_example :
  vc_num_c (vision_static (fst (setup_input_sizes Cases.grayscale_configs))) = 2
  /\ vc_num_c (vision_static (fst (setup_twice Cases.grayscale_configs))) = 3.
Proof.
  apply (setup_increments_again_below_four Cases.grayscale_configs
           (DepthConfig 1)); [reflexivity | cbn; lia | cbn; lia | reflexivity].
Defined.

(** ** More on the embeddings *)

Section EmbeddingEffects.

Context {Params Dist Rng : Type}.
Variable self : PlayLMP Params Dist.
Implicit Types st : state Params Rng.

Lemma after_calls_nil st : after_calls st [] = st.
Proof. destruct st. unfold after_calls. cbn. by rewrite app_nil_r. Qed.

Lemma after_calls_app st (xs ys : list net) :
  after_calls (after_calls st xs) ys = after_calls st (xs ++ ys).
Proof.
  unfold after_calls. cbn. f_equal. by rewrite map_app, app_assoc.
Qed.

Lemma lift_inv {A} (r : result A) st st' (r' : result A) :
  lift r st = (st', r') -> st' = st /\ r' = r.
Proof. unfold lift. intros [= <- <-]. auto. Qed.

Lemma call_inv {A} n (f : Params -> result A) st st' (r : result A) :
  call n f st = (st', r) -> st' = after_calls st [n] /\ r = f (params st).
Proof. unfold call. intros [= <- <-]. auto. Qed.

Lemma call_opt_ok_inv {A} n (f : option (Params -> result A)) st st' (a : A) :
  call_opt n f st = (st', Ok a) ->
  exists g, f = Some g /\ st' = after_calls st [n] /\ g (params st) = Ok a.
Proof.
  destruct f as [g|]; cbn; [|discriminate].
  intros H. apply call_inv in H as [-> H]. eauto.
Qed.

End EmbeddingEffects.

Section EmbeddingTrace.

Context {Params Dist Rng : Type}.
Variable self : PlayLMP Params Dist.
Implicit Types st : state Params Rng.

Lemma getitem_if_some (o : pyobj) key probe (t : option tensor) :
  getitem_if o key probe = Ok t ->
  t = None /\ contains_key key probe = false
  \/ (exists x, t = Some x /\ getitem o key = Ok x)
     /\ contains_key key probe = true.
Proof.
  unfold getitem_if. destruct (contains_key key probe).
  - destruct (getitem o key) as [x|e]; cbn; [|discriminate].
    intros [= <-]. right. eauto.
  - intros [= <-]. left. auto.
Qed.

Lemma flatten_stream_dims (imgs : tensor) (depth : option tensor)
    (b s : nat) (fused : tensor) :
  flatten_stream imgs depth = Ok (b, s, fused) ->
  exists c h w, shape imgs = [b; s; c; h; w].
Proof.
  unfold flatten_stream, unpack5.
  destruct (shape imgs) as [|b' [|s' [|c [|h [|w [|]]]]]]; try discriminate.
  cbn [rbind].
  destruct (reshape _ imgs) as [flat|e]; [|discriminate]. cbn [rbind].
  destruct depth as [d|].
  - destruct (unsqueeze 2 d) as [d1|e]; [|discriminate]. cbn [rbind].
    destruct (reshape _ d1) as [d2|e]; [|discriminate]. cbn [rbind].
    destruct (cat 1 [flat; d2]) as [f|e]; [|discriminate]. cbn [rbind].
    intros [= -> -> _]. eauto.
  - intros [= -> -> _]. eauto.
Qed.

Lemma reshape_batch_seq (b s : nat) (t t' : tensor) :
  reshape [Some b; Some s; None] t = Ok t' -> exists f, shape t' = [b; s; f].
Proof.
  unfold reshape. cbn.
  repeat (case_decide; try congruence). cbn.
  destruct (Nat.eqb _ 0); [intros [=]|].
  destruct (Nat.eqb _ 0); [|intros [=]].
  intros [= <-]. cbn. eauto.
Qed.

Lemma cat_last_batch_seq (b s f : nat) (e x r : tensor) :
  shape e = [b; s; f] -> cat (-1) [e; x] = Ok r -> exists f', shape r = [b; s; f'].
Proof.
  intros He. unfold cat. rewrite He.
  change (norm_index (-1) (length [b; s; f])) with (Ok (A:=nat) 2%nat).
  cbn [rbind].
  destruct (forallb _ _); [|intros [=]].
  intros [= <-]. cbn. eauto.
Qed.

(** What a returning visual embedding has done. *)
Lemma visual_embedding_ok_inv (imgs depth_imgs : pyobj) st st' (r : tensor) :
  visual_embedding self imgs depth_imgs st = (st', Ok r) ->
  st' = after_calls st (invoked_encoders imgs)
  /\ (contains_key "rgb_gripper" imgs = true ->
      is_Some (self_vision_gripper self))
  /\ (contains_key "rgb_tactile" imgs = true ->
      is_Some (self_tactile_enc self))
  /\ exists t0 b s c h w f,
       getitem imgs "rgb_static" = Ok t0
       /\ shape t0 = [b; s; c; h; w]
       /\ shape r = [b; s; f].
Proof.
  intros H. unfold visual_embedding in H. unfold invoked_encoders.
  apply bind_ok_inv in H as (i_static & s1 & H1 & H).
  apply lift_inv in H1 as [-> Hstatic]. symmetry in Hstatic.
  apply bind_ok_inv in H as (i_gripper & s1 & H1 & H).
  apply lift_inv in H1 as [-> Hg]. symmetry in Hg.
  apply bind_ok_inv in H as (i_tactile & s1 & H1 & H).
  apply lift_inv in H1 as [-> Ht]. symmetry in Ht.
  apply bind_ok_inv in H as (d_static & s1 & H1 & H).
  apply lift_inv in H1 as [-> _].
  apply bind_ok_inv in H as (d_gripper & s1 & H1 & H).
  apply lift_inv in H1 as [-> _].
  apply bind_ok_inv in H as ([[b s] fused] & s1 & H1 & H).
  apply lift_inv in H1 as [-> Hflat]. symmetry in Hflat.
  apply flatten_stream_dims in Hflat as (c & h & w & Hshape).
  apply bind_ok_inv in H as (enc & s1 & H1 & H).
  apply call_inv in H1 as [-> _].
  apply bind_ok_inv in H as (e1 & s1 & H1 & H).
  apply lift_inv in H1 as [-> Hre]. symmetry in Hre.
  apply reshape_batch_seq in Hre as [f1 Hf1].
  apply bind_ok_inv in H as (e2 & s2 & H2 & H).
  assert (Hs2 :
    s2 = after_calls st
           (NVisionStatic
            :: if contains_key "rgb_gripper" imgs then [NVisionGripper] else [])
    /\ (contains_key "rgb_gripper" imgs = true ->
        is_Some (self_vision_gripper self))
    /\ exists f2, shape e2 = [b; s; f2]).
  { apply getitem_if_some in Hg as [[-> ->] | [(g & -> & _) ->]].
    - apply ret_ok_inv in H2 as [<- ->].
      split; [reflexivity|]. split; [discriminate | eauto].
    - apply bind_ok_inv in H2 as ([[b' s'] fused'] & s1 & H1 & H2).
      apply lift_inv in H1 as [-> _].
      apply bind_ok_inv in H2 as (encg & s1 & H1 & H2).
      apply call_opt_ok_inv in H1 as (fg & Hfg & -> & _).
      apply bind_ok_inv in H2 as (encg' & s1 & H1 & H2).
      apply lift_inv in H1 as [-> _].
      apply lift_inv in H2 as [-> Hcat]. symmetry in Hcat.
      rewrite after_calls_app. split; [reflexivity|]. split.
      + intros _. destruct (self_vision_gripper self); [eauto | discriminate].
      + eapply cat_last_batch_seq; eassumption. }
  destruct Hs2 as (-> & Hgrip & f2 & Hf2).
  assert (Hfinal :
    st' = after_calls st
            (NVisionStatic
             :: (if contains_key "rgb_gripper" imgs then [NVisionGripper] else [])
             ++ (if contains_key "rgb_tactile" imgs then [NTactile] else []))
    /\ (contains_key "rgb_tactile" imgs = true ->
        is_Some (self_tactile_enc self))
    /\ exists f, shape r = [b; s; f]).
  { apply getitem_if_some in Ht as [[-> ->] | [(t & -> & _) ->]].
    - apply ret_ok_inv in H as [<- ->]. rewrite app_nil_r.
      split; [reflexivity|]. split; [discriminate | eauto].
    - apply bind_ok_inv in H as ([[[[b' s'] c'] h'] w'] & s1 & H1 & H).
      apply lift_inv in H1 as [-> _].
      apply bind_ok_inv in H as (flat & s1 & H1 & H).
      apply lift_inv in H1 as [-> _].
      apply bind_ok_inv in H as (enct & s1 & H1 & H).
      apply call_opt_ok_inv in H1 as (ft & Hft & -> & _).
      apply bind_ok_inv in H as (enct' & s1 & H1 & H).
      apply lift_inv in H1 as [-> _].
      apply lift_inv in H as [-> Hcat]. symmetry in Hcat.
      rewrite after_calls_app. split; [reflexivity|]. split.
      + intros _. destruct (self_tactile_enc self); [eauto | discriminate].
      + eapply cat_last_batch_seq; eassumption. }
  destruct Hfinal as (-> & Htac & f & Hf).
  split; [reflexivity|]. split; [exact Hgrip|]. split; [exact Htac|].
  exists i_static, b, s, c, h, w, f. auto.
Qed.

End EmbeddingTrace.

(** X4: a visual embedding that returns has run the static encoder, then
    the gripper encoder exactly when the image mapping has an
    "rgb_gripper" entry, then the tactile encoder exactly when it has an
    "rgb_tactile" entry -- each once, in this order -- and has changed
    nothing else in the state. *)
Theorem visual_embedding_runs_present_streams {Params Dist Rng : Type}
    (self : PlayLMP Params Dist) (imgs depth_imgs : pyobj)
    (st st' : state Params Rng) (r : tensor) :
  visual_embedding self imgs depth_imgs st = (st', Ok r) ->
  st' = after_calls st (invoked_encoders imgs).
Proof. intros H. apply (visual_embedding_ok_inv self) in H. apply H. Qed.

(** X5: an image mapping with an "rgb_gripper" entry and no gripper
    encoder, or with an "rgb_tactile" entry and no tactile encoder, makes
    visual_embedding raise: the stream is not skipped. *)
Theorem visual_embedding_needs_encoder {Params Dist Rng : Type}
    (self : PlayLMP Params Dist) (imgs depth_imgs : pyobj)
    (st : state Params Rng) :
  contains_key "rgb_gripper" imgs = true /\ self_vision_gripper self = None
  \/ contains_key "rgb_tactile" imgs = true /\ self_tactile_enc self = None ->
  is_ok (snd (visual_embedding self imgs depth_imgs st)) = false.
Proof.
  intros Hmissing.
  destruct (visual_embedding self imgs depth_imgs st) as [st' [r|e]] eqn:E;
    [|reflexivity].
  apply visual_embedding_ok_inv in E as (_ & Hg & Ht & _).
  destruct Hmissing as [[Hk Hn] | [Hk Hn]].
  - specialize (Hg Hk). rewrite Hn in Hg. destruct Hg as [? [=]].
  - specialize (Ht Hk). rewrite Hn in Ht. destruct Ht as [? [=]].
Qed.

(** X6: the tensor a visual embedding returns has three dimensions, the
    first two being the batch and sequence dimensions of the
    five-dimensional "rgb_static" tensor. *)
Theorem visual_embedding_keeps_batch_and_sequence {Params Dist Rng : Type}
    (self : PlayLMP Params Dist) (imgs depth_imgs : pyobj)
    (st st' : state Params Rng) (r : tensor) :
  visual_embedding self imgs depth_imgs st = (st', Ok r) ->
  exists t0 b s c h w f,
    getitem imgs "rgb_static" = Ok t0
    /\ shape t0 = [b; s; c; h; w]
    /\ shape r = [b; s; f].
Proof. intros H. apply (visual_embedding_ok_inv self) in H. apply H. Qed.
Lemma visual_embedding_runs_present_streams_example :
  fst Cases.all_streams_run
  = after_calls Demo.st0 [NVisionStatic; NVisionGripper; NTactile].
Proof.
  apply (visual_embedding_runs_present_streams Cases.full_model
           Cases.all_streams Demo.no_depth Demo.st0 (fst Cases.all_streams_run)
           (Tensor [1; 2; 3]%nat (Demo.ints [2; 2; 2; 6; 6; 6]))).
  vm_compute. reflexivity.
Defined.

Lemma visual_embedding_needs_encoder_example :
  is_ok (snd (visual_embedding Demo.model Cases.all_streams Demo.no_depth
                Demo.st0)) = false.
Proof.
  apply visual_embedding_needs_encoder. left. split; reflexivity.
Defined.

Lemma visual_embedding_keeps_batch_and_sequence_example :
  exists t0 b s c h w f,
    getitem Cases.all_streams "rgb_static" = Ok t0
    /\ shape t0 = [b; s; c; h; w]
    /\ shape (Tensor [1; 2; 3]%nat (Demo.ints [2; 2; 2; 6; 6; 6])) = [b; s; f].
Proof.
  apply (visual_embedding_keeps_batch_and_sequence Cases.full_model
           Cases.all_streams Demo.no_depth Demo.st0 (fst Cases.all_streams_run)).
  vm_compute. reflexivity.
Defined.
Lemma numel_app_one (lead : list nat) (x : nat) :
  numel (lead ++ [x]) = (numel lead * x)%nat.
Proof.
  unfold numel. induction lead as [|a lead IH]; cbn; [lia|].
  rewrite IH. lia.
Qed.

Lemma cat_data_two_length (outer c1 c2 : nat) (d1 d2 : list fl) :
  length d1 = (outer * c1)%nat -> length d2 = (outer * c2)%nat ->
  length (cat_data outer [(c1, d1); (c2, d2)]) = (outer * (c1 + c2))%nat.
Proof.
  revert d1 d2. induction outer as [|o IH]; intros d1 d2 H1 H2; [reflexivity|].
  cbn [cat_data map fst snd concat].
  rewrite !length_app, !length_take. cbn [length].
  rewrite (IH (drop c1 d1) (drop c2 d2)); rewrite ?length_drop; lia.
Qed.

Lemma norm_index_last (n : nat) :
  norm_index (-1) (S n) = Ok n.
Proof.
  unfold norm_index. cbn [Z.ltb Z.compare].
  replace (-1 + Z.of_nat (S n)) with (Z.of_nat n) by lia.
  destruct (Z.leb_spec 0 (Z.of_nat n)); [|lia].
  destruct (Z.ltb_spec (Z.of_nat n) (Z.of_nat (S n))); [|lia].
  cbn. by rewrite Nat2Z.id.
Qed.

(** X7: for a well-formed visual embedding of shape [lead..., f] and a
    well-formed observation of shape [lead..., k], perceptual_embedding
    returns a well-formed tensor of shape [lead..., f + k] and leaves the
    state as it was. *)
Theorem perceptual_embedding_shape {Params Rng : Type}
    (visual_emb obs : tensor) (lead : list nat) (f k : nat)
    (st : state Params Rng) :
  shape visual_emb = (lead ++ [f])%list ->
  shape obs = (lead ++ [k])%list ->
  well_formed visual_emb = true ->
  well_formed obs = true ->
  exists t,
    perceptual_embedding visual_emb obs st = (st, Ok t)
    /\ shape t = (lead ++ [(f + k)%nat])%list
    /\ well_formed t = true.
Proof.
  intros Hv Ho Wv Wo.
  unfold well_formed in *. apply Nat.eqb_eq in Wv, Wo.
  rewrite Hv, numel_app_one in Wv. rewrite Ho, numel_app_one in Wo.
  unfold perceptual_embedding, lift, cat.
  rewrite Hv, length_app, Nat.add_comm. cbn [length Nat.add].
  rewrite norm_index_last. cbn [rbind].
  assert (Hc : forallb (fun t => cat_compatible (length lead) (lead ++ [f])%list (shape t))
                 [visual_emb; obs] = true).
  { cbn. rewrite Hv, Ho. unfold cat_compatible, list_nat_eqb.
    rewrite !take_app_length.
    rewrite !(drop_ge (_ ++ _)) by (rewrite length_app; cbn; lia).
    rewrite !bool_decide_eq_true_2 by reflexivity.
    rewrite !length_app. cbn [length andb].
    rewrite (proj2 (Nat.ltb_lt _ _)) by lia. reflexivity. }
  rewrite Hc. eexists. split; [reflexivity|]. cbn [shape data].
  cbn [map foldr]. rewrite Hv, Ho, take_app_length.
  rewrite !(drop_ge (_ ++ _) (S _)) by (rewrite length_app; cbn; lia).
  rewrite !drop_app_length, !nth_middle.
  split.
  - f_equal. f_equal. lia.
  - apply Nat.eqb_eq. rewrite numel_app_one.
    rewrite cat_data_two_length; cbn [numel fold_right]; lia.
Qed.

Lemma perceptual_embedding_shape_example :
  exists t,
    perceptual_embedding (Tensor [1; 2; 1]%nat (Demo.ints [2; 6])) Demo.robot
      Demo.st0 = (Demo.st0, Ok t)
    /\ shape t = [1; 2; 2]%nat
    /\ well_formed t = true.
Proof.
  apply (perceptual_embedding_shape (Tensor [1; 2; 1]%nat (Demo.ints [2; 6]))
           Demo.robot [1; 2]%nat 1 1 Demo.st0); reflexivity.
Defined.
(** ** More on the training and validation steps *)

Section ForwardOnly.

Context {Params Dist Rng : Type}.
Implicit Types st : state Params Rng.

Lemma forward_only_quiet allowed {A} (m : M Params Rng A) :
  quiet allowed m -> forward_only m.
Proof.
  intros Hq st. destruct (Hq st) as (Hp & Hb & _ & Hg & tr & Hc & Ht).
  repeat split; try assumption. exists tr. split; [exact Hc|].
  eapply Forall_impl; [exact Ht|]. intros c [_ Hm]. exact Hm.
Qed.

Lemma forward_only_bind {A B} (m : M Params Rng A) (k : A -> M Params Rng B) :
  forward_only m -> (forall a, forward_only (k a)) -> forward_only (bind m k).
Proof.
  intros Hm Hk st. specialize (Hm st). cbn zeta in Hm. unfold bind.
  destruct (m st) as [st1 [a|e]]; cbn [fst] in *; [|exact Hm].
  destruct Hm as (Hp & Hb & Hg & tr1 & Hc & Ht1).
  destruct (Hk a st1) as (Hp' & Hb' & Hg' & tr2 & Hc' & Ht2).
  repeat split; try congruence.
  exists (tr1 ++ tr2)%list. split.
  - rewrite Hc', Hc. symmetry. apply app_assoc.
  - apply Forall_app. split; [exact Ht1|]. rewrite <- Hg. exact Ht2.
Qed.

Lemma forward_only_set_modality_scope (name : string) :
  forward_only (set_modality_scope (Params:=Params) (Rng:=Rng) name).
Proof.
  intros st. cbn. repeat split. exists []. split; [by rewrite app_nil_r|].
  constructor.
Qed.

End ForwardOnly.

Section StepFrames.

Context {Params Dist Rng : Type}.
Variable dist_sample dist_rsample : Dist -> Rng -> tensor * Rng.
Variable kl_divergence : Dist -> Dist -> result tensor.
Variable self : PlayLMP Params Dist.
Implicit Types st : state Params Rng.

Lemma visual_embedding_quiet_any (imgs depth_imgs : pyobj) :
  quiet any_net (visual_embedding (Rng:=Rng) self imgs depth_imgs).
Proof.
  eapply quiet_mono; [|apply visual_embedding_quiet]. intros; exact I.
Qed.

Lemma latent_goal_of_quiet (pemb : tensor) (b : dataset_batch) :
  quiet any_net (latent_goal_of (Rng:=Rng) self pemb b).
Proof. unfold latent_goal_of. repeat first [apply quiet_call; exact I | apply quiet_call_opt; exact I | quiet_step]. Qed.

Lemma compute_kl_loss_quiet (pr pp : Dist) :
  quiet any_net (compute_kl_loss (Params:=Params) (Rng:=Rng) kl_divergence pr pp).
Proof. unfold compute_kl_loss. repeat quiet_step. Qed.

Lemma lmp_train_quiet (pemb goal acts : tensor) :
  quiet any_net (lmp_train dist_rsample kl_divergence self pemb goal acts).
Proof.
  unfold lmp_train.
  repeat first [apply compute_kl_loss_quiet | apply quiet_call; exact I | quiet_step].
Qed.

Lemma lmp_val_quiet (pemb goal acts : tensor) :
  quiet any_net (lmp_val dist_sample kl_divergence self pemb goal acts).
Proof.
  unfold lmp_val.
  repeat first [apply compute_kl_loss_quiet | apply quiet_call; exact I | quiet_step].
Qed.

Lemma training_tail_quiet acc (b : dataset_batch) (pemb goal : tensor) :
  quiet any_net (training_tail dist_rsample kl_divergence self acc b pemb goal).
Proof.
  unfold training_tail. destruct acc as [[? ?] ?].
  repeat first [apply lmp_train_quiet | quiet_step].
Qed.

Lemma validation_tail_quiet out (b : dataset_batch) (pemb goal : tensor) :
  quiet any_net (validation_tail dist_sample kl_divergence self out b pemb goal).
Proof.
  unfold validation_tail. repeat first [apply lmp_val_quiet | quiet_step].
Qed.

Lemma embed_modality_forward_only (item : string * dataset_batch) :
  forward_only (embed_modality (Rng:=Rng) self item).
Proof.
  unfold embed_modality.
  apply forward_only_bind; [apply forward_only_set_modality_scope | intros _].
  apply (forward_only_quiet any_net).
  apply quiet_bind; [apply visual_embedding_quiet_any | intros ?].
  apply perceptual_embedding_quiet.
Qed.

Lemma training_iteration_forward_only acc (item : string * dataset_batch) :
  forward_only (training_iteration dist_rsample kl_divergence self acc item).
Proof.
  unfold training_iteration.
  apply forward_only_bind; [apply embed_modality_forward_only | intros pemb].
  apply (forward_only_quiet any_net).
  apply quiet_bind; [apply latent_goal_of_quiet | intros goal].
  apply training_tail_quiet.
Qed.

Lemma validation_iteration_forward_only out (item : string * dataset_batch) :
  forward_only (validation_iteration dist_sample kl_divergence self out item).
Proof.
  unfold validation_iteration.
  apply forward_only_bind; [apply embed_modality_forward_only | intros pemb].
  apply (forward_only_quiet any_net).
  apply quiet_bind; [apply latent_goal_of_quiet | intros goal].
  apply validation_tail_quiet.
Qed.

Lemma training_loop_forward_only (items : list (string * dataset_batch)) acc :
  forward_only (training_loop dist_rsample kl_divergence self acc items).
Proof.
  revert acc. induction items as [|item rest IH]; intros acc; cbn.
  - apply (forward_only_quiet any_net), quiet_ret.
  - apply forward_only_bind; [apply training_iteration_forward_only | apply IH].
Qed.

Lemma validation_loop_forward_only (items : list (string * dataset_batch)) out :
  forward_only (validation_loop dist_sample kl_divergence self out items).
Proof.
  revert out. induction items as [|item rest IH]; intros out; cbn.
  - apply (forward_only_quiet any_net), quiet_ret.
  - apply forward_only_bind; [apply validation_iteration_forward_only | apply IH].
Qed.

End StepFrames.

(** X8: training_step and validation_step are forward passes: whether they
    return or raise, the trainable parameters and kl_beta are as before,
    the autograd mode is as found, and every sub-network ran in that
    mode. *)
Theorem steps_are_forward_only {Params Dist Rng : Type}
    (dist_sample dist_rsample : Dist -> Rng -> tensor * Rng)
    (kl_divergence : Dist -> Dist -> result tensor)
    (self : PlayLMP Params Dist) (batch : list (string * dataset_batch)) :
  forward_only (Rng:=Rng) (training_step dist_rsample kl_divergence self batch)
  /\ forward_only (Rng:=Rng)
       (validation_step dist_sample kl_divergence self batch).
Proof.
  split.
  - unfold training_step.
    apply forward_only_bind; [apply training_loop_forward_only|].
    intros [[kl act] tot]. apply (forward_only_quiet any_net).
    repeat quiet_step.
  - apply validation_loop_forward_only.
Qed.
Section ScopeAfterStep.

Context {Params Dist Rng : Type}.
Variable dist_sample dist_rsample : Dist -> Rng -> tensor * Rng.
Variable kl_divergence : Dist -> Dist -> result tensor.
Variable self : PlayLMP Params Dist.
Implicit Types st : state Params Rng.

Lemma quiet_scope allowed {A} (m : M Params Rng A) st :
  quiet allowed m -> modality_scope (fst (m st)) = modality_scope st.
Proof. intros Hq. apply (Hq st). Qed.

Lemma last_modality_cons (d name : string) (b : dataset_batch)
    (rest : list (string * dataset_batch)) :
  last_modality d ((name, b) :: rest) = last_modality name rest.
Proof.
  unfold last_modality. destruct rest as [|[n' b'] rest]; [reflexivity|].
  cbn [map fst]. change (last (name :: n' :: map fst rest))
    with (last (n' :: map fst rest)).
  destruct (proj2 (last_is_Some (n' :: map fst rest))) as [x ->];
    [discriminate | reflexivity].
Qed.

(** One iteration that returns leaves the modality's name in the scope. *)
Lemma iteration_scope {A} (name : string) (b : dataset_batch)
    (tail : tensor -> tensor -> M Params Rng A) st st' (r : A) :
  (forall pemb goal, quiet any_net (tail pemb goal)) ->
  bind (embed_modality self (name, b))
    (fun pemb => bind (latent_goal_of self pemb b) (tail pemb)) st
  = (st', Ok r) ->
  modality_scope st' = name.
Proof.
  intros Htail H.
  apply bind_ok_inv in H as (pemb & s1 & H1 & H).
  pose proof (embed_modality_scope self name b st) as Hs.
  rewrite H1 in Hs. cbn [fst] in Hs.
  assert (Hq : quiet any_net (bind (latent_goal_of self pemb b) (tail pemb))).
  { apply quiet_bind; [apply latent_goal_of_quiet | intros goal; apply Htail]. }
  pose proof (quiet_scope _ _ s1 Hq) as Hs'. rewrite H in Hs'. cbn [fst] in Hs'.
  congruence.
Qed.

Lemma training_loop_scope (items : list (string * dataset_batch)) acc st st' r :
  training_loop dist_rsample kl_divergence self acc items st = (st', Ok r) ->
  modality_scope st' = last_modality (modality_scope st) items.
Proof.
  revert acc st. induction items as [|[name b] rest IH]; intros acc st H.
  - apply ret_ok_inv in H as [_ ->]. reflexivity.
  - cbn [training_loop] in H.
    apply bind_ok_inv in H as (acc' & s1 & H1 & H).
    unfold training_iteration in H1. cbn [snd] in H1.
    apply iteration_scope in H1; [|intros; apply training_tail_quiet].
    rewrite (IH _ _ H), H1, last_modality_cons. reflexivity.
Qed.

Lemma validation_loop_scope (items : list (string * dataset_batch)) out st st' r :
  validation_loop dist_sample kl_divergence self out items st = (st', Ok r) ->
  modality_scope st' = last_modality (modality_scope st) items.
Proof.
  revert out st. induction items as [|[name b] rest IH]; intros out st H.
  - apply ret_ok_inv in H as [_ ->]. reflexivity.
  - cbn [validation_loop] in H.
    apply bind_ok_inv in H as (out' & s1 & H1 & H).
    unfold validation_iteration in H1. cbn [snd] in H1.
    apply iteration_scope in H1; [|intros; apply validation_tail_quiet].
    rewrite (IH _ _ H), H1, last_modality_cons. reflexivity.
Qed.

End ScopeAfterStep.

(** X9: the loop variable modality_scope is an attribute and outlives the
    loop: after a training_step or validation_step that returns, it holds
    the name of the last modality of the batch mapping (and its old value
    when the mapping is empty). *)
Theorem modality_scope_after_step {Params Dist Rng : Type}
    (dist_sample dist_rsample : Dist -> Rng -> tensor * Rng)
    (kl_divergence : Dist -> Dist -> result tensor)
    (self : PlayLMP Params Dist) (batch : list (string * dataset_batch))
    (st : state Params Rng) :
  (forall st' v,
     training_step dist_rsample kl_divergence self batch st = (st', Ok v) ->
     modality_scope st' = last_modality (modality_scope st) batch)
  /\ (forall st' out,
        validation_step dist_sample kl_divergence self batch st = (st', Ok out) ->
        modality_scope st' = last_modality (modality_scope st) batch).
Proof.
  split.
  - intros st' v H. unfold training_step in H.
    apply bind_ok_inv in H as ([[kl act] tot] & s1 & H1 & H).
    apply training_loop_scope in H1. rewrite <- H1.
    match type of H with
    | ?m s1 = _ => assert (Hq : quiet any_net m) by (repeat quiet_step)
    end.
    pose proof (quiet_scope _ _ s1 Hq) as Hs. rewrite H in Hs. exact Hs.
  - intros st' out H. unfold validation_step in H.
    apply validation_loop_scope in H. exact H.
Qed.

Lemma modality_scope_after_step_example :
  modality_scope
    (fst (training_step Demo.dist_sample Demo.kl_divergence Demo.model
            Demo.two_modalities Demo.st0)) = "lang".
Proof.
  destruct (modality_scope_after_step Demo.dist_sample Demo.dist_sample
              Demo.kl_divergence Demo.model Demo.two_modalities Demo.st0)
    as [Htrain _].
  apply (Htrain _ (Fin 13)). vm_compute. reflexivity.
Defined.
(** X10: a KL weight set through set_kl_beta is the one the next
    training_step uses: the step then returns (or raises) what the sum
    over modalities of action loss plus that weight times the mean KL
    divergence, divided by the number of modalities, gives. *)
Theorem set_kl_beta_takes_effect {Params Dist Rng : Type}
    (dist_rsample : Dist -> Rng -> tensor * Rng)
    (kl_divergence : Dist -> Dist -> result tensor)
    (self : PlayLMP Params Dist) (b : fl)
    (batch : list (string * dataset_batch)) (st : state Params Rng) :
  snd ((let* _ := set_kl_beta b in
        training_step dist_rsample kl_divergence self batch) st)
  = snd ((let* _ := set_kl_beta b in
          let* terms :=
            all_modality_terms dist_rsample kl_divergence self batch in
          ret (weighted_total b terms)) st).
Proof.
  unfold bind at 1 2. cbn [set_kl_beta].
  set (st_b := State _ _ _ _ _ _ _).
  pose proof (training_step_sim dist_rsample kl_divergence self b batch
                st_b st_b) as H.
  assert (Hs : same_but_logs b st_b st_b) by (repeat split).
  specialize (H Hs).
  change (reference_total_loss dist_rsample kl_divergence self batch st_b)
    with ((let* terms :=
             all_modality_terms dist_rsample kl_divergence self batch in
           ret (weighted_total b terms)) st_b) in H.
  destruct (training_step dist_rsample kl_divergence self batch st_b)
    as [s1 [x|e1]];
    destruct ((let* terms :=
                 all_modality_terms dist_rsample kl_divergence self batch in
               ret (weighted_total b terms)) st_b) as [s2 [y|e2]];
    cbn; try contradiction; destruct H as [_ ->]; reflexivity.
Qed.

Section LanguageModality.

Context {Params Dist Rng : Type}.
Variable dist_rsample : Dist -> Rng -> tensor * Rng.
Variable kl_divergence : Dist -> Dist -> result tensor.
Variable self : PlayLMP Params Dist.

Lemma language_branch_taken acc (name : string) (b : dataset_batch)
    (st st1 : state Params Rng) (pemb : tensor) :
  ~ substring_of "vis" name ->
  embed_modality self (name, b) st = (st1, Ok pemb) ->
  training_iteration dist_rsample kl_divergence self acc (name, b) st
  = bind (language_goal_of_field self b)
      (training_tail dist_rsample kl_divergence self acc b pemb) st1.
Proof.
  intros Hname Hemb. unfold training_iteration. cbn [snd].
  rewrite goal_after_embedding.
  assert (Hf : str_contains "vis" name = false).
  { destruct (str_contains "vis" name) eqn:E; [|reflexivity].
    exfalso. apply Hname, str_contains_spec, E. }
  rewrite Hf. unfold bind at 1. rewrite Hemb. reflexivity.
Qed.

End LanguageModality.

(** X11: for a modality whose name does not contain "vis", once its
    observations are embedded, a training iteration raises KeyError("lang")
    when the batch has no language field, and TypeError when it has one but
    the model was built without a language-goal encoder; in both cases no
    further sub-network runs. *)
Theorem language_modality_requirements {Params Dist Rng : Type}
    (dist_rsample : Dist -> Rng -> tensor * Rng)
    (kl_divergence : Dist -> Dist -> result tensor)
    (self : PlayLMP Params Dist) (acc : fl * fl * fl)
    (name : string) (b : dataset_batch)
    (st st1 : state Params Rng) (pemb : tensor) :
  ~ substring_of "vis" name ->
  embed_modality self (name, b) st = (st1, Ok pemb) ->
  (lang b = None ->
   training_iteration dist_rsample kl_divergence self acc (name, b) st
   = (st1, Raise (KeyError "lang")))
  /\ (forall l, lang b = Some l -> self_language_goal self = None ->
      training_iteration dist_rsample kl_divergence self acc (name, b) st
      = (st1, Raise (TypeError "'NoneType' object is not callable"))).
Proof.
  intros Hname Hemb.
  rewrite (language_branch_taken dist_rsample kl_divergence self acc name b
             st st1 pemb Hname Hemb).
  unfold language_goal_of_field. split.
  - intros ->. reflexivity.
  - intros l -> ->. reflexivity.
Qed.

Lemma language_modality_requirements_example :
  snd (training_iteration Demo.dist_sample Demo.kl_divergence Demo.model
         (fzero, fzero, fzero) ("lang", Demo.vis_batch) Demo.st0)
  = Raise (KeyError "lang")
  /\ snd (training_iteration Demo.dist_sample Demo.kl_divergence
            Cases.full_model (fzero, fzero, fzero) ("lang", Demo.lang_batch)
            Demo.st0)
     = Raise (TypeError "'NoneType' object is not callable").
Proof.
  assert (Hname : ~ substring_of "vis" "lang").
  { intros H. apply str_contains_spec in H. discriminate H. }
  split.
  - destruct (language_modality_requirements Demo.dist_sample
                Demo.kl_divergence Demo.model (fzero, fzero, fzero) "lang"
                Demo.vis_batch Demo.st0
                (fst (embed_modality Demo.model ("lang", Demo.vis_batch) Demo.st0))
                (Tensor [1; 2; 2]%nat (Demo.ints [2; 4; 6; 6])) Hname)
      as [Hkey _]; [vm_compute; reflexivity|].
    rewrite Hkey; reflexivity.
  - destruct (language_modality_requirements Demo.dist_sample
                Demo.kl_divergence Cases.full_model (fzero, fzero, fzero) "lang"
                Demo.lang_batch Demo.st0
                (fst (embed_modality Cases.full_model ("lang", Demo.lang_batch)
                        Demo.st0))
                (Tensor [1; 2; 2]%nat (Demo.ints [2; 4; 6; 8])) Hname)
      as [_ Htype]; [vm_compute; reflexivity|].
    rewrite (Htype Demo.instruction); reflexivity.
Defined.
Section ValidationKeys.

Context {Params Dist Rng : Type}.
Variable dist_sample : Dist -> Rng -> tensor * Rng.
Variable kl_divergence : Dist -> Dist -> result tensor.
Variable self : PlayLMP Params Dist.
Implicit Types st : state Params Rng.
Implicit Types out : gmap string pyval.

Lemma validation_tail_keys out (b : dataset_batch) (pemb goal : tensor)
    st st' out' :
  validation_tail dist_sample kl_divergence self out b pemb goal st
  = (st', Ok out') ->
  forall key,
    key ∈ validation_keys (modality_scope st) \/ is_Some (out !! key) ->
    is_Some (out' !! key).
Proof.
  intros H key Hkey. unfold validation_tail in H.
  apply bind_ok_inv in H as (r & s1 & H1 & H).
  pose proof (quiet_scope _ _ st (lmp_val_quiet dist_sample kl_divergence self
                                    pemb goal (actions b))) as Hs.
  rewrite H1 in Hs. cbn [fst] in Hs.
  apply bind_ok_inv in H as (scope & s2 & H2 & H).
  unfold get_modality_scope in H2. injection H2 as <- <-.
  apply ret_ok_inv in H as [<- _]. rewrite Hs.
  rewrite !lookup_insert_is_Some'.
  destruct Hkey as [Hin | Hold]; [|tauto].
  unfold validation_keys in Hin.
  repeat (apply elem_of_cons in Hin as [-> | Hin]; [tauto|]).
  apply elem_of_nil in Hin. contradiction.
Qed.

Lemma validation_iteration_keys out (name : string) (b : dataset_batch)
    st st' out' :
  validation_iteration dist_sample kl_divergence self out (name, b) st
  = (st', Ok out') ->
  forall key,
    key ∈ validation_keys name \/ is_Some (out !! key) ->
    is_Some (out' !! key).
Proof.
  intros H. unfold validation_iteration in H. cbn [snd] in H.
  apply bind_ok_inv in H as (pemb & s1 & H1 & H).
  pose proof (embed_modality_scope self name b st) as Hs.
  rewrite H1 in Hs. cbn [fst] in Hs.
  apply bind_ok_inv in H as (goal & s2 & H2 & H).
  pose proof (quiet_scope _ _ s1 (latent_goal_of_quiet self pemb b)) as Hs'.
  rewrite H2 in Hs'. cbn [fst] in Hs'.
  intros key Hkey. eapply validation_tail_keys; [exact H|].
  rewrite Hs', Hs. exact Hkey.
Qed.

Lemma validation_loop_keys (items : list (string * dataset_batch)) out
    st st' out' :
  validation_loop dist_sample kl_divergence self out items st = (st', Ok out') ->
  (forall key, is_Some (out !! key) -> is_Some (out' !! key))
  /\ (forall name b key,
        (name, b) ∈ items -> key ∈ validation_keys name ->
        is_Some (out' !! key)).
Proof.
  revert out st. induction items as [|[name b] rest IH]; intros out st H.
  - apply ret_ok_inv in H as [<- _]. split; [auto|].
    intros ? ? ? Hin. apply elem_of_nil in Hin. contradiction.
  - cbn [validation_loop] in H.
    apply bind_ok_inv in H as (out1 & s1 & H1 & H).
    pose proof (validation_iteration_keys _ _ _ _ _ _ H1) as Hit.
    destruct (IH _ _ H) as [Hkeep Hrest]. split.
    + intros key Hk. apply Hkeep, Hit. right. exact Hk.
    + intros n' b' key Hin Hkey.
      apply elem_of_cons in Hin as [[= -> ->] | Hin].
      * apply Hkeep, Hit. left. exact Hkey.
      * eapply Hrest; eassumption.
Qed.

End ValidationKeys.

(** X12: the mapping a validation_step returns has, for every modality of
    the batch mapping, an entry under each of the ten keys built from its
    name -- the two gripper keys without a separating underscore. *)
Theorem validation_step_keys {Params Dist Rng : Type}
    (dist_sample : Dist -> Rng -> tensor * Rng)
    (kl_divergence : Dist -> Dist -> result tensor)
    (self : PlayLMP Params Dist) (batch : list (string * dataset_batch))
    (st st' : state Params Rng) (out : gmap string pyval) :
  validation_step dist_sample kl_divergence self batch st = (st', Ok out) ->
  forall name b key,
    (name, b) ∈ batch -> key ∈ validation_keys name -> is_Some (out !! key).
Proof.
  intros H. unfold validation_step in H.
  apply validation_loop_keys in H as [_ H]. exact H.
Qed.

Lemma validation_step_keys_example :
  is_Some (Cases.val_step_out !! "gripper_sr_pplang")
  /\ is_Some (Cases.val_step_out !! "idx_vis").
Proof.
  pose proof (validation_step_keys Demo.dist_sample Demo.kl_divergence
                Demo.model Demo.two_modalities Demo.st0
                (fst Cases.val_step_run) Cases.val_step_out) as H.
  split.
  - apply (H ltac:(vm_compute; reflexivity) "lang" Demo.lang_batch).
    + apply elem_of_cons. right. apply elem_of_cons. left. reflexivity.
    + unfold validation_keys. do 7 (apply elem_of_cons; right).
      apply elem_of_cons. left. reflexivity.
  - apply (H ltac:(vm_compute; reflexivity) "vis" Demo.vis_batch).
    + apply elem_of_cons. left. reflexivity.
    + unfold validation_keys. do 9 (apply elem_of_cons; right).
      apply elem_of_cons. left. reflexivity.
Defined.
(** ** More on the gripper success rate *)

Lemma binarize_by_sign (d : list fl) :
  map binarize d = map (fun s : bool => if s then fone else fneg_one) (map fgt0 d).
Proof. rewrite map_map. reflexivity. Qed.

(** X13: the gripper success rate depends on the predicted gripper actions
    through their signs only: two predictions whose gripper columns have
    one shape and are positive at the same positions score the same
    against any ground truth. *)
Theorem gripper_sr_depends_on_sign_only (a b gt ga gb : tensor) :
  select (-1) (-1) a = Ok ga ->
  select (-1) (-1) b = Ok gb ->
  shape ga = shape gb ->
  map fgt0 (data ga) = map fgt0 (data gb) ->
  rbind (discretize_gripper a) (gripper_sr gt)
  = rbind (discretize_gripper b) (gripper_sr gt).
Proof.
  intros Ha Hb Hshape Hsign.
  rewrite (discretize_gripper_binarizes a ga Ha),
          (discretize_gripper_binarizes b gb Hb).
  rewrite !binarize_by_sign, Hshape, Hsign. reflexivity.
Qed.

Lemma gripper_sr_depends_on_sign_only_example :
  rbind (discretize_gripper (Demo.scale (Fin 2) Demo.acts))
    (gripper_sr (Tensor [1; 2]%nat [Fin 1; Fin (-1)]))
  = rbind (discretize_gripper (Demo.scale (Fin (7 # 3)) Demo.acts))
      (gripper_sr (Tensor [1; 2]%nat [Fin 1; Fin (-1)])).
Proof.
  apply (gripper_sr_depends_on_sign_only _ _ _
           (Tensor [1; 2]%nat [Fin 1; Fin (-2)])
           (Tensor [1; 2]%nat [Fin (7 # 6); Fin (-7 # 3)]));
    vm_compute; reflexivity.
Defined.

(** ** More on the inference entry points *)

Lemma mapM_unsqueeze_ok (xs : list tensor) :
  exists ys, mapM (unsqueeze 0) xs = Ok ys.
Proof.
  induction xs as [|x xs [ys IH]]; [exists []; reflexivity|].
  cbn [mapM]. unfold unsqueeze at 1. cbn [Nat.leb rbind].
  rewrite IH. cbn. eauto.
Qed.

Lemma set_grad_enabled_restore {Params Rng : Type} (st : state Params Rng) :
  set_grad_enabled (grad_enabled st) (set_grad_enabled false st) = st.
Proof. destruct st. reflexivity. Qed.

(** X14: predict_with_plan and get_pp_plan_lang raise TypeError on every
    input: the lists they build are subscripted with "rgb_static".  No
    sub-network is invoked and the state, autograd mode included, is left
    as it was. *)
Theorem plan_entry_points_raise_type_error {Params Dist Rng : Type}
    (dist_sample : Dist -> Rng -> tensor * Rng)
    (self : PlayLMP Params Dist)
    (curr_imgs curr_depths : list tensor)
    (curr_state latent_goal sampled_plan goal_lang : tensor)
    (st : state Params Rng) :
  predict_with_plan self curr_imgs curr_depths curr_state latent_goal
    sampled_plan st
  = (st, Raise (TypeError "list indices must be integers or slices, not str"))
  /\ get_pp_plan_lang dist_sample self curr_imgs curr_depths curr_state
       goal_lang st
     = (st, Raise (TypeError "list indices must be integers or slices, not str")).
Proof.
  destruct (mapM_unsqueeze_ok curr_imgs) as [imgs Hi].
  destruct (mapM_unsqueeze_ok curr_depths) as [depths Hd].
  split.
  - unfold predict_with_plan, unsqueeze_all, bind, lift.
    rewrite Hi, Hd. cbn. rewrite set_grad_enabled_restore. reflexivity.
  - unfold get_pp_plan_lang, unsqueeze_all, bind, lift.
    rewrite Hi, Hd. cbn. rewrite set_grad_enabled_restore. reflexivity.
Qed.

(** X15: get_pp_plan_vision raises AssertionError, with the state
    untouched, whenever the current and goal image lists or the current
    and goal depth lists differ in length. *)
Theorem get_pp_plan_vision_asserts_lengths {Params Dist Rng : Type}
    (dist_sample : Dist -> Rng -> tensor * Rng)
    (self : PlayLMP Params Dist)
    (curr_imgs curr_depths goal_imgs goal_depths : list tensor)
    (curr_state goal_state : tensor) (st : state Params Rng) :
  length curr_imgs <> length goal_imgs
  \/ length curr_depths <> length goal_depths ->
  get_pp_plan_vision dist_sample self curr_imgs curr_depths goal_imgs
    goal_depths curr_state goal_state st
  = (st, Raise AssertionError).
Proof.
  intros H. unfold get_pp_plan_vision, assert, bind.
  destruct (Nat.eqb_spec (length curr_imgs) (length goal_imgs)) as [E1|N1];
    [|reflexivity].
  cbn. destruct (Nat.eqb_spec (length curr_depths) (length goal_depths))
    as [E2|N2]; [|reflexivity].
  destruct H; contradiction.
Qed.

Lemma get_pp_plan_vision_asserts_lengths_example :
  get_pp_plan_vision Demo.dist_sample Demo.model
    [Demo.frame; Demo.frame] [] [Demo.frame] [] Demo.frame_state
    Demo.frame_state Demo.st0
  = (Demo.st0, Raise AssertionError).
Proof.
  apply get_pp_plan_vision_asserts_lengths. left. cbn. lia.
Defined.
(** ** validation_epoch_end *)

Lemma rbind_not_ok_l {A B} (r : result A) (k : A -> result B) :
  is_ok r = false -> is_ok (rbind r k) = false.
Proof. destruct r; [discriminate | reflexivity]. Qed.

Lemma rbind_not_ok_r {A B} (r : result A) (k : A -> result B) :
  (forall a, is_ok (k a) = false) -> is_ok (rbind r k) = false.
Proof. intros H. destruct r; [apply H | reflexivity]. Qed.

Lemma collect_missing (key : string) (outputs : list (gmap string pyval))
    (x : gmap string pyval) :
  x ∈ outputs -> x !! key = None -> is_ok (collect key outputs) = false.
Proof.
  intros Hin Hnone. unfold collect.
  induction outputs as [|y ys IH]; [apply elem_of_nil in Hin; contradiction|].
  cbn [mapM]. apply elem_of_cons in Hin as [<- | Hin].
  - unfold output_item at 1. rewrite Hnone. reflexivity.
  - apply rbind_not_ok_r. intros t. apply rbind_not_ok_l, IH, Hin.
Qed.

Lemma modality_metrics_missing (outputs : list (gmap string pyval))
    (modality key : string) (x : gmap string pyval) :
  x ∈ outputs -> key ∈ aggregated_keys modality -> x !! key = None ->
  is_ok (modality_metrics outputs modality) = false.
Proof.
  intros Hin Hkey Hnone.
  pose proof (collect_missing key outputs x Hin Hnone) as Hc.
  unfold aggregated_keys in Hkey. unfold modality_metrics.
  repeat (apply elem_of_cons in Hkey as [-> | Hkey];
          [ repeat first
              [ apply rbind_not_ok_l; unfold stacked_mean, concatenated;
                apply rbind_not_ok_l; exact Hc
              | apply rbind_not_ok_r; intros ? ] | ]).
  apply elem_of_nil in Hkey. contradiction.
Qed.

Section EpochEnd.

Context {Params Rng : Type}.
Implicit Types st : state Params Rng.

Lemma epoch_loop_missing (outputs : list (gmap string pyval))
    (mods : list string) (modality key : string) (x : gmap string pyval)
    acc st :
  modality ∈ mods -> x ∈ outputs -> key ∈ aggregated_keys modality ->
  x !! key = None ->
  is_ok (snd (epoch_loop outputs acc mods st)) = false.
Proof.
  intros Hm Hin Hkey Hnone. revert acc st.
  induction mods as [|m rest IH]; intros acc st;
    [apply elem_of_nil in Hm; contradiction|].
  cbn [epoch_loop]. apply elem_of_cons in Hm as [<- | Hm].
  - apply bind_not_ok_l. unfold lift. cbn [snd].
    eapply modality_metrics_missing; eassumption.
  - apply bind_not_ok. intros a st1. apply bind_not_ok. intros _ st2.
    apply IH, Hm.
Qed.

End EpochEnd.

(** X16: validation_epoch_end does not complete when, for one of the
    known modalities, one step output lacks one of the seven keys the
    aggregation reads for it. *)
Theorem validation_epoch_end_missing_key {Params Rng : Type}
    (modalities : list string) (outputs : list (gmap string pyval))
    (modality key : string) (x : gmap string pyval) (st : state Params Rng) :
  modality ∈ modalities ->
  x ∈ outputs ->
  key ∈ aggregated_keys modality ->
  x !! key = None ->
  is_ok (snd (validation_epoch_end modalities outputs st)) = false.
Proof.
  intros Hm Hin Hkey Hnone. unfold validation_epoch_end.
  apply bind_not_ok_l. eapply epoch_loop_missing; eassumption.
Qed.

Lemma validation_epoch_end_missing_key_example :
  is_ok (snd (validation_epoch_end (Params:=Demo.Params) (Rng:=Demo.Rng)
                ["vis"; "tactile"] [Cases.val_step_out] Demo.st0)) = false.
Proof.
  apply (validation_epoch_end_missing_key _ _ "tactile" "kl_loss_tactile"
           Cases.val_step_out).
  - apply elem_of_cons. right. apply elem_of_cons. left. reflexivity.
  - apply elem_of_cons. left. reflexivity.
  - unfold aggregated_keys. do 2 (apply elem_of_cons; right).
    apply elem_of_cons. left. reflexivity.
  - vm_compute. reflexivity.
Defined.
Ltac in_list :=
  repeat first [apply list_elem_of_here | apply list_elem_of_further].

Lemma ok_or_shape_error_rbind {A B} (r : result A) (k : A -> result B) :
  ok_or_shape_error r -> (forall a, ok_or_shape_error (k a)) ->
  ok_or_shape_error (rbind r k).
Proof. destruct r as [a|e]; cbn; auto. Qed.

Lemma collect_present (key : string) (outputs : list (gmap string pyval)) :
  (forall x, x ∈ outputs -> is_Some (x !! key)) ->
  collect key outputs
  = Ok (map (fun x => from_option as_tensor (Tensor [] []) (x !! key)) outputs).
Proof.
  unfold collect. induction outputs as [|x xs IH]; intros H; [reflexivity|].
  cbn [mapM map]. unfold output_item at 1.
  destruct (H x) as [v Hv]; [apply elem_of_cons; auto|].
  rewrite Hv. cbn [rbind].
  rewrite IH; [reflexivity|]. intros y Hy. apply H, elem_of_cons. auto.
Qed.

Lemma stack_shape_error (ts : list tensor) : ok_or_shape_error (stack ts).
Proof.
  unfold stack. destruct ts as [|t0 ts]; [exact I|].
  destruct (forallb _ _); exact I.
Qed.

Lemma norm_index_shape_error (i : Z) (n : nat) :
  ok_or_shape_error (norm_index i n).
Proof. unfold norm_index. destruct (_ && _); exact I. Qed.

Lemma cat_shape_error (dim : Z) (ts : list tensor) :
  ok_or_shape_error (cat dim ts).
Proof.
  unfold cat. destruct ts as [|t0 ts]; [exact I|].
  apply ok_or_shape_error_rbind; [apply norm_index_shape_error|].
  intros d. destruct (forallb _ _); exact I.
Qed.

Lemma slice_last_shape_error (lo hi : nat) (t : tensor) :
  ok_or_shape_error (slice_last lo hi t).
Proof. unfold slice_last. destruct (reverse (shape t)); exact I. Qed.

Lemma aggregated_keys_written (name key : string) :
  key ∈ aggregated_keys name -> key ∈ validation_keys name.
Proof.
  unfold aggregated_keys, validation_keys. intros H.
  repeat (apply elem_of_cons in H as [-> | H]; [in_list|]).
  apply elem_of_nil in H. contradiction.
Qed.

Lemma modality_metrics_shape_error (outputs : list (gmap string pyval))
    (modality : string) :
  (forall x key, x ∈ outputs -> key ∈ aggregated_keys modality ->
                 is_Some (x !! key)) ->
  ok_or_shape_error (modality_metrics outputs modality).
Proof.
  intros H.
  assert (Hc : forall key, key ∈ aggregated_keys modality ->
                 exists ts, collect key outputs = Ok ts).
  { intros key Hk. eexists. apply collect_present.
    intros x Hx. apply (H x key Hx Hk). }
  assert (Hs : forall key, key ∈ aggregated_keys modality ->
                 ok_or_shape_error (stacked_mean key outputs)).
  { intros key Hk. destruct (Hc key Hk) as [ts Hts].
    unfold stacked_mean. rewrite Hts. cbn [rbind].
    apply ok_or_shape_error_rbind; [apply stack_shape_error | intros; exact I]. }
  assert (Hcat : forall key, key ∈ aggregated_keys modality ->
                 ok_or_shape_error (concatenated key outputs)).
  { intros key Hk. destruct (Hc key Hk) as [ts Hts].
    unfold concatenated. rewrite Hts. cbn [rbind]. apply cat_shape_error. }
  unfold modality_metrics.
  repeat first
    [ exact I
    | apply ok_or_shape_error_rbind;
      [ first [ apply slice_last_shape_error
              | apply Hs; unfold aggregated_keys; in_list
              | apply Hcat; unfold aggregated_keys; in_list ]
      | intros ? ] ].
Qed.

Section EpochEndOutcome.

Context {Params Rng : Type}.
Implicit Types st : state Params Rng.

Lemma log_modality_ok (modality : string) (m : epoch_metrics) st :
  snd (log_modality modality m st) = Ok tt.
Proof. reflexivity. Qed.

Lemma log_aggregate_ok (n : nat) (a : epoch_metrics) st :
  snd (log_aggregate n a st) = Ok tt.
Proof. reflexivity. Qed.

Lemma epoch_loop_shape_error (outputs : list (gmap string pyval))
    (mods : list string) acc st :
  (forall x m key, x ∈ outputs -> m ∈ mods -> key ∈ aggregated_keys m ->
                   is_Some (x !! key)) ->
  ok_or_shape_error (snd (epoch_loop outputs acc mods st)).
Proof.
  revert acc st. induction mods as [|m rest IH]; intros acc st H; [exact I|].
  cbn [epoch_loop]. unfold bind at 1, lift.
  pose proof (modality_metrics_shape_error outputs m) as Hm.
  destruct (modality_metrics outputs m) as [mm|e].
  - unfold bind at 1.
    destruct (log_modality m mm st) as [s1 [[]|e]] eqn:E.
    + apply IH. intros x m' key Hx Hm'. apply H; [exact Hx|].
      apply elem_of_cons. auto.
    + pose proof (log_modality_ok m mm st) as Hl. rewrite E in Hl.
      discriminate Hl.
  - cbn [snd]. apply Hm. intros x key Hx Hk. apply (H x m key Hx); [|exact Hk].
    apply elem_of_cons. auto.
Qed.

End EpochEndOutcome.

(** X17: the aggregation reads what the validation steps wrote.  When
    every step output was returned by a validation_step whose batch mapping
    contains all the known modalities, validation_epoch_end finds every key
    it looks up: it returns, or raises a tensor shape error, and never a
    KeyError. *)
Theorem validation_epoch_end_reads_step_outputs {Params Dist Rng : Type}
    (dist_sample : Dist -> Rng -> tensor * Rng)
    (kl_divergence : Dist -> Dist -> result tensor)
    (self : PlayLMP Params Dist)
    (modalities : list string) (outputs : list (gmap string pyval))
    (st : state Params Rng) :
  (forall x, x ∈ outputs ->
     exists batch (st0 st1 : state Params Rng),
       validation_step dist_sample kl_divergence self batch st0 = (st1, Ok x)
       /\ forall m, m ∈ modalities -> m ∈ map fst batch) ->
  ok_or_shape_error (snd (validation_epoch_end modalities outputs st)).
Proof.
  intros H. unfold validation_epoch_end, bind.
  pose proof (epoch_loop_shape_error outputs modalities metrics_zero st) as Hl.
  destruct (epoch_loop outputs metrics_zero modalities st) as [s1 [tot|e]].
  - rewrite log_aggregate_ok. exact I.
  - apply Hl. intros x m key Hx Hm Hk.
    destruct (H x Hx) as (batch & st0 & st1 & Hstep & Hall).
    specialize (Hall m Hm). apply list_elem_of_In, in_map_iff in Hall.
    destruct Hall as ([m' b] & Hfst & Hb). cbn in Hfst. subst m'.
    apply list_elem_of_In in Hb.
    unfold validation_step in Hstep.
    apply validation_loop_keys in Hstep as [_ Hkeys].
    apply (Hkeys m b key Hb). apply aggregated_keys_written, Hk.
Qed.

Lemma validation_epoch_end_reads_step_outputs_example :
  ok_or_shape_error
    (snd (validation_epoch_end ["vis"; "lang"]
            [Cases.val_step_out; Cases.val_step_out] Demo.st0)).
Proof.
  apply (validation_epoch_end_reads_step_outputs Demo.dist_sample
           Demo.kl_divergence Demo.model).
  intros x Hx. exists Demo.two_modalities, Demo.st0, (fst Cases.val_step_run).
  split.
  - repeat (apply elem_of_cons in Hx as [-> | Hx];
            [vm_compute; reflexivity|]).
    apply elem_of_nil in Hx. contradiction.
  - intros m Hm. cbn. exact Hm.
Defined.

(** X18: with known modalities but no step outputs at all,
    validation_epoch_end raises the shape error of stacking an empty list,
    before logging anything. *)
Theorem validation_epoch_end_without_outputs {Params Rng : Type}
    (modalities : list string) (st : state Params Rng) :
  modalities <> [] ->
  validation_epoch_end modalities [] st
  = (st, Raise (RuntimeError "stack expects a non-empty TensorList")).
Proof.
  destruct modalities as [|m rest]; [contradiction|]. intros _. reflexivity.
Qed.

Lemma validation_epoch_end_without_outputs_example :
  validation_epoch_end ["vis"; "lang"] [] Demo.st0
  = (Demo.st0, Raise (RuntimeError "stack expects a non-empty TensorList")).
Proof. apply validation_epoch_end_without_outputs. discriminate. Defined.
Lemma rbind_ok_inv {A B} (r : result A) (k : A -> result B) (b : B) :
  rbind r k = Ok b -> exists a, r = Ok a /\ k a = Ok b.
Proof. destruct r as [a|e]; cbn; [eauto | discriminate]. Qed.

Lemma collect_ok_data (key : string) (outputs : list (gmap string pyval))
    (ts : list tensor) :
  collect key outputs = Ok ts ->
  map data ts
  = map (fun x => from_option (fun v => data (as_tensor v)) [] (x !! key))
      outputs.
Proof.
  unfold collect. revert ts.
  induction outputs as [|x xs IH]; intros ts H.
  - injection H as <-. reflexivity.
  - cbn [mapM] in H.
    apply rbind_ok_inv in H as (t & Ht & H).
    apply rbind_ok_inv in H as (ts' & Hts & H). injection H as <-.
    cbn [map]. rewrite (IH ts' Hts). f_equal.
    unfold output_item in Ht. destruct (x !! key) as [v|]; [|discriminate].
    injection Ht as <-. reflexivity.
Qed.

(** The mean of the stacked entries is the mean of all stored elements. *)
Lemma stacked_mean_stored (key : string) (outputs : list (gmap string pyval))
    (v : fl) :
  stacked_mean key outputs = Ok v -> v = stored_mean key outputs.
Proof.
  unfold stacked_mean. intros H.
  apply rbind_ok_inv in H as (ts & Hts & H).
  apply rbind_ok_inv in H as (t & Ht & H). injection H as <-.
  unfold stored_mean. rewrite <- (collect_ok_data key outputs ts Hts).
  unfold stack in Ht. destruct ts as [|t0 ts']; [discriminate|].
  destruct (forallb _ _); [|discriminate]. injection Ht as <-. reflexivity.
Qed.

Lemma modality_metrics_stacked (outputs : list (gmap string pyval))
    (m : string) (mm : epoch_metrics) :
  modality_metrics outputs m = Ok mm ->
  e_act_loss_pp mm = stored_mean ("val_action_loss_pp_" +:+ m) outputs
  /\ e_act_loss_pr mm = stored_mean ("val_action_loss_pr_" +:+ m) outputs
  /\ e_kl_loss mm = stored_mean ("kl_loss_" +:+ m) outputs
  /\ e_grip_sr_pr mm = stored_mean ("gripper_sr_pr" +:+ m) outputs
  /\ e_grip_sr_pp mm = stored_mean ("gripper_sr_pp" +:+ m) outputs.
Proof.
  unfold modality_metrics. intros H.
  apply rbind_ok_inv in H as (a_pp & H1 & H).
  apply rbind_ok_inv in H as (a_pr & H2 & H).
  apply rbind_ok_inv in H as (kl & H3 & H).
  apply rbind_ok_inv in H as (m_pp & _ & H).
  apply rbind_ok_inv in H as (m_pr & _ & H).
  apply rbind_ok_inv in H as (p1 & _ & H).
  apply rbind_ok_inv in H as (p2 & _ & H).
  apply rbind_ok_inv in H as (o1 & _ & H).
  apply rbind_ok_inv in H as (o2 & _ & H).
  apply rbind_ok_inv in H as (g_pp & H4 & H).
  apply rbind_ok_inv in H as (g_pr & H5 & H).
  injection H as <-. cbn.
  repeat split; apply stacked_mean_stored; assumption.
Qed.

Section EpochAggregates.

Context {Params Rng : Type}.
Implicit Types st : state Params Rng.

(** The totals are the per-modality metrics added up, in order. *)
Lemma epoch_loop_totals (outputs : list (gmap string pyval))
    (mods : list string) acc st st' (tot : epoch_metrics) :
  epoch_loop outputs acc mods st = (st', Ok tot) ->
  exists ms,
    Forall2 (fun m mm => modality_metrics outputs m = Ok mm) mods ms
    /\ tot = fold_left metrics_add ms acc.
Proof.
  revert acc st. induction mods as [|m rest IH]; intros acc st H.
  - apply ret_ok_inv in H as [<- _]. exists []. split; [constructor | reflexivity].
  - cbn [epoch_loop] in H.
    apply bind_ok_inv in H as (mm & s1 & H1 & H).
    apply lift_ok_inv in H1 as [Hmm _].
    apply bind_ok_inv in H as (u & s2 & _ & H).
    destruct (IH _ _ H) as (ms & Hms & ->).
    exists (mm :: ms). split; [constructor; assumption | reflexivity].
Qed.

End EpochAggregates.

Lemma fold_metrics_field (f : epoch_metrics -> fl) (ms : list epoch_metrics)
    (acc : epoch_metrics) :
  (forall a m, f (metrics_add a m) = fadd (f a) (f m)) ->
  f (fold_left metrics_add ms acc) = fold_left fadd (map f ms) (f acc).
Proof.
  intros Hf. revert acc. induction ms as [|m ms IH]; intros acc; [reflexivity|].
  cbn [fold_left map]. rewrite IH, Hf. reflexivity.
Qed.

Lemma aggregate_field (outputs : list (gmap string pyval))
    (f : epoch_metrics -> fl) (prefix : string)
    (mods : list string) (ms : list epoch_metrics) :
  (forall a m, f (metrics_add a m) = fadd (f a) (f m)) ->
  f metrics_zero = fzero ->
  Forall2 (fun m mm => f mm = stored_mean (prefix +:+ m) outputs) mods ms ->
  fdiv_nat (f (fold_left metrics_add ms metrics_zero)) (length mods)
  = mean_over_modalities prefix mods (fun key => stored_mean key outputs).
Proof.
  intros Hadd Hzero Hall. unfold mean_over_modalities, fsum.
  rewrite (fold_metrics_field f ms metrics_zero Hadd), Hzero.
  f_equal. f_equal. induction Hall as [|m mm mods' ms' Hm _ IH]; [reflexivity|].
  cbn [map]. rewrite Hm, IH. reflexivity.
Qed.

(** X19: when validation_epoch_end returns, the last eleven metrics it
    logged are the aggregates; those of the two action losses, the KL loss
    and the two gripper success rates are each the unweighted mean over the
    known modalities of that modality's mean over everything the
    validation steps stored for it. *)
Theorem validation_epoch_end_aggregates {Params Rng : Type}
    (modalities : list string) (outputs : list (gmap string pyval))
    (st st' : state Params Rng) :
  validation_epoch_end modalities outputs st = (st', Ok tt) ->
  let agg prefix :=
    mean_over_modalities prefix modalities
      (fun key => stored_mean key outputs) in
  exists pre v1 v2 v3 v4 v5 v6,
    logged st'
    = (pre ++ [ ("val_act/action_loss_pp", agg "val_action_loss_pp_");
                ("val_act/action_loss_pr", agg "val_action_loss_pr_");
                ("val_kl/kl_loss", agg "kl_loss_");
                ("val_total_mae/total_mae_pr", v1);
                ("val_total_mae/total_mae_pp", v2);
                ("val_pos_mae/pos_mae_pr", v3);
                ("val_pos_mae/pos_mae_pp", v4);
                ("val_orn_mae/orn_mae_pr", v5);
                ("val_orn_mae/orn_mae_pp", v6);
                ("val_grip/grip_sr_pr", agg "gripper_sr_pr");
                ("val_grip/grip_sr_pp", agg "gripper_sr_pp") ])%list.
Proof.
  intros H agg. unfold validation_epoch_end in H.
  apply bind_ok_inv in H as (tot & s1 & Hloop & H).
  apply epoch_loop_totals in Hloop as (ms & Hms & ->).
  assert (Hst : logged st' = logged (fst (log_aggregate (length modalities)
                   (fold_left metrics_add ms metrics_zero) s1)))
    by (rewrite H; reflexivity).
  set (tot := fold_left metrics_add ms metrics_zero) in *.
  assert (Hfield : forall (f : epoch_metrics -> fl) (prefix : string),
            (forall a m, f (metrics_add a m) = fadd (f a) (f m)) ->
            f metrics_zero = fzero ->
            (forall m mm, modality_metrics outputs m = Ok mm ->
                          f mm = stored_mean (prefix +:+ m) outputs) ->
            fdiv_nat (f tot) (length modalities) = agg prefix).
  { intros f prefix Hadd Hzero Hf. unfold tot, agg.
    apply aggregate_field; [exact Hadd | exact Hzero |].
    eapply Forall2_impl; [exact Hms|]. cbn beta. intros m mm Hmm.
    apply Hf, Hmm. }
  rewrite Hst. cbn. repeat rewrite <- app_assoc. cbn [app].
  exists (logged s1).
  do 6 eexists.
  rewrite <- (Hfield e_act_loss_pp "val_action_loss_pp_");
    [|reflexivity | reflexivity
     |intros m mm Hmm; apply modality_metrics_stacked in Hmm; tauto].
  rewrite <- (Hfield e_act_loss_pr "val_action_loss_pr_");
    [|reflexivity | reflexivity
     |intros m mm Hmm; apply modality_metrics_stacked in Hmm; tauto].
  rewrite <- (Hfield e_kl_loss "kl_loss_");
    [|reflexivity | reflexivity
     |intros m mm Hmm; apply modality_metrics_stacked in Hmm; tauto].
  rewrite <- (Hfield e_grip_sr_pr "gripper_sr_pr");
    [|reflexivity | reflexivity
     |intros m mm Hmm; apply modality_metrics_stacked in Hmm; tauto].
  rewrite <- (Hfield e_grip_sr_pp "gripper_sr_pp");
    [|reflexivity | reflexivity
     |intros m mm Hmm; apply modality_metrics_stacked in Hmm; tauto].
  reflexivity.
Qed.

Lemma validation_epoch_end_aggregates_example :
  exists pre v1 v2 v3 v4 v5 v6,
    logged (fst Cases.epoch_run)
    = (pre ++ [ ("val_act/action_loss_pp", Fin 3);
                ("val_act/action_loss_pr", Fin (13 # 2));
                ("val_kl/kl_loss", Fin (13 # 2));
                ("val_total_mae/total_mae_pr", v1);
                ("val_total_mae/total_mae_pp", v2);
                ("val_pos_mae/pos_mae_pr", v3);
                ("val_pos_mae/pos_mae_pp", v4);
                ("val_orn_mae/orn_mae_pr", v5);
                ("val_orn_mae/orn_mae_pp", v6);
                ("val_grip/grip_sr_pr", Fin (1 # 2));
                ("val_grip/grip_sr_pp", Fin (1 # 2)) ])%list.
Proof.
  destruct (validation_epoch_end_aggregates ["vis"; "lang"]
              [Cases.val_step_out; Cases.val_step_out] Demo.st0
              (fst Cases.epoch_run))
    as (pre & v1 & v2 & v3 & v4 & v5 & v6 & H).
  { vm_compute. reflexivity. }
  exists pre, v1, v2, v3, v4, v5, v6. rewrite H. vm_compute. reflexivity.
Defined.
